(** * Universal TV Remote: frame codec, pairing session, subnet scans,
    handler registry and Samsung handler, embedded from the Kotlin and
    TypeScript sources.

  Layout of the development:
  - [KotlinInt]       : fixed-width integer conversions of the JVM;
  - [FrameCodec]      : [sendWebSocketFrame] / [readWebSocketFrame] of
                        SamsungTvClient.kt over a byte stream;
  - [Str]             : the string library functions the code calls;
  - [TokenRepository] : TokenRepository.kt over a finite map;
  - [Session]         : [SamsungTvClient.connect] / [connectRawWebSocket]
                        with the watchdog timer and the main looper, each
                        attempt taken as a whole;
  - [Peer], [Remote]  : frames as the television writes them, and
                        [sendKey] / [launchApp] of SamsungTvClient.kt;
  - [FrameReader]     : [readWebSocketFrame] on a bounded heap and
                        stack, with an output stream that may fail;
  - [Threads]         : the caller of [connect], the connection threads,
                        the reader threads and the main looper, statement
                        by statement;
  - [Races]           : runs of those threads, and what is counted along
                        them;
  - [Subnet]          : [scanSubnetForTvPorts] and [generateSubnetIps];
  - [Types]           : types.ts;
  - [Registry]        : [HandlerRegistry] of registry.ts;
  - [RegistryEvents]  : listeners, event forwarding and
                        [getLastConnectedIp] of registry.ts;
  - [Discovery]       : [discoverAll] of registry.ts;
  - [RegistryAwait]   : [connect] of registry.ts with the events that
                        arrive while it waits;
  - [Samsung]         : keys.ts and [SamsungTizenHandler];
  - [TizenHandler]    : [connect] / [disconnect] of [SamsungTizenHandler]
                        with the native events;
  - [Ssdp]            : [discover] and [extractIpFromSsdpResponse];
  - [Pairing]         : [clearAll] and the handshake path with a token;
  - [Keyboard]        : [charToSamsungKey] and [sendSearchToTv].
  The modules above hold the definitions; the statements about them
  follow in the modules named [...Facts]. *)

From Stdlib Require Import ZArith List Lia String Ascii Bool DecimalString DecimalZ Sorted.
From stdpp Require Import gmap strings list.
Import ListNotations.

Local Open Scope Z_scope.

(** ** Fixed-width integers of the JVM *)

Module KotlinInt.

(** Two's-complement reduction of [z] to a signed [bits]-bit value:
    what [toByte], [toShort], [toInt] and [toLong] do. *)
Definition wrap (bits : Z) (z : Z) : Z :=
  (z + 2 ^ (bits - 1)) mod 2 ^ bits - 2 ^ (bits - 1).

Definition toByte (z : Z) : Z := wrap 8 z.
Definition toShort (z : Z) : Z := wrap 16 z.
Definition toInt (z : Z) : Z := wrap 32 z.
Definition toLong (z : Z) : Z := wrap 64 z.

(** A value a Kotlin [Byte] can hold. *)
Definition isByte (z : Z) : Prop := -128 <= z <= 127.

Definition isByteb (z : Z) : bool := (-128 <=? z) && (z <=? 127).

Definition Int_MAX_VALUE : Z := 2147483647.

End KotlinInt.

(** ** The WebSocket frame codec of SamsungTvClient.kt *)

Module FrameCodec.
Import KotlinInt.

(** A [ByteArray] is a list of signed bytes.  A stream holds the bytes
    still to be read, as the peer wrote them. *)
Definition ByteArray := list Z.

(** The socket as the codec sees it: the bytes waiting on its input
    stream, the bytes written to its output stream, and the sizes of the
    byte arrays allocated so far (oldest first). *)
Record Socket := mkSocket {
  input : list Z;
  output : list Z;
  allocated : list Z
}.

(** [InputStream.read()]: the next byte as 0..255, or -1 at end of
    stream. *)
Definition read (inp : list Z) : Z * list Z :=
  match inp with
  | [] => (-1, [])
  | b :: rest => (Z.land b 255, rest)
  end.

(** [ByteArray(n)]: [n] zero bytes.  Guarded by the caller: a negative
    size throws NegativeArraySizeException. *)
Definition newByteArray (n : Z) : ByteArray := repeat 0 (Z.to_nat n).

(** [InputStream.read(b)] on [ByteArray(4)]: the bytes available, at most
    four, are stored from index 0; the remaining cells stay zero. *)
Definition readMaskKey (inp : list Z) : ByteArray * list Z :=
  let got := firstn 4 inp in
  (got ++ repeat 0 (4 - length got)%nat, skipn 4 inp).

(** Outcome of [InputStream.read(b, off, len)]. *)
Inductive ReadN :=
| ReadThrew                                   (* IndexOutOfBoundsException *)
| ReadGot (n : Z) (b : ByteArray) (rest : list Z).

(** [InputStream.read(b, off, len)]: bounds are checked first; a zero
    [len] returns 0; at end of stream -1; otherwise the bytes available,
    at most [len], are stored at [off] and their number is returned. *)
Definition readInto (b : ByteArray) (off len : Z) (inp : list Z) : ReadN :=
  if (off <? 0) || (len <? 0) || (Z.of_nat (length b) - off <? len) then ReadThrew
  else if len =? 0 then ReadGot 0 b inp
  else match inp with
       | [] => ReadGot (-1) b inp
       | _ =>
         let got := firstn (Z.to_nat len) inp in
         ReadGot (Z.of_nat (length got))
                 (firstn (Z.to_nat off) b ++ got
                    ++ skipn (Z.to_nat off + length got)%nat b)
                 (skipn (Z.to_nat len) inp)
       end.

(** Outcome of the payload loop. *)
Inductive Loop :=
| LoopThrew
| LoopSpins                                   (* read returned 0: no progress, ever *)
| LoopDone (payload : ByteArray) (rest : list Z).

(** [while (bytesRead < payloadLength) { n = read(payload, bytesRead,
    (payloadLength - bytesRead).toInt()); if (n == -1) break;
    bytesRead += n }].  A read that returns 0 leaves every variable
    unchanged, so the loop repeats it for ever. *)
Fixpoint readLoop (fuel : nat) (payloadLength : Z) (payload : ByteArray)
         (bytesRead : Z) (inp : list Z) : Loop :=
  if bytesRead <? payloadLength then
    match fuel with
    | O => LoopSpins
    | S fuel' =>
      match readInto payload bytesRead (toInt (payloadLength - bytesRead)) inp with
      | ReadThrew => LoopThrew
      | ReadGot n payload' rest =>
        if n =? -1 then LoopDone payload' rest
        else if n =? 0 then LoopSpins
        else readLoop fuel' payloadLength payload' (toInt (bytesRead + n)) rest
      end
    end
  else LoopDone payload inp.

(** [for (i in payload.indices) payload[i] = (payload[i].toInt() xor
    maskKey[i % 4].toInt()).toByte()], the same loop in the encoder and
    in the decoder; [i] is the index of the head of [payload]. *)
Fixpoint xorMask (maskKey : ByteArray) (i : nat) (payload : ByteArray) : ByteArray :=
  match payload with
  | [] => []
  | b :: rest =>
    toByte (Z.lxor b (nth (i mod 4) maskKey 0)) :: xorMask maskKey (S i) rest
  end.

(** [for (i in 0 until 8) len = (len shl 8) or input.read().toLong()]. *)
Fixpoint readLength64 (k : nat) (len : Z) (inp : list Z) : Z * list Z :=
  match k with
  | O => (len, inp)
  | S k' =>
    let '(b, rest) := read inp in
    readLength64 k' (Z.lor (toLong (Z.shiftl len 8)) b) rest
  end.

(** The header of one frame: opcode, mask flag and declared payload
    length, with the stream after the length field. *)
Record Header := mkHeader {
  opcode : Z;
  fin : bool;
  masked : bool;
  payloadLength : Z;
  afterLength : list Z
}.

(** The first part of [readWebSocketFrame], up to the length field.
    [None] is the early [return null] on end of stream. *)
Definition readHeader (inp : list Z) : option Header :=
  let '(byte1, i1) := read inp in
  if byte1 =? -1 then None else
  let '(byte2, i2) := read i1 in
  if byte2 =? -1 then None else
  let len7 := Z.land byte2 127 in
  let '(len, i3) :=
    if len7 =? 126 then
      let '(b1, j1) := read i2 in
      let '(b2, j2) := read j1 in
      (Z.lor (toInt (Z.shiftl b1 8)) b2, j2)
    else if len7 =? 127 then readLength64 8 0 i2
    else (len7, i2) in
  Some (mkHeader (Z.land byte1 15) (negb (Z.land byte1 128 =? 0))
                 (negb (Z.land byte2 128 =? 0)) len i3).

(** What [readWebSocketFrame] gives back: a [String?], or nothing at all
    when the payload loop spins.  The text [String(payload, UTF_8)] is
    represented by the bytes it is decoded from. *)
Inductive ReadResult :=
| Returned (text : option ByteArray)
| Diverges.

Definition pongFrame : ByteArray := [toByte 138; 0].

(** [readWebSocketFrame(socket)].  Every exception is caught and turned
    into [null].  The recursion on ping and pong frames consumes at
    least two bytes of input per call, which [fuel] bounds. *)
Fixpoint readWebSocketFrame_fuel (fuel : nat) (s : Socket) : ReadResult * Socket :=
  match fuel with
  | O => (Diverges, s)
  | S fuel' =>
    match readHeader (input s) with
    | None => (Returned None, mkSocket [] (output s) (allocated s))
    | Some h =>
      let '(maskKey, i4, al) :=
        if masked h
        then let '(k, r) := readMaskKey (afterLength h) in
             (Some k, r, allocated s ++ [4])
        else (None, afterLength h, allocated s) in
      let size := toInt (payloadLength h) in
      if size <? 0 then (Returned None, mkSocket i4 (output s) al)
      else
        let al' := al ++ [size] in
        match readLoop (S (length i4)) (payloadLength h) (newByteArray size) 0 i4 with
        | LoopThrew => (Returned None, mkSocket i4 (output s) al')
        | LoopSpins => (Diverges, mkSocket i4 (output s) al')
        | LoopDone payload i5 =>
          let payload' :=
            match maskKey with
            | Some k => xorMask k 0 payload
            | None => payload
            end in
          let s' := mkSocket i5 (output s) al' in
          if opcode h =? 1 then (Returned (Some payload'), s')
          else if opcode h =? 2 then (Returned (Some payload'), s')
          else if opcode h =? 8 then (Returned None, s')
          else if opcode h =? 9 then
            readWebSocketFrame_fuel fuel'
              (mkSocket i5 (output s ++ pongFrame) (al' ++ [2]))
          else if opcode h =? 10 then readWebSocketFrame_fuel fuel' s'
          else (Returned (Some payload'), s')
        end
    end
  end.

Definition readWebSocketFrame (s : Socket) : ReadResult * Socket :=
  readWebSocketFrame_fuel (S (length (input s))) s.

(** [ByteBuffer.putShort]: big-endian, high byte first. *)
Definition putShort (x : Z) : ByteArray := [toByte (Z.shiftr x 8); toByte x].

(** Capacity given to [ByteBuffer.allocate]. *)
Definition frameCapacity (size : Z) : Z :=
  2 + (if 125 <? size then 2 else 0) + 4 + size.

(** The buffer [sendWebSocketFrame] fills: [payload] is
    [text.toByteArray(UTF_8)], [maskKey] the four bytes drawn from
    SecureRandom. *)
Definition encodeFrame (maskKey payload : ByteArray) : ByteArray :=
  let size := Z.of_nat (length payload) in
  [toByte 129]
    ++ (if size <=? 125 then [toByte (Z.lor 128 size)]
        else [toByte 254] ++ putShort (toShort size))
    ++ maskKey
    ++ xorMask maskKey 0 payload.

(** [sendWebSocketFrame(output, text)]: the filled buffer is written to
    the stream. *)
Definition sendWebSocketFrame (out : list Z) (maskKey payload : ByteArray) : list Z :=
  out ++ encodeFrame maskKey payload.

(** A socket whose input is exactly the bytes [wire]. *)
Definition incoming (wire : list Z) : Socket := mkSocket wire [] [].

(** What the peer's decoder gets from the bytes the encoder wrote. *)
Definition decodeEncoded (maskKey payload : ByteArray) : ReadResult :=
  fst (readWebSocketFrame (incoming (sendWebSocketFrame [] maskKey payload))).

(** Masking twice with the same key byte gives the byte back, and the
    masked byte is again a byte. *)
Definition xorCheck (b m : Z) : bool :=
  (toByte (Z.lxor (toByte (Z.lxor b m)) m) =? b)
  && (Z.lxor (toByte (Z.lxor b m)) m =? b)
  && isByteb (toByte (Z.lxor b m)).

(** The literal length byte read back: not end of stream, the seven low
    bits are the size, the mask bit is set. *)
Definition literalCheck (size : Z) : bool :=
  let byte2 := Z.land (toByte (Z.lor 128 size)) 255 in
  negb (byte2 =? -1) && (Z.land byte2 127 =? size)
  && negb (Z.land byte2 128 =? 0) && (Z.land (toByte (Z.lor 128 size)) 128 =? 128).

(** The two bytes of [putShort] read back with the decoder's
    [(b1 shl 8) or b2]. *)
Definition shortCheck (s : Z) : bool :=
  match putShort (toShort s) with
  | [hi; lo] => Z.lor (toInt (Z.shiftl (Z.land hi 255) 8)) (Z.land lo 255) =? s
  | _ => false
  end.

(** Length of the frame header before the mask key, as the encoder
    writes it. *)
Definition headerLength (size : Z) : nat := if size <=? 125 then 2%nat else 4%nat.

(** A payload of 65536 bytes, the letter [a] throughout, and a mask key. *)
Definition payload65536 : ByteArray := repeat 97 (Z.to_nat 65536).
Definition sampleMask : ByteArray := [17; -2; 35; 127].

(** An unmasked text frame whose 64-bit length field declares
    2147483647 bytes and whose payload never arrives. *)
Definition hugeFrame : list Z := [toByte 129; 127; 0; 0; 0; 0; 127; -1; -1; -1].

(** [f] holds on the [n] integers from [z] upwards. *)
Fixpoint allFrom (f : Z -> bool) (n : nat) (z : Z) : bool :=
  match n with
  | O => true
  | S n' => f z && allFrom f n' (z + 1)
  end.

End FrameCodec.


(** ** Strings as the Kotlin and JavaScript library functions see them *)

Module Str.
Local Open Scope string_scope.

(** [String.contains] / [String.prototype.includes]: [sub] occurs in [s]. *)
Fixpoint contains (s sub : string) : bool :=
  String.prefix sub s
  || match s with
     | EmptyString => false
     | String _ rest => contains rest sub
     end.

(** The whitespace class [\s] of java.util.regex. *)
Definition isSpace (c : ascii) : bool :=
  let n := nat_of_ascii c in
  (n =? 32)%nat || ((9 <=? n) && (n <=? 13))%nat.

(** [Char.isWhitespace] on the ASCII range: [\s] and the separators
    U+001C..U+001F. *)
Definition isWhitespace (c : ascii) : bool :=
  let n := nat_of_ascii c in
  isSpace c || ((28 <=? n) && (n <=? 31))%nat.

Fixpoint isBlank (s : string) : bool :=
  match s with
  | EmptyString => true
  | String c rest => isWhitespace c && isBlank rest
  end.

Fixpoint skipSpaces (s : string) : string :=
  match s with
  | String c rest => if isSpace c then skipSpaces rest else s
  | EmptyString => s
  end.

(** [s] without the prefix [p], when it starts with it. *)
Fixpoint stripPrefix (p s : string) : option string :=
  match p, s with
  | EmptyString, _ => Some s
  | String a p', String b s' => if Ascii.eqb a b then stripPrefix p' s' else None
  | String _ _, EmptyString => None
  end.

(** The double quote character. *)
Definition quote : ascii := ascii_of_nat 34.

(** The longest prefix without a double quote, and what follows it. *)
Fixpoint untilQuote (s : string) : string * string :=
  match s with
  | String c rest =>
    if Ascii.eqb c quote then (EmptyString, s)
    else let '(tok, tl) := untilQuote rest in (String c tok, tl)
  | EmptyString => (EmptyString, EmptyString)
  end.

(** Standard Base64 with padding and no line breaks
    ([Base64.encodeToString(bytes, Base64.NO_WRAP)]). *)
Definition base64Alphabet : string :=
  "ABCDEFGHIJKLMNOPQRSTUVWXYZabcdefghijklmnopqrstuvwxyz0123456789+/".

Definition base64Char (n : nat) : ascii :=
  match String.get n base64Alphabet with
  | Some c => c
  | None => "="%char
  end.

Fixpoint base64 (bytes : list nat) : string :=
  match bytes with
  | [] => EmptyString
  | [a] =>
    String (base64Char (a / 4)) (String (base64Char (a mod 4 * 16)) "==")
  | [a; b] =>
    String (base64Char (a / 4))
      (String (base64Char (a mod 4 * 16 + b / 16))
         (String (base64Char (b mod 16 * 4)) "="))
  | a :: b :: c :: rest =>
    String (base64Char (a / 4))
      (String (base64Char (a mod 4 * 16 + b / 16))
         (String (base64Char (b mod 16 * 4 + c / 64))
            (String (base64Char (c mod 64)) (base64 rest))))
  end%nat.

(** [toByteArray(Charsets.UTF_8)] of an ASCII string. *)
Definition asciiBytes (s : string) : list nat := map nat_of_ascii (list_ascii_of_string s).

End Str.

(** ** TokenRepository.kt: the shared preferences file [samsung_remote] *)

Module TokenRepository.
Local Open Scope string_scope.

Definition KEY_PREFIX : string := "tv_token_".
Definition KEY_LAST_IP : string := "last_connected_ip".

Definition getToken (ip : string) (prefs : gmap string string) : option string :=
  prefs !! (KEY_PREFIX ++ ip).

Definition saveToken (ip token : string) (prefs : gmap string string) : gmap string string :=
  <[KEY_PREFIX ++ ip := token]> prefs.

Definition clearToken (ip : string) (prefs : gmap string string) : gmap string string :=
  delete (KEY_PREFIX ++ ip) prefs.

Definition getLastConnectedIp (prefs : gmap string string) : option string :=
  prefs !! KEY_LAST_IP.

Definition setLastConnectedIp (ip : string) (prefs : gmap string string) : gmap string string :=
  <[KEY_LAST_IP := ip]> prefs.

End TokenRepository.

(** ** SamsungTvClient.kt: connecting and pairing *)

Module Session.
Import Str TokenRepository.
Local Open Scope string_scope.

Definition APP_NAME : string := "Universal TV Remote".
Definition REMOTE_PORT_WSS : Z := 8002.
Definition REMOTE_PORT_WS : Z := 8001.

Definition appNameB64 : string := base64 (asciiBytes APP_NAME).

(** The handshake path of [connect]; [storedToken] is
    [tokenRepository.getToken(ip)]. *)
Definition connectPath (storedToken : option string) : string :=
  match storedToken with
  | Some token =>
    if (String.length token =? 0)%nat
    then "/api/v2/channels/samsung.remote.control?name=" ++ appNameB64
    else "/api/v2/channels/samsung.remote.control?name=" ++ appNameB64
           ++ "&token=" ++ token
  | None => "/api/v2/channels/samsung.remote.control?name=" ++ appNameB64
  end.

(** The regular expression of the success branch tried at the start of
    [s], giving group 1 of the match: the quoted word token, optional
    spaces, a colon, optional spaces, a quote, one or more characters
    other than a quote (the group), a quote.  Every repetition in it is
    followed by a character outside its class, so the greedy match is the
    only one. *)
Definition matchTokenHere (s : string) : option string :=
  match stripPrefix (String quote ("token" ++ String quote EmptyString)) s with
  | None => None
  | Some s1 =>
    match stripPrefix ":" (skipSpaces s1) with
    | None => None
    | Some s2 =>
      match skipSpaces s2 with
      | String c s3 =>
        if Ascii.eqb c quote then
          match untilQuote s3 with
          | (EmptyString, _) => None
          | (tok, String _ _) => Some tok
          | (_, EmptyString) => None
          end
        else None
      | EmptyString => None
      end
    end
  end.

(** [Regex.find]: the leftmost match. *)
Fixpoint findToken (s : string) : option string :=
  match matchTokenHere s with
  | Some tok => Some tok
  | None =>
    match s with
    | String _ rest => findToken rest
    | EmptyString => None
    end
  end.

Inductive Event :=
| EvConnected (ip : string)
| EvError (message : string)
| EvDisconnected.

(** A block handed to [mainHandler.post]. *)
Inductive Task :=
| NotifyConnected (ip : string) (cb : nat)      (* onEvent("connected"); cb(true, null) *)
| NotifyError (message : string) (cb : nat).    (* onEvent("error"); cb(false, message) *)

(** One call of a completion callback. *)
Record Invocation := mkInvocation {
  inv_callback : nat;
  inv_success : bool;
  inv_message : option string
}.

(** The fields of [SamsungTvClient] that [connect] touches, the queues of
    the main looper ([mainHandler]), and a record of what was observed:
    callbacks invoked, events emitted, [removeCallbacks] calls, timers that
    fired, reader threads started.  Callbacks and runnables are named by
    numbers. *)
Record Client := mkClient {
  prefs : gmap string string;
  isConnecting : bool;
  pendingConnectionCallback : option nat;
  connectionTimeoutRunnable : option nat;
  rawWebSocket : option Z;
  delayed : list nat;
  posted : list Task;
  invoked : list Invocation;
  events : list Event;
  removed : list nat;
  fired : list nat;
  readers : nat;
  nextRunnable : nat
}.

Definition newClient (p : gmap string string) : Client :=
  mkClient p false None None None [] [] [] [] [] [] 0 0.

Definition setPrefs (p : gmap string string) (c : Client) : Client :=
  mkClient p (isConnecting c) (pendingConnectionCallback c) (connectionTimeoutRunnable c)
           (rawWebSocket c) (delayed c) (posted c) (invoked c) (events c) (removed c)
           (fired c) (readers c) (nextRunnable c).

Definition setIsConnecting (b : bool) (c : Client) : Client :=
  mkClient (prefs c) b (pendingConnectionCallback c) (connectionTimeoutRunnable c)
           (rawWebSocket c) (delayed c) (posted c) (invoked c) (events c) (removed c)
           (fired c) (readers c) (nextRunnable c).

Definition setPending (p : option nat) (c : Client) : Client :=
  mkClient (prefs c) (isConnecting c) p (connectionTimeoutRunnable c)
           (rawWebSocket c) (delayed c) (posted c) (invoked c) (events c) (removed c)
           (fired c) (readers c) (nextRunnable c).

Definition setRunnable (r : option nat) (c : Client) : Client :=
  mkClient (prefs c) (isConnecting c) (pendingConnectionCallback c) r
           (rawWebSocket c) (delayed c) (posted c) (invoked c) (events c) (removed c)
           (fired c) (readers c) (nextRunnable c).

Definition setRawWebSocket (w : option Z) (c : Client) : Client :=
  mkClient (prefs c) (isConnecting c) (pendingConnectionCallback c) (connectionTimeoutRunnable c)
           w (delayed c) (posted c) (invoked c) (events c) (removed c)
           (fired c) (readers c) (nextRunnable c).

Definition setDelayed (d : list nat) (c : Client) : Client :=
  mkClient (prefs c) (isConnecting c) (pendingConnectionCallback c) (connectionTimeoutRunnable c)
           (rawWebSocket c) d (posted c) (invoked c) (events c) (removed c)
           (fired c) (readers c) (nextRunnable c).

Definition setPosted (q : list Task) (c : Client) : Client :=
  mkClient (prefs c) (isConnecting c) (pendingConnectionCallback c) (connectionTimeoutRunnable c)
           (rawWebSocket c) (delayed c) q (invoked c) (events c) (removed c)
           (fired c) (readers c) (nextRunnable c).

(** [cb(success, message)]. *)
Definition invoke (cb : nat) (success : bool) (message : option string) (c : Client) : Client :=
  mkClient (prefs c) (isConnecting c) (pendingConnectionCallback c) (connectionTimeoutRunnable c)
           (rawWebSocket c) (delayed c) (posted c)
           (invoked c ++ [mkInvocation cb success message]) (events c) (removed c)
           (fired c) (readers c) (nextRunnable c).

(** [onEvent(name, map)]. *)
Definition onEvent (e : Event) (c : Client) : Client :=
  mkClient (prefs c) (isConnecting c) (pendingConnectionCallback c) (connectionTimeoutRunnable c)
           (rawWebSocket c) (delayed c) (posted c) (invoked c) (events c ++ [e]) (removed c)
           (fired c) (readers c) (nextRunnable c).

(** [mainHandler.removeCallbacks(r)]: every pending post of [r] leaves the
    queue; nothing happens when there is none. *)
Definition removeCallbacks (r : nat) (c : Client) : Client :=
  mkClient (prefs c) (isConnecting c) (pendingConnectionCallback c) (connectionTimeoutRunnable c)
           (rawWebSocket c) (List.filter (fun x => negb (x =? r)%nat) (delayed c)) (posted c)
           (invoked c) (events c) (removed c ++ [r])
           (fired c) (readers c) (nextRunnable c).

Definition markFired (r : nat) (c : Client) : Client :=
  mkClient (prefs c) (isConnecting c) (pendingConnectionCallback c) (connectionTimeoutRunnable c)
           (rawWebSocket c) (delayed c) (posted c) (invoked c) (events c) (removed c)
           (fired c ++ [r]) (readers c) (nextRunnable c).

(** [startRawMessageReader(socket, ip)] as the calling thread sees it:
    one more reader thread is running.  What that thread does, up to its
    [finally] block, is [Threads.readerStep]. *)
Definition startRawMessageReader (c : Client) : Client :=
  mkClient (prefs c) (isConnecting c) (pendingConnectionCallback c) (connectionTimeoutRunnable c)
           (rawWebSocket c) (delayed c) (posted c) (invoked c) (events c) (removed c)
           (fired c) (S (readers c)) (nextRunnable c).

Definition freshRunnable (c : Client) : Client :=
  mkClient (prefs c) (isConnecting c) (pendingConnectionCallback c) (connectionTimeoutRunnable c)
           (rawWebSocket c) (delayed c) (posted c) (invoked c) (events c) (removed c)
           (fired c) (readers c) (S (nextRunnable c)).

(** [connectionTimeoutRunnable?.let { mainHandler.removeCallbacks(it) };
    connectionTimeoutRunnable = null]. *)
Definition cancelWatchdog (c : Client) : Client :=
  match connectionTimeoutRunnable c with
  | Some r => setRunnable None (removeCallbacks r c)
  | None => setRunnable None c
  end.

Definition timeoutMessage : string := "Connection timed out. TV did not respond.".

(** The body of the watchdog runnable created by [connect]. *)
Definition timeoutRunnable (c : Client) : Client :=
  match pendingConnectionCallback c with
  | Some cb =>
    invoke cb false (Some timeoutMessage)
      (onEvent (EvError timeoutMessage)
         (setIsConnecting false (setPending None c)))
  | None => c
  end.

(** [disconnect()]: the raw socket, if any, is closed and forgotten. *)
Definition disconnect (c : Client) : Client := setRawWebSocket None c.

(** The part of [connect(ip, callback)] that runs on the caller's thread.
    The result is the handshake path handed to the connection thread, or
    [None] when the call was turned away. *)
Definition connect (ip : string) (cb : nat) (c : Client) : option string * Client :=
  if isConnecting c then
    (None, invoke cb false (Some "Already connecting") c)
  else
    let c1 := disconnect (setIsConnecting true c) in
    let path := connectPath (getToken ip (prefs c1)) in
    let r := nextRunnable c1 in
    let c2 := setRunnable (Some r) (setPending (Some cb) c1) in
    (Some path, freshRunnable (setDelayed (delayed c2 ++ [r]) c2)).

(** What the network does to one call of [connectRawWebSocket]: an
    exception before the first frame is read (connect, TLS, write, or a
    status line without 101), the result of [readWebSocketFrame] for the
    first message, or a read that never returns. *)
Inductive Attempt :=
| Throws (message : option string)
| FirstMessage (firstMsg : option string)
| Stalls.

(** [String(payload, UTF_8)] for the bytes of an ASCII text. *)
Definition textOfBytes (bytes : list Z) : string :=
  string_of_list_ascii (map (fun b => ascii_of_nat (Z.to_nat (Z.land b 255))) bytes).

(** The attempt a handshake ends in when [wire] is what the television
    sends after its response headers: the first message is what
    [readWebSocketFrame] returns. *)
Definition attemptOfWire (wire : list Z) : Attempt :=
  match fst (FrameCodec.readWebSocketFrame (FrameCodec.incoming wire)) with
  | FrameCodec.Returned text => FirstMessage (option_map textOfBytes text)
  | FrameCodec.Diverges => Stalls
  end.

(** An unmasked text frame of at most 125 bytes, as a server sends it. *)
Definition serverTextFrame (text : string) : list Z :=
  KotlinInt.toByte 129 :: Z.of_nat (String.length text)
    :: map (fun c => KotlinInt.toByte (Z.of_nat (nat_of_ascii c))) (list_ascii_of_string text).

Inductive Outcome :=
| Completed
| Threw (message : option string)
| Hung.

Definition deniedMessage : string :=
  "TV denied the connection. Please try again — check the TV screen for an Allow/Deny prompt. If no prompt appears, go to TV Settings > General > External Device Manager and remove blocked devices.".

(** The test of the success branch. *)
Definition isChannelConnect (firstMsg : string) : bool :=
  contains firstMsg "ms.channel.connect" || contains firstMsg "ms.channel.ready".

Definition isChannelUnauthorized (firstMsg : string) : bool :=
  contains firstMsg "ms.channel.unauthorized".

(** [tokenMatch?.groupValues?.get(1)?.let { token -> if (token.isNotBlank())
    tokenRepository.saveToken(ip, token) }]. *)
Definition saveTokenFrom (ip firstMsg : string) (c : Client) : Client :=
  match findToken firstMsg with
  | Some token =>
    if isBlank token then c else setPrefs (saveToken ip token (prefs c)) c
  | None => c
  end.

(** [pendingConnectionCallback?.let { cb -> pendingConnectionCallback = null;
    mainHandler.post { ... cb(...) } }]. *)
Definition postToPending (task : nat -> Task) (c : Client) : Client :=
  match pendingConnectionCallback c with
  | Some cb => setPosted (posted c ++ [task cb]) (setPending None c)
  | None => c
  end.

(** [connectRawWebSocket(ip, port, path, useSsl, callback)], from the
    point of view of the client state. *)
Definition connectRawWebSocket (ip : string) (port : Z) (a : Attempt) (c : Client)
  : Outcome * Client :=
  match a with
  | Throws message => (Threw message, c)
  | Stalls => (Hung, setRawWebSocket (Some port) c)
  | FirstMessage None =>
    (Threw (Some "No response from TV"), setRawWebSocket None c)
  | FirstMessage (Some firstMsg) =>
    let c0 := setRawWebSocket (Some port) c in
    if isChannelConnect firstMsg then
      let c1 := cancelWatchdog c0 in
      let c2 := saveTokenFrom ip firstMsg c1 in
      let c3 := setPrefs (setLastConnectedIp ip (prefs c2)) c2 in
      let c4 := setIsConnecting false c3 in
      let c5 := postToPending (NotifyConnected ip) c4 in
      (Completed, startRawMessageReader c5)
    else if isChannelUnauthorized firstMsg then
      let c1 := setRawWebSocket None c0 in
      let c2 := setPrefs (clearToken ip (prefs c1)) c1 in
      let c3 := cancelWatchdog c2 in
      let c4 := setIsConnecting false c3 in
      let c5 := postToPending (NotifyError deniedMessage) c4 in
      (Threw (Some deniedMessage), c5)
    else (Completed, c0)
  end.

(** The innermost [catch] of the connection thread: both ports failed;
    [message] is the message of the first exception. *)
Definition giveUp (message : option string) (c : Client) : Client :=
  let c1 := setIsConnecting false (cancelWatchdog c) in
  match pendingConnectionCallback c1 with
  | Some cb =>
    let text := match message with Some m => m | None => "Connection failed" end in
    invoke cb false (Some text) (onEvent (EvError text) (setPending None c1))
  | None => c1
  end.

(** Where a connection thread stands: before the attempt on the secure
    port, before the attempt on the plain port (the first exception in
    hand), before the final [catch] block, finished, or blocked for
    ever. *)
Inductive Pc :=
| AtWss
| AtWs (first : option string)
| AtGiveUp (first : option string)
| Finished
| Blocked.

Record ConnThread := mkConnThread {
  thread_ip : string;
  thread_path : string;
  thread_pc : Pc
}.

(** One step of a connection thread when each attempt and the final
    [catch] block run without interruption by another thread.  The same
    code statement by statement, with the threads interleaved, is in
    [Threads]. *)
Definition threadStep (a : Attempt) (t : ConnThread) (c : Client) : ConnThread * Client :=
  let at_ pc := mkConnThread (thread_ip t) (thread_path t) pc in
  match thread_pc t with
  | AtWss =>
    match connectRawWebSocket (thread_ip t) REMOTE_PORT_WSS a c with
    | (Completed, c') => (at_ Finished, c')
    | (Threw e, c') => (at_ (AtWs e), c')
    | (Hung, c') => (at_ Blocked, c')
    end
  | AtWs e =>
    match connectRawWebSocket (thread_ip t) REMOTE_PORT_WS a c with
    | (Completed, c') => (at_ Finished, c')
    | (Threw _, c') => (at_ (AtGiveUp e), c')
    | (Hung, c') => (at_ Blocked, c')
    end
  | AtGiveUp e => (at_ Finished, giveUp e c)
  | Finished => (t, c)
  | Blocked => (t, c)
  end.

(** [mainHandler.post] blocks, run by the main looper. *)
Definition runTask (t : Task) (c : Client) : Client :=
  match t with
  | NotifyConnected ip cb => invoke cb true None (onEvent (EvConnected ip) c)
  | NotifyError message cb => invoke cb false (Some message) (onEvent (EvError message) c)
  end.

(** The client with its connection threads.  Callbacks are numbered in
    the order of the [connect] calls that receive them. *)
Record System := mkSystem {
  client : Client;
  threads : list ConnThread;
  nextCallback : nat
}.

(** What can happen next: a call of [connect] or of [disconnect], a step
    of a connection thread under some behaviour of the network, the oldest
    watchdog still queued coming due, the main looper running its oldest
    posted block. *)
Inductive Tick :=
| Connect (ip : string)
| Disconnect
| Thread (i : nat) (a : Attempt)
| Timer
| Looper.

Definition step (s : System) (t : Tick) : System :=
  match t with
  | Connect ip =>
    match connect ip (nextCallback s) (client s) with
    | (Some path, c') =>
      mkSystem c' (threads s ++ [mkConnThread ip path AtWss]) (S (nextCallback s))
    | (None, c') => mkSystem c' (threads s) (S (nextCallback s))
    end
  | Disconnect => mkSystem (disconnect (client s)) (threads s) (nextCallback s)
  | Thread i a =>
    match threads s !! i with
    | Some t =>
      let '(t', c') := threadStep a t (client s) in
      mkSystem c' (<[i := t']> (threads s)) (nextCallback s)
    | None => s
    end
  | Timer =>
    match delayed (client s) with
    | r :: rest =>
      mkSystem (timeoutRunnable (markFired r (setDelayed rest (client s))))
               (threads s) (nextCallback s)
    | [] => s
    end
  | Looper =>
    match posted (client s) with
    | t :: rest => mkSystem (runTask t (setPosted rest (client s))) (threads s) (nextCallback s)
    | [] => s
    end
  end.

Definition run (ticks : list Tick) (s : System) : System := fold_left step ticks s.

Definition newSystem (p : gmap string string) : System := mkSystem (newClient p) [] 0.

(** The callback a posted block will invoke. *)
Definition taskCallback (t : Task) : nat :=
  match t with
  | NotifyConnected _ cb => cb
  | NotifyError _ cb => cb
  end.

(** First messages used in the examples. *)
Definition connectMessage : string :=
  "{" ++ String quote ("event" ++ String quote (":" ++ String quote
    ("ms.channel.connect" ++ String quote ("," ++ String quote ("token" ++ String quote
    (":" ++ String quote ("12345678" ++ String quote "}"))))))).

Definition unauthorizedMessage : string :=
  "{" ++ String quote ("event" ++ String quote (":" ++ String quote
    ("ms.channel.unauthorized" ++ String quote "}"))).

Definition inQuotes (s : string) : string := String quote (s ++ String quote EmptyString).

(** A refusal whose text mentions a word of the success test, without
    and with a token field. *)
Definition deniedWithMarker : string :=
  "{" ++ inQuotes "event" ++ ":" ++ inQuotes "ms.channel.unauthorized" ++ ","
    ++ inQuotes "data" ++ ":{" ++ inQuotes "message" ++ ":"
    ++ inQuotes "ms.channel.connect refused" ++ "}}".

Definition deniedWithToken : string :=
  "{" ++ inQuotes "event" ++ ":" ++ inQuotes "ms.channel.unauthorized" ++ ","
    ++ inQuotes "data" ++ ":{" ++ inQuotes "message" ++ ":"
    ++ inQuotes "ms.channel.ready" ++ "," ++ inQuotes "token" ++ ":"
    ++ inQuotes "evil" ++ "}}".

(** States used in the examples. *)
Definition tvIp : string := "10.0.0.5".

Definition pairedClient : Client := newClient (saveToken tvIp "abc" ∅).

Definition afterConnect : System := step (newSystem ∅) (Connect tvIp).

(** The paired client after an attempt whose first message is one of the
    two refusals above. *)
Definition afterDeniedWithMarker : Client :=
  snd (connectRawWebSocket tvIp REMOTE_PORT_WSS (FirstMessage (Some deniedWithMarker))
         pairedClient).

Definition afterDeniedWithToken : Client :=
  snd (connectRawWebSocket tvIp REMOTE_PORT_WSS (FirstMessage (Some deniedWithToken))
         pairedClient).

End Session.

(** ** Frames as the television writes them *)

Module Peer.
Import KotlinInt FrameCodec.

(** [k] bytes of [n], most significant first. *)
Fixpoint bigEndian (k : nat) (n : Z) : list Z :=
  match k with
  | O => []
  | S k' => toByte (Z.shiftr n (8 * Z.of_nat k')) :: bigEndian k' n
  end.

(** The length field of an unmasked frame for a payload of [n] bytes:
    the length itself up to 125, the marker 126 and two bytes up to 65535,
    the marker 127 and eight bytes beyond. *)
Definition lengthField (n : Z) : list Z :=
  if n <=? 125 then [n]
  else if n <=? 65535 then 126 :: bigEndian 2 n
  else 127 :: bigEndian 8 n.

(** An unmasked frame: first byte (FIN bit, opcode), length field,
    payload. *)
Definition frame (byte1 : Z) (payload : list Z) : list Z :=
  byte1 :: lengthField (Z.of_nat (length payload)) ++ payload.


(** First bytes used in the examples: FIN with text, close, ping, pong. *)
Definition textByte : Z := toByte 129.
Definition closeByte : Z := toByte 136.
Definition pingByte : Z := toByte 137.
Definition pongByte : Z := toByte 138.

End Peer.

(** ** SamsungTvClient.kt: the commands sent over the open socket *)

Module Remote.
Import KotlinInt FrameCodec Str.
Local Open Scope string_scope.

(** The [OutputStream] of the socket: the bytes written to it so far,
    and whether a write to it throws an IOException. *)
Record OutputStream := mkOutputStream {
  written : list Z;
  broken : bool
}.

(** [text.toByteArray(Charsets.UTF_8)], the text held as its UTF-8
    bytes. *)
Definition toByteArray (text : string) : ByteArray :=
  map (fun c => toByte (Z.of_nat (nat_of_ascii c))) (list_ascii_of_string text).

(** [s] between double quotes. *)
Definition quoted (s : string) : string := String quote (s ++ String quote EmptyString).

(** The raw string literal of [sendKey] with [$key] filled in. *)
Definition keyPayload (key : string) : string :=
  "{" ++ quoted "method" ++ ":" ++ quoted "ms.remote.control" ++ ","
    ++ quoted "params" ++ ":{" ++ quoted "Cmd" ++ ":" ++ quoted "Click" ++ ","
    ++ quoted "DataOfCmd" ++ ":" ++ quoted key ++ ","
    ++ quoted "Option" ++ ":" ++ quoted "false" ++ ","
    ++ quoted "TypeOfRemote" ++ ":" ++ quoted "SendRemoteKey" ++ "}}".

(** The raw string literal of [launchApp] with [$appId] filled in. *)
Definition launchPayload (appId : string) : string :=
  "{" ++ quoted "method" ++ ":" ++ quoted "ms.channel.emit" ++ ","
    ++ quoted "params" ++ ":{" ++ quoted "event" ++ ":" ++ quoted "ed.apps.launch" ++ ","
    ++ quoted "to" ++ ":" ++ quoted "host" ++ ","
    ++ quoted "data" ++ ":{" ++ quoted "action_type" ++ ":" ++ quoted "DEEP_LINK" ++ ","
    ++ quoted "appId" ++ ":" ++ quoted appId ++ ","
    ++ quoted "metaTag" ++ ":" ++ quoted EmptyString ++ "}}}".

(** [output.write(frame.array(), 0, frame.limit())]: [None] is the
    IOException. *)
Definition write (output : OutputStream) (bytes : list Z) : option OutputStream :=
  if broken output then None
  else Some (mkOutputStream (written output ++ bytes) false).

(** [sendKey(key)] on the field [rawOutputStream]; [maskKey] is what
    SecureRandom gives.  The result and the stream afterwards. *)
Definition sendKey (rawOutputStream : option OutputStream) (maskKey : ByteArray)
           (key : string) : bool * option OutputStream :=
  match rawOutputStream with
  | None => (false, None)
  | Some output =>
    match write output (encodeFrame maskKey (toByteArray (keyPayload key))) with
    | Some output' => (true, Some output')
    | None => (false, Some output)
    end
  end.

(** [launchApp(appId)]. *)
Definition launchApp (rawOutputStream : option OutputStream) (maskKey : ByteArray)
           (appId : string) : bool * option OutputStream :=
  match rawOutputStream with
  | None => (false, None)
  | Some output =>
    match write output (encodeFrame maskKey (toByteArray (launchPayload appId))) with
    | Some output' => (true, Some output')
    | None => (false, Some output)
    end
  end.

(** What the stream gained since it was [before]. *)
Definition sentSince (before : OutputStream) (after : option OutputStream) : list Z :=
  match after with
  | Some o => skipn (length (written before)) (written o)
  | None => []
  end.

(** The text a decoder gets from the bytes [wire]. *)
Definition receivedText (wire : list Z) : option string :=
  match fst (readWebSocketFrame (incoming wire)) with
  | Returned (Some payload) => Some (Session.textOfBytes payload)
  | _ => None
  end.

(** A stream with nothing written yet. *)
Definition freshStream : OutputStream := mkOutputStream [] false.

End Remote.

(** ** [readWebSocketFrame] on a virtual machine with bounded memory *)

Module FrameReader.
Import KotlinInt FrameCodec.

(** The socket with its surroundings: the bytes waiting on the input
    stream, the output stream (which may be broken, see [Remote.write]),
    the sizes of the byte arrays the virtual machine granted so far,
    [heap], the size of the largest allocation it grants during the call,
    and [textSize], the size of what [String(payload, UTF_8)] allocates
    for a payload (the decoding itself is library code).  The short
    strings of the log calls are taken to be granted. *)
Record Socket := mkSocket {
  input : list Z;
  outputStream : Remote.OutputStream;
  allocated : list Z;
  heap : Z;
  textSize : ByteArray -> Z
}.

(** What [ByteArray(n)] does. *)
Inductive Allocation :=
| Array (cells : ByteArray)
| NegativeArraySizeException
| OutOfMemoryError.

(** [ByteArray(n)]: [n] zero bytes when the virtual machine can grant
    them.  [NegativeArraySizeException] is an [Exception];
    [OutOfMemoryError] is an [Error]. *)
Definition newByteArray (heap n : Z) : Allocation :=
  if n <? 0 then NegativeArraySizeException
  else if heap <? n then OutOfMemoryError
  else Array (repeat 0 (Z.to_nat n)).

(** The errors of the virtual machine that can end a call: an
    [OutOfMemoryError] from [ByteArray(size)] or from the [String]
    constructor, and a [StackOverflowError].  None of them is an
    [Exception]. *)
Inductive VmError :=
| ArrayRefused (size : Z)
| StringRefused
| StackOverflowError.

(** How a call of [readWebSocketFrame] ends: it returns a [String?]
    (the text is held as the bytes it is decoded from); or an error of
    the virtual machine, which [catch (e: Exception)] lets through,
    leaves the call; or the payload loop spins. *)
Inductive ReadResult :=
| Returned (text : option ByteArray)
| Thrown (e : VmError)
| Diverges.

(** [String(payload, Charsets.UTF_8)] as the value returned. *)
Definition newString (s : Socket) (payload : ByteArray) : ReadResult :=
  if heap s <? textSize s payload then Thrown StringRefused else Returned (Some payload).

(** [socket.getOutputStream().write(pongFrame); flush()] inside
    [try { ... } catch (_: Exception) {}]: a failed write is dropped. *)
Definition writePong (out : Remote.OutputStream) : Remote.OutputStream :=
  match Remote.write out pongFrame with
  | Some out' => out'
  | None => out
  end.

(** [readWebSocketFrame(socket)], called when the stack of the thread has
    room for [stack] nested calls of it.  Every [Exception] is caught and
    turned into [null]; an error of the virtual machine is not.  After a
    ping or a pong frame the function calls itself, inside its [try]
    block, so that one level of the stack is taken per control frame. *)
Fixpoint readWebSocketFrame (stack : nat) (s : Socket) : ReadResult * Socket :=
  match stack with
  | O => (Thrown StackOverflowError, s)
  | S stack' =>
    match readHeader (input s) with
    | None =>
      (Returned None, mkSocket [] (outputStream s) (allocated s) (heap s) (textSize s))
    | Some h =>
      if masked h && (heap s <? 4)
      then (Thrown (ArrayRefused 4),
            mkSocket (afterLength h) (outputStream s) (allocated s) (heap s) (textSize s))
      else
      let '(maskKey, i4, al) :=
        if masked h
        then let '(k, r) := readMaskKey (afterLength h) in
             (Some k, r, allocated s ++ [4])
        else (None, afterLength h, allocated s) in
      let size := toInt (payloadLength h) in
      match newByteArray (heap s) size with
      | NegativeArraySizeException =>
        (Returned None, mkSocket i4 (outputStream s) al (heap s) (textSize s))
      | OutOfMemoryError =>
        (Thrown (ArrayRefused size), mkSocket i4 (outputStream s) al (heap s) (textSize s))
      | Array buffer =>
        let al' := al ++ [size] in
        match readLoop (S (length i4)) (payloadLength h) buffer 0 i4 with
        | LoopThrew =>
          (Returned None, mkSocket i4 (outputStream s) al' (heap s) (textSize s))
        | LoopSpins => (Diverges, mkSocket i4 (outputStream s) al' (heap s) (textSize s))
        | LoopDone payload i5 =>
          let payload' :=
            match maskKey with
            | Some k => xorMask k 0 payload
            | None => payload
            end in
          let s' := mkSocket i5 (outputStream s) al' (heap s) (textSize s) in
          if opcode h =? 1 then (newString s payload', s')
          else if opcode h =? 2 then (newString s payload', s')
          else if opcode h =? 8 then (Returned None, s')
          else if opcode h =? 9 then
            if heap s <? 2 then (Thrown (ArrayRefused 2), s')
            else readWebSocketFrame stack'
                   (mkSocket i5 (writePong (outputStream s)) (al' ++ [2]) (heap s)
                             (textSize s))
          else if opcode h =? 10 then readWebSocketFrame stack' s'
          else (newString s payload', s')
        end
      end
    end
  end.

(** The same socket without the heap, as [FrameCodec] has it. *)
Definition plain (s : Socket) : FrameCodec.Socket :=
  FrameCodec.mkSocket (input s) (Remote.written (outputStream s)) (allocated s).

Definition plainResult (r : ReadResult) : FrameCodec.ReadResult :=
  match r with
  | Returned text => FrameCodec.Returned text
  | Thrown _ => FrameCodec.Diverges
  | Diverges => FrameCodec.Diverges
  end.

(** The call ended in an error of the virtual machine. *)
Definition failed (r : ReadResult) : bool :=
  match r with
  | Thrown _ => true
  | _ => false
  end.

(** The call asked the virtual machine for an array of [n] bytes: it was
    granted, or refused with an [OutOfMemoryError]. *)
Definition asksFor (n : Z) (r : ReadResult * Socket) : Prop :=
  In n (allocated (snd r)) \/ fst r = Thrown (ArrayRefused n).

(** The decoder enforces [maxLen]: a frame declaring more never makes it
    ask for a buffer of the declared size. *)
Definition boundsPayloadLength (maxLen : Z) : Prop :=
  forall (wire : list Z) (out : Remote.OutputStream) (heap : Z)
         (textSize : ByteArray -> Z) (stack : nat) (h : Header),
    readHeader wire = Some h -> maxLen < payloadLength h ->
    ~ asksFor (payloadLength h)
        (readWebSocketFrame (S stack) (mkSocket wire out [] heap textSize)).

(** A heap that grants allocations of up to 512 MiB, and a stack with
    room for 512 nested calls. *)
Definition phoneHeap : Z := 536870912.

Definition phoneStack : nat := Z.to_nat 512.

(** The size of a [String] that holds one byte for each byte of the
    payload, as for a text of ASCII characters. *)
Definition asciiSize (payload : ByteArray) : Z := Z.of_nat (length payload).

(** An unmasked text frame whose 64-bit length field declares 268435456
    bytes (256 MiB) and whose payload never arrives. *)
Definition largeFrame : list Z := [toByte 129; 127; 0; 0; 0; 0; 16; 0; 0; 0].

(** [n] ping frames without payload. *)
Definition pings (n : nat) : list Z := concat (repeat [toByte 137; 0] n).

End FrameReader.

(** ** SamsungTvClient.kt: the threads of [connect], statement by statement *)

Module Threads.
Import Str TokenRepository.
Local Open Scope string_scope.

(** [connect] is called on one thread, opens the socket on a thread of
    its own, and leaves the watchdog and the notifications to the main
    looper; [startRawMessageReader] adds a reader thread.  None of the
    fields they share is guarded by a lock.  Here every thread advances
    by one statement at a time, each statement reads or writes at most
    one shared field, and a run interleaves the threads in any order.
    A write is seen by every thread from the next statement on: the
    runs are the sequentially consistent executions, which are among
    those the Java memory model allows.  Lines are named after the line
    numbers of SamsungTvClient.kt.  Callbacks, runnables and sockets are
    named by numbers. *)

(** The fields of [SamsungTvClient]. *)
Record Fields := mkFields {
  isConnecting : bool;
  pendingConnectionCallback : option nat;
  connectionTimeoutRunnable : option nat;
  rawWebSocket : option nat;
  rawOutputStream : option nat
}.

(** A block handed to [mainHandler.post]: one of the two notifications
    of [connectRawWebSocket], or the one of the reader's [finally]. *)
Inductive Block :=
| Notify (task : Session.Task)
| NotifyDisconnected.

(** What one statement does to the state the threads share. *)
Inductive Effect :=
| Skip
| SetIsConnecting (b : bool)
| SetPendingConnectionCallback (cb : option nat)
| SetConnectionTimeoutRunnable (r : option nat)
| NewRunnable                         (* connectionTimeoutRunnable = Runnable { ... } *)
| SetRawWebSocket (socket : option nat)
| SetRawOutputStream (socket : option nat)
| SaveToken (ip token : string)
| ClearToken (ip : string)
| SetLastConnectedIp (ip : string)
| PostDelayed (r : nat)
| RemoveCallbacks (r : nat)
| Post (b : Block)
| OnEvent (e : Session.Event)
| Invoke (cb : nat) (success : bool) (message : option string)
| NewSocket                           (* Socket() *)
| Close (socket : nat)
| StartThread (ip path : string)
| StartReader (socket : nat).

(** *** The thread that calls [connect] or [disconnect] *)

Inductive CallerLine :=
| C294        (* if (isConnecting.getAndSet(true)) *)
| C295        (* callback(false, "Already connecting"); return *)
| C691        (* val sock = rawWebSocket *)
| C692        (* rawWebSocket = null *)
| C693        (* rawOutputStream = null *)
| C695        (* sock.close() *)
| C303        (* val storedToken = tokenRepository.getToken(ip); val path = ... *)
| C314        (* pendingConnectionCallback = callback *)
| C315        (* connectionTimeoutRunnable = Runnable { ... } *)
| C326        (* connectionTimeoutRunnable!! *)
| C326p       (* mainHandler.postDelayed(..., 15000) *)
| C330        (* Thread { ... }.start() *)
| CallerTurnedAway   (* returned at line 296 *)
| CallerReturned     (* returned at the end of [connect] or of [disconnect] *)
| CallerThrew.       (* NullPointerException of [!!] *)

(** A call in progress: whether it is [connect(ip, callback)] or a bare
    [disconnect()], its arguments, its line and its local variables.
    The field [webSocket] of the OkHttp client is never assigned, so that
    lines 699 to 704 of [disconnect] do nothing. *)
Record Caller := mkCaller {
  c_connect : bool;
  c_ip : string;
  c_callback : nat;
  c_line : CallerLine;
  c_sock : option nat;
  c_path : string;
  c_runnable : nat
}.

(** *** The connection thread *)

Inductive Line :=
| L369        (* Socket(), connect, TLS, upgrade request, response headers *)
| L428        (* rawWebSocket = socket *)
| L429        (* rawOutputStream = output *)
| L432        (* val firstMsg = readWebSocketFrame(socket); the three branches *)
| L436        (* socket.close() *)
| L437        (* rawWebSocket = null *)
| L438        (* rawOutputStream = null *)
| L439        (* throw Exception("No response from TV") *)
| L444        (* connectionTimeoutRunnable?.let *)
| L444c       (* mainHandler.removeCallbacks(it) *)
| L445        (* connectionTimeoutRunnable = null *)
| L449        (* tokenMatch ... tokenRepository.saveToken(ip, token) *)
| L451        (* tokenRepository.setLastConnectedIp(ip) *)
| L452        (* isConnecting.set(false) *)
| L454        (* pendingConnectionCallback?.let { cb -> *)
| L455        (* pendingConnectionCallback = null *)
| L456        (* mainHandler.post { onEvent("connected"); cb(true, null) } *)
| L465        (* startRawMessageReader(socket, ip) *)
| L468        (* socket.close() *)
| L469        (* rawWebSocket = null *)
| L470        (* rawOutputStream = null *)
| L471        (* tokenRepository.clearToken(ip) *)
| L472        (* connectionTimeoutRunnable?.let *)
| L472c       (* mainHandler.removeCallbacks(it) *)
| L473        (* connectionTimeoutRunnable = null *)
| L474        (* isConnecting.set(false) *)
| L477        (* pendingConnectionCallback?.let { cb -> *)
| L478        (* pendingConnectionCallback = null *)
| L479        (* mainHandler.post { onEvent("error"); cb(false, errorMsg) } *)
| L486        (* throw Exception(errorMsg) *)
| L339        (* connectionTimeoutRunnable?.let *)
| L339c       (* mainHandler.removeCallbacks(it) *)
| L340        (* connectionTimeoutRunnable = null *)
| L341        (* isConnecting.set(false) *)
| L342        (* pendingConnectionCallback?.let { cb -> *)
| L343        (* pendingConnectionCallback = null *)
| L346        (* onEvent("error", map) *)
| L347        (* cb(false, e.message ?: "Connection failed") *)
| Finished
| Blocked.    (* in a read that never returns, or ended by an error of the
                 virtual machine, which neither [catch] block catches *)

(** The thread [connect] starts: its captured [ip] and [path], whether
    it is in the secure attempt, the message of the exception that ended
    the secure attempt, what the network does to the attempt under way,
    and the locals [socket], [firstMsg], [it] and [cb]. *)
Record ConnThread := mkConnThread {
  t_ip : string;
  t_path : string;
  t_useSsl : bool;
  t_e : option string;
  t_attempt : Session.Attempt;
  t_socket : nat;
  t_firstMsg : string;
  t_it : nat;
  t_cb : nat;
  t_line : Line
}.

(** *** The reader thread *)

Inductive ReaderLine :=
| R627        (* socket.soTimeout = 0; while (!socket.isClosed) *)
| R628        (* val msg = readWebSocketFrame(socket); if (msg == null) break *)
| R638        (* rawWebSocket = null *)
| R639        (* rawOutputStream = null *)
| R640        (* mainHandler.post { onEvent("disconnected") } *)
| ReaderFinished.

Record Reader := mkReader {
  r_socket : nat;
  r_line : ReaderLine
}.

(** *** The main looper *)

(** Idle, or inside the watchdog runnable (lines 316 to 323, with its
    local [cb]), or inside a posted block. *)
Inductive Looper :=
| Idle
| W316                          (* pendingConnectionCallback?.let { cb -> *)
| W317 (cb : nat)               (* pendingConnectionCallback = null *)
| W318 (cb : nat)               (* isConnecting.set(false) *)
| W322 (cb : nat)               (* onEvent("error", map) *)
| W323 (cb : nat)               (* cb(false, "Connection timed out. ...") *)
| BlockEvent (task : Session.Task)      (* onEvent(...) of a notification *)
| BlockCallback (task : Session.Task)   (* cb(...) of a notification *)
| BlockDisconnected.                    (* onEvent("disconnected") *)

(** *** The whole client *)

(** The fields, the preferences file, the two queues of the main looper
    (watchdogs waiting for their delay, posted blocks), the threads, the
    sockets closed so far, and a record of what was observed: callbacks
    invoked, events emitted, [removeCallbacks] calls, watchdogs that
    fired. *)
Record Machine := mkMachine {
  fields : Fields;
  prefs : gmap string string;
  delayed : list nat;
  posted : list Block;
  looper : Looper;
  callers : list Caller;
  threads : list ConnThread;
  readers : list Reader;
  closed : list nat;
  invoked : list Session.Invocation;
  events : list Session.Event;
  removed : list nat;
  fired : list nat;
  nextRunnable : nat;
  nextSocket : nat
}.

Definition withFields (x : Fields) (m : Machine) : Machine :=
  mkMachine x (prefs m) (delayed m) (posted m) (looper m) (callers m) (threads m)
            (readers m) (closed m) (invoked m) (events m) (removed m) (fired m)
            (nextRunnable m) (nextSocket m).

Definition withPrefs (x : gmap string string) (m : Machine) : Machine :=
  mkMachine (fields m) x (delayed m) (posted m) (looper m) (callers m) (threads m)
            (readers m) (closed m) (invoked m) (events m) (removed m) (fired m)
            (nextRunnable m) (nextSocket m).

Definition withDelayed (x : list nat) (m : Machine) : Machine :=
  mkMachine (fields m) (prefs m) x (posted m) (looper m) (callers m) (threads m)
            (readers m) (closed m) (invoked m) (events m) (removed m) (fired m)
            (nextRunnable m) (nextSocket m).

Definition withPosted (x : list Block) (m : Machine) : Machine :=
  mkMachine (fields m) (prefs m) (delayed m) x (looper m) (callers m) (threads m)
            (readers m) (closed m) (invoked m) (events m) (removed m) (fired m)
            (nextRunnable m) (nextSocket m).

Definition withLooper (x : Looper) (m : Machine) : Machine :=
  mkMachine (fields m) (prefs m) (delayed m) (posted m) x (callers m) (threads m)
            (readers m) (closed m) (invoked m) (events m) (removed m) (fired m)
            (nextRunnable m) (nextSocket m).

Definition withCallers (x : list Caller) (m : Machine) : Machine :=
  mkMachine (fields m) (prefs m) (delayed m) (posted m) (looper m) x (threads m)
            (readers m) (closed m) (invoked m) (events m) (removed m) (fired m)
            (nextRunnable m) (nextSocket m).

Definition withThreads (x : list ConnThread) (m : Machine) : Machine :=
  mkMachine (fields m) (prefs m) (delayed m) (posted m) (looper m) (callers m) x
            (readers m) (closed m) (invoked m) (events m) (removed m) (fired m)
            (nextRunnable m) (nextSocket m).

Definition withReaders (x : list Reader) (m : Machine) : Machine :=
  mkMachine (fields m) (prefs m) (delayed m) (posted m) (looper m) (callers m) (threads
            m) x (closed m) (invoked m) (events m) (removed m) (fired m) (nextRunnable
            m) (nextSocket m).

Definition withClosed (x : list nat) (m : Machine) : Machine :=
  mkMachine (fields m) (prefs m) (delayed m) (posted m) (looper m) (callers m) (threads
            m) (readers m) x (invoked m) (events m) (removed m) (fired m) (nextRunnable
            m) (nextSocket m).

Definition withInvoked (x : list Session.Invocation) (m : Machine) : Machine :=
  mkMachine (fields m) (prefs m) (delayed m) (posted m) (looper m) (callers m) (threads
            m) (readers m) (closed m) x (events m) (removed m) (fired m) (nextRunnable
            m) (nextSocket m).

Definition withEvents (x : list Session.Event) (m : Machine) : Machine :=
  mkMachine (fields m) (prefs m) (delayed m) (posted m) (looper m) (callers m) (threads
            m) (readers m) (closed m) (invoked m) x (removed m) (fired m) (nextRunnable
            m) (nextSocket m).

Definition withRemoved (x : list nat) (m : Machine) : Machine :=
  mkMachine (fields m) (prefs m) (delayed m) (posted m) (looper m) (callers m) (threads
            m) (readers m) (closed m) (invoked m) (events m) x (fired m) (nextRunnable
            m) (nextSocket m).

Definition withFired (x : list nat) (m : Machine) : Machine :=
  mkMachine (fields m) (prefs m) (delayed m) (posted m) (looper m) (callers m) (threads
            m) (readers m) (closed m) (invoked m) (events m) (removed m) x (nextRunnable
            m) (nextSocket m).

Definition withNextRunnable (x : nat) (m : Machine) : Machine :=
  mkMachine (fields m) (prefs m) (delayed m) (posted m) (looper m) (callers m) (threads
            m) (readers m) (closed m) (invoked m) (events m) (removed m) (fired m) x
            (nextSocket m).

Definition withNextSocket (x : nat) (m : Machine) : Machine :=
  mkMachine (fields m) (prefs m) (delayed m) (posted m) (looper m) (callers m) (threads
            m) (readers m) (closed m) (invoked m) (events m) (removed m) (fired m)
            (nextRunnable m) x.

Definition setIsConnecting (b : bool) (f : Fields) : Fields :=
  mkFields b (pendingConnectionCallback f) (connectionTimeoutRunnable f)
           (rawWebSocket f) (rawOutputStream f).

Definition setPendingConnectionCallback (cb : option nat) (f : Fields) : Fields :=
  mkFields (isConnecting f) cb (connectionTimeoutRunnable f)
           (rawWebSocket f) (rawOutputStream f).

Definition setConnectionTimeoutRunnable (r : option nat) (f : Fields) : Fields :=
  mkFields (isConnecting f) (pendingConnectionCallback f) r
           (rawWebSocket f) (rawOutputStream f).

Definition setRawWebSocket (s : option nat) (f : Fields) : Fields :=
  mkFields (isConnecting f) (pendingConnectionCallback f) (connectionTimeoutRunnable f)
           s (rawOutputStream f).

Definition setRawOutputStream (s : option nat) (f : Fields) : Fields :=
  mkFields (isConnecting f) (pendingConnectionCallback f) (connectionTimeoutRunnable f)
           (rawWebSocket f) s.

Definition newThread (ip path : string) : ConnThread :=
  mkConnThread ip path true None Session.Stalls 0 EmptyString 0 0 L369.

(** The effect of a statement on the shared state.
    [mainHandler.removeCallbacks(r)] takes every pending post of [r] off
    the queue and does nothing when there is none. *)
Definition perform (e : Effect) (m : Machine) : Machine :=
  match e with
  | Skip => m
  | SetIsConnecting b => withFields (setIsConnecting b (fields m)) m
  | SetPendingConnectionCallback cb =>
    withFields (setPendingConnectionCallback cb (fields m)) m
  | SetConnectionTimeoutRunnable r =>
    withFields (setConnectionTimeoutRunnable r (fields m)) m
  | NewRunnable =>
    withNextRunnable (S (nextRunnable m))
      (withFields (setConnectionTimeoutRunnable (Some (nextRunnable m)) (fields m)) m)
  | SetRawWebSocket s => withFields (setRawWebSocket s (fields m)) m
  | SetRawOutputStream s => withFields (setRawOutputStream s (fields m)) m
  | SaveToken ip token => withPrefs (saveToken ip token (prefs m)) m
  | ClearToken ip => withPrefs (clearToken ip (prefs m)) m
  | SetLastConnectedIp ip => withPrefs (setLastConnectedIp ip (prefs m)) m
  | PostDelayed r => withDelayed (delayed m ++ [r]) m
  | RemoveCallbacks r =>
    withRemoved (removed m ++ [r])
      (withDelayed (List.filter (fun x => negb (x =? r)%nat) (delayed m)) m)
  | Post b => withPosted (posted m ++ [b]) m
  | OnEvent ev => withEvents (events m ++ [ev]) m
  | Invoke cb success message =>
    withInvoked (invoked m ++ [Session.mkInvocation cb success message]) m
  | NewSocket => withNextSocket (S (nextSocket m)) m
  | Close s => withClosed (closed m ++ [s]) m
  | StartThread ip path => withThreads (threads m ++ [newThread ip path]) m
  | StartReader s => withReaders (readers m ++ [mkReader s R627]) m
  end.

(** *** One statement of a caller *)

Definition callerAt (l : CallerLine) (c : Caller) : Caller :=
  mkCaller (c_connect c) (c_ip c) (c_callback c) l (c_sock c) (c_path c) (c_runnable c).

Definition callerStep (m : Machine) (c : Caller) : Caller * Effect :=
  match c_line c with
  | C294 =>
    (callerAt (if isConnecting (fields m) then C295 else C691) c, SetIsConnecting true)
  | C295 =>
    (callerAt CallerTurnedAway c, Invoke (c_callback c) false (Some "Already connecting"))
  | C691 =>
    (mkCaller (c_connect c) (c_ip c) (c_callback c) C692 (rawWebSocket (fields m))
              (c_path c) (c_runnable c), Skip)
  | C692 => (callerAt C693 c, SetRawWebSocket None)
  | C693 => (callerAt C695 c, SetRawOutputStream None)
  | C695 =>
    (callerAt (if c_connect c then C303 else CallerReturned) c,
     match c_sock c with Some s => Close s | None => Skip end)
  | C303 =>
    (mkCaller (c_connect c) (c_ip c) (c_callback c) C314 (c_sock c)
              (Session.connectPath (getToken (c_ip c) (prefs m))) (c_runnable c), Skip)
  | C314 => (callerAt C315 c, SetPendingConnectionCallback (Some (c_callback c)))
  | C315 => (callerAt C326 c, NewRunnable)
  | C326 =>
    match connectionTimeoutRunnable (fields m) with
    | Some r =>
      (mkCaller (c_connect c) (c_ip c) (c_callback c) C326p (c_sock c) (c_path c) r, Skip)
    | None => (callerAt CallerThrew c, Skip)
    end
  | C326p => (callerAt C330 c, PostDelayed (c_runnable c))
  | C330 => (callerAt CallerReturned c, StartThread (c_ip c) (c_path c))
  | CallerTurnedAway => (c, Skip)
  | CallerReturned => (c, Skip)
  | CallerThrew => (c, Skip)
  end.

(** *** One statement of a connection thread *)

Definition at_ (l : Line) (t : ConnThread) : ConnThread :=
  mkConnThread (t_ip t) (t_path t) (t_useSsl t) (t_e t) (t_attempt t) (t_socket t)
               (t_firstMsg t) (t_it t) (t_cb t) l.

(** An exception leaves [connectRawWebSocket]: the secure attempt is
    followed by the plain one (line 336), the plain one by the last
    [catch] block (line 339), where [e] is still the first exception. *)
Definition raise (message : option string) (t : ConnThread) : ConnThread :=
  if t_useSsl t
  then mkConnThread (t_ip t) (t_path t) false message (t_attempt t) (t_socket t)
                    (t_firstMsg t) (t_it t) (t_cb t) L369
  else at_ L339 t.

(** [connectionTimeoutRunnable?.let { ... }]: the field is read into
    [it]. *)
Definition readRunnable (m : Machine) (some none : Line) (t : ConnThread) : ConnThread :=
  match connectionTimeoutRunnable (fields m) with
  | Some r =>
    mkConnThread (t_ip t) (t_path t) (t_useSsl t) (t_e t) (t_attempt t) (t_socket t)
                 (t_firstMsg t) r (t_cb t) some
  | None => at_ none t
  end.

(** [pendingConnectionCallback?.let { cb -> ... }]: the field is read
    into [cb]. *)
Definition readPending (m : Machine) (some none : Line) (t : ConnThread) : ConnThread :=
  match pendingConnectionCallback (fields m) with
  | Some cb =>
    mkConnThread (t_ip t) (t_path t) (t_useSsl t) (t_e t) (t_attempt t) (t_socket t)
                 (t_firstMsg t) (t_it t) cb some
  | None => at_ none t
  end.

(** [e.message ?: "Connection failed"]. *)
Definition failureText (e : option string) : string :=
  match e with
  | Some text => text
  | None => "Connection failed"
  end.

(** The statement at the thread's line.  [a] is what the network does to
    an attempt that starts now; it is consulted at line 369 only, where
    an attempt that throws never becomes the attempt under way. *)
Definition threadStep (a : Session.Attempt) (m : Machine) (t : ConnThread)
  : ConnThread * Effect :=
  match t_line t with
  | L369 =>
    match a with
    | Session.Throws message => (raise message t, Skip)
    | _ =>
      (mkConnThread (t_ip t) (t_path t) (t_useSsl t) (t_e t) a (nextSocket m)
                    (t_firstMsg t) (t_it t) (t_cb t) L428, NewSocket)
    end
  | L428 => (at_ L429 t, SetRawWebSocket (Some (t_socket t)))
  | L429 => (at_ L432 t, SetRawOutputStream (Some (t_socket t)))
  | L432 =>
    match t_attempt t with
    | Session.FirstMessage (Some firstMsg) =>
      (mkConnThread (t_ip t) (t_path t) (t_useSsl t) (t_e t) (t_attempt t) (t_socket t)
                    firstMsg (t_it t) (t_cb t)
                    (if Session.isChannelConnect firstMsg then L444
                     else if Session.isChannelUnauthorized firstMsg then L468
                     else Finished), Skip)
    | Session.FirstMessage None => (at_ L436 t, Skip)
    | Session.Stalls => (at_ Blocked t, Skip)
    | Session.Throws _ => (at_ Blocked t, Skip)
    end
  | L436 => (at_ L437 t, Close (t_socket t))
  | L437 => (at_ L438 t, SetRawWebSocket None)
  | L438 => (at_ L439 t, SetRawOutputStream None)
  | L439 => (raise (Some "No response from TV") t, Skip)
  | L444 => (readRunnable m L444c L445 t, Skip)
  | L444c => (at_ L445 t, RemoveCallbacks (t_it t))
  | L445 => (at_ L449 t, SetConnectionTimeoutRunnable None)
  | L449 =>
    (at_ L451 t,
     match Session.findToken (t_firstMsg t) with
     | Some token => if isBlank token then Skip else SaveToken (t_ip t) token
     | None => Skip
     end)
  | L451 => (at_ L452 t, SetLastConnectedIp (t_ip t))
  | L452 => (at_ L454 t, SetIsConnecting false)
  | L454 => (readPending m L455 L465 t, Skip)
  | L455 => (at_ L456 t, SetPendingConnectionCallback None)
  | L456 => (at_ L465 t, Post (Notify (Session.NotifyConnected (t_ip t) (t_cb t))))
  | L465 => (at_ Finished t, StartReader (t_socket t))
  | L468 => (at_ L469 t, Close (t_socket t))
  | L469 => (at_ L470 t, SetRawWebSocket None)
  | L470 => (at_ L471 t, SetRawOutputStream None)
  | L471 => (at_ L472 t, ClearToken (t_ip t))
  | L472 => (readRunnable m L472c L473 t, Skip)
  | L472c => (at_ L473 t, RemoveCallbacks (t_it t))
  | L473 => (at_ L474 t, SetConnectionTimeoutRunnable None)
  | L474 => (at_ L477 t, SetIsConnecting false)
  | L477 => (readPending m L478 L486 t, Skip)
  | L478 => (at_ L479 t, SetPendingConnectionCallback None)
  | L479 =>
    (at_ L486 t, Post (Notify (Session.NotifyError Session.deniedMessage (t_cb t))))
  | L486 => (raise (Some Session.deniedMessage) t, Skip)
  | L339 => (readRunnable m L339c L340 t, Skip)
  | L339c => (at_ L340 t, RemoveCallbacks (t_it t))
  | L340 => (at_ L341 t, SetConnectionTimeoutRunnable None)
  | L341 => (at_ L342 t, SetIsConnecting false)
  | L342 => (readPending m L343 Finished t, Skip)
  | L343 => (at_ L346 t, SetPendingConnectionCallback None)
  | L346 => (at_ L347 t, OnEvent (Session.EvError (failureText (t_e t))))
  | L347 => (at_ Finished t, Invoke (t_cb t) false (Some (failureText (t_e t))))
  | Finished => (t, Skip)
  | Blocked => (t, Skip)
  end.

(** *** One statement of a reader thread *)

Definition isClosed (socket : nat) (m : Machine) : bool :=
  existsb (Nat.eqb socket) (closed m).

(** [more] says whether the read at line 628 gives a message; on a
    closed socket it cannot.  Setting the timeout of a closed socket
    throws, and the loop is not entered on one: either way the thread
    comes to its [finally] block, as it does when the read gives null or
    ends in an error of the virtual machine. *)
Definition readerStep (more : bool) (m : Machine) (r : Reader) : Reader * Effect :=
  match r_line r with
  | R627 => (mkReader (r_socket r) (if isClosed (r_socket r) m then R638 else R628), Skip)
  | R628 =>
    (mkReader (r_socket r) (if more && negb (isClosed (r_socket r) m) then R627 else R638),
     Skip)
  | R638 => (mkReader (r_socket r) R639, SetRawWebSocket None)
  | R639 => (mkReader (r_socket r) R640, SetRawOutputStream None)
  | R640 => (mkReader (r_socket r) ReaderFinished, Post NotifyDisconnected)
  | ReaderFinished => (r, Skip)
  end.

(** *** One statement of the main looper *)

Definition taskEvent (task : Session.Task) : Session.Event :=
  match task with
  | Session.NotifyConnected ip _ => Session.EvConnected ip
  | Session.NotifyError message _ => Session.EvError message
  end.

Definition taskInvoke (task : Session.Task) : Effect :=
  match task with
  | Session.NotifyConnected _ cb => Invoke cb true None
  | Session.NotifyError message cb => Invoke cb false (Some message)
  end.

Definition looperStep (m : Machine) (l : Looper) : Looper * Effect :=
  match l with
  | Idle => (Idle, Skip)
  | W316 =>
    match pendingConnectionCallback (fields m) with
    | Some cb => (W317 cb, Skip)
    | None => (Idle, Skip)
    end
  | W317 cb => (W318 cb, SetPendingConnectionCallback None)
  | W318 cb => (W322 cb, SetIsConnecting false)
  | W322 cb => (W323 cb, OnEvent (Session.EvError Session.timeoutMessage))
  | W323 cb => (Idle, Invoke cb false (Some Session.timeoutMessage))
  | BlockEvent task => (BlockCallback task, OnEvent (taskEvent task))
  | BlockCallback task => (Idle, taskInvoke task)
  | BlockDisconnected => (Idle, OnEvent Session.EvDisconnected)
  end.

(** *** Runs *)

(** What can happen next: a call of [connect(ip, callback)] or of
    [disconnect()] begins; a caller, a connection thread or a reader
    runs its next statement; the idle looper takes the oldest watchdog,
    whose delay is over, or the oldest posted block; the looper runs the
    next statement of what it took. *)
Inductive Tick :=
| Call (ip : string)
| CallDisconnect
| Caller_ (i : nat)
| Thread (i : nat) (a : Session.Attempt)
| Reader_ (i : nat) (more : bool)
| Timer
| Looper_
| Main.

(** Callbacks are numbered by the position of their call. *)
Definition step (m : Machine) (t : Tick) : Machine :=
  match t with
  | Call ip =>
    withCallers (callers m ++ [mkCaller true ip (length (callers m)) C294 None
                                        EmptyString 0]) m
  | CallDisconnect =>
    withCallers (callers m ++ [mkCaller false EmptyString (length (callers m)) C691 None
                                        EmptyString 0]) m
  | Caller_ i =>
    match callers m !! i with
    | Some c =>
      let '(c', e) := callerStep m c in perform e (withCallers (<[i := c']> (callers m)) m)
    | None => m
    end
  | Thread i a =>
    match threads m !! i with
    | Some th =>
      let '(th', e) := threadStep a m th in
      perform e (withThreads (<[i := th']> (threads m)) m)
    | None => m
    end
  | Reader_ i more =>
    match readers m !! i with
    | Some r =>
      let '(r', e) := readerStep more m r in
      perform e (withReaders (<[i := r']> (readers m)) m)
    | None => m
    end
  | Timer =>
    match looper m, delayed m with
    | Idle, r :: rest => withLooper W316 (withFired (fired m ++ [r]) (withDelayed rest m))
    | _, _ => m
    end
  | Looper_ =>
    match looper m, posted m with
    | Idle, Notify task :: rest => withLooper (BlockEvent task) (withPosted rest m)
    | Idle, NotifyDisconnected :: rest => withLooper BlockDisconnected (withPosted rest m)
    | _, _ => m
    end
  | Main =>
    let '(l', e) := looperStep m (looper m) in perform e (withLooper l' m)
  end.

Definition run (ticks : list Tick) (m : Machine) : Machine := fold_left step ticks m.

Definition newMachine (p : gmap string string) : Machine :=
  mkMachine (mkFields false None None None None) p [] [] Idle [] [] [] [] [] [] [] [] 0 0.

End Threads.

(** ** Runs of the threads, and what holds along them *)

Module Races.
Import Str TokenRepository Threads.
Local Open Scope string_scope.

(** How often callback [cb] has been invoked. *)
Definition invocations (cb : nat) (m : Machine) : nat :=
  length (List.filter (fun i => (Session.inv_callback i =? cb)%nat) (invoked m)).

(** *** Where a callback is held *)

(** The call will still hand its callback to the client. *)
Definition callerHolds (cb : nat) (c : Caller) : bool :=
  (c_callback c =? cb)%nat
  && match c_line c with
     | C294 | C295 | C691 | C692 | C693 | C695 | C303 | C314 => true
     | _ => false
     end.

(** The thread has the callback in its local [cb] and will use it. *)
Definition threadHolds (cb : nat) (t : ConnThread) : bool :=
  (t_cb t =? cb)%nat
  && match t_line t with
     | L455 | L456 | L478 | L479 | L343 | L346 | L347 => true
     | _ => false
     end.

Definition looperHolds (cb : nat) (l : Looper) : bool :=
  match l with
  | W317 c | W318 c | W322 c | W323 c => (c =? cb)%nat
  | BlockEvent task | BlockCallback task => (Session.taskCallback task =? cb)%nat
  | _ => false
  end.

Definition blockHolds (cb : nat) (b : Block) : bool :=
  match b with
  | Notify task => (Session.taskCallback task =? cb)%nat
  | NotifyDisconnected => false
  end.

Definition pendingIs (cb : nat) (m : Machine) : bool :=
  match pendingConnectionCallback (fields m) with
  | Some c => (c =? cb)%nat
  | None => false
  end.

(** Callback [cb] can still be invoked: it is in the field, in a call
    that has not handed it over yet, in a local of a thread or of the
    looper, in a posted block, or it belongs to a call still to come. *)
Definition held (cb : nat) (m : Machine) : bool :=
  pendingIs cb m
  || existsb (callerHolds cb) (callers m)
  || existsb (threadHolds cb) (threads m)
  || looperHolds cb (looper m)
  || existsb (blockHolds cb) (posted m)
  || (length (callers m) <=? cb)%nat.

(** *** A client that stays busy *)

(** The call cannot come to line 314. *)
Definition callerHarmless (c : Caller) : bool :=
  match c_line c with
  | C294 | C295 | CallerTurnedAway | CallerReturned | CallerThrew => true
  | C691 | C692 | C693 | C695 => negb (c_connect c)
  | _ => false
  end.

Definition threadOver (t : ConnThread) : bool :=
  match t_line t with
  | Finished | Blocked => true
  | _ => false
  end.

Definition looperHarmless (l : Looper) : bool :=
  match l with
  | Idle | W316 | BlockDisconnected => true
  | _ => false
  end.

Definition blockQuiet (b : Block) : bool :=
  match b with
  | NotifyDisconnected => true
  | Notify _ => false
  end.

(** [isConnecting] is set, no callback is pending, every connection
    thread is over, and neither a call in progress nor the looper can
    change that. *)
Definition stuck (m : Machine) : bool :=
  isConnecting (fields m)
  && negb (bool_decide (is_Some (pendingConnectionCallback (fields m))))
  && forallb callerHarmless (callers m)
  && forallb threadOver (threads m)
  && looperHarmless (looper m)
  && forallb blockQuiet (posted m).

(** The invocation of a call that was turned away. *)
Definition turnedAway (i : Session.Invocation) : bool :=
  negb (Session.inv_success i)
  && bool_decide (Session.inv_message i = Some "Already connecting").

(** Nothing is left to run: the looper is idle with empty queues, every
    call has returned, every connection thread is over. *)
Definition settled (m : Machine) : bool :=
  match looper m, delayed m, posted m with
  | Idle, [], [] =>
    forallb (fun c => match c_line c with
                      | CallerTurnedAway | CallerReturned => true
                      | _ => false
                      end) (callers m)
    && forallb threadOver (threads m)
  | _, _, _ => false
  end.

(** *** Runs *)

(** The eleven statements of an accepted [connect] on the caller's
    thread, lines 294 to 330. *)
Definition acceptedCall (i : nat) : list Tick := repeat (Caller_ i) 11.

Definition accepts : Session.Attempt := Session.FirstMessage (Some Session.connectMessage).

Definition otherIp : string := "10.0.0.6".

(** The watchdog comes due while the television's answer is being
    handled: the looper reads the pending callback at line 316, the
    connection thread reads it at line 454 before the looper clears it at
    line 317, and both go on to use it. *)
Definition runInvokedTwice : list Tick :=
  ([Call Session.tvIp] ++ acceptedCall 0
   ++ repeat (Thread 0 accepts) 4            (* 369 428 429 432 *)
   ++ [Timer; Main]                          (* 316 *)
   ++ repeat (Thread 0 accepts) 10           (* 444 ... 454 455 456 465 *)
   ++ repeat Main 4                          (* 317 318 322 323 *)
   ++ [Looper_; Main; Main])%list.           (* 457 458 *)

Definition invokedTwice : Machine := run runInvokedTwice (newMachine ∅).

(** The first attempt succeeds; between its lines 452 and 454 a second
    [connect] is accepted and overwrites the pending callback at line
    314.  The first thread then hands the second callback to the looper;
    the second attempt fails on both ports and finds no callback. *)
Definition runOverwritten : list Tick :=
  ([Call Session.tvIp] ++ acceptedCall 0
   ++ repeat (Thread 0 accepts) 10           (* 369 ... 451 452 *)
   ++ [Call otherIp] ++ acceptedCall 1)%list.

Definition runNeverInvoked : list Tick :=
  (runOverwritten
   ++ repeat (Thread 0 accepts) 4            (* 454 455 456 465 *)
   ++ [Looper_; Main; Main]                  (* 457 458 *)
   ++ repeat (Thread 1 (Session.Throws (Some "refused"))) 7   (* 369 369 339 ... 342 *)
   ++ repeat (Reader_ 0 true) 4 ++ [Looper_; Main])%list.     (* 627 638 639 640 *)

(** The first attempt after its line 452. *)
Definition unlatched : Machine :=
  run ([Call Session.tvIp] ++ acceptedCall 0 ++ repeat (Thread 0 accepts) 10)%list
      (newMachine ∅).

Definition overwritten : Machine := run runOverwritten (newMachine ∅).

Definition neverInvoked : Machine := run runNeverInvoked (newMachine ∅).

(** As before, but the second attempt gets a first message that is
    neither an acceptance nor a refusal, so that it is left to the
    watchdog, which finds no callback when it comes due. *)
Definition runStuck : list Tick :=
  (runOverwritten
   ++ repeat (Thread 0 accepts) 4
   ++ [Looper_; Main; Main]
   ++ repeat (Thread 1 (Session.FirstMessage (Some "{}"))) 4  (* 369 428 429 432 *)
   ++ [Timer; Main]                                           (* 316 *)
   ++ repeat (Reader_ 0 true) 4 ++ [Looper_; Main])%list.     (* 627 638 639 640 *)

Definition stuckClient : Machine := run runStuck (newMachine ∅).

(** *** Events and callbacks counted *)

Definition isError (message : string) (e : Session.Event) : bool :=
  match e with
  | Session.EvError text => bool_decide (text = message)
  | _ => false
  end.

Definition isConnected (e : Session.Event) : bool :=
  match e with
  | Session.EvConnected _ => true
  | _ => false
  end.

Definition isFailure (message : string) (i : Session.Invocation) : bool :=
  negb (Session.inv_success i) && bool_decide (Session.inv_message i = Some message).

(** Error events with [message], connected events, failure callbacks
    with [message], success callbacks, and calls turned away, so far. *)
Definition errorEvents (message : string) (m : Machine) : nat :=
  length (List.filter (isError message) (events m)).

Definition connectedEvents (m : Machine) : nat :=
  length (List.filter isConnected (events m)).

Definition failures (message : string) (m : Machine) : nat :=
  length (List.filter (isFailure message) (invoked m)).

Definition successes (m : Machine) : nat :=
  length (List.filter Session.inv_success (invoked m)).

Definition turnedAwayCalls (m : Machine) : nat :=
  length (List.filter (fun c => match c_line c with
                                | CallerTurnedAway => true
                                | _ => false
                                end) (callers m)).

(** The thread has emitted the error event with [message] and is about
    to call the callback (line 347). *)
Definition threadOwes (message : string) (t : ConnThread) : bool :=
  match t_line t with
  | L347 => bool_decide (failureText (t_e t) = message)
  | _ => false
  end.

(** The looper has emitted the error event with [message] and is about
    to call the callback (line 323, or the second statement of a posted
    block). *)
Definition looperOwes (message : string) (l : Looper) : nat :=
  match l with
  | W323 _ => if bool_decide (Session.timeoutMessage = message) then 1 else 0
  | BlockCallback (Session.NotifyError text _) =>
    if bool_decide (text = message) then 1 else 0
  | _ => 0
  end.

Definition looperOwesSuccess (l : Looper) : nat :=
  match l with
  | BlockCallback (Session.NotifyConnected _ _) => 1
  | _ => 0
  end.

(** Callbacks with [message] that are due: their event was emitted, the
    call comes next on the same thread. *)
Definition owed (message : string) (m : Machine) : nat :=
  (length (List.filter (threadOwes message) (threads m)) + looperOwes message (looper m))%nat.

(** No thread is between an event and its callback. *)
Definition complete (m : Machine) : bool :=
  forallb (fun t => match t_line t with L347 => false | _ => true end) (threads m)
  && match looper m with
     | W323 _ | BlockCallback _ => false
     | _ => true
     end.

(** The balance of events and callbacks in [m]. *)
Definition Balanced (m : Machine) : Prop :=
  (forall message,
     failures message m + owed message m
     = errorEvents message m
       + if bool_decide (message = "Already connecting") then turnedAwayCalls m else 0)%nat
  /\ (successes m + looperOwesSuccess (looper m) = connectedEvents m)%nat.

End Races.

(** ** The subnet fallback scans *)

Module Subnet.
Import Str.
Local Open Scope string_scope.

(** [split(".")] of Kotlin and JavaScript: the pieces between the dots,
    empty pieces included. *)
Fixpoint splitDots (s : string) : list string :=
  match s with
  | EmptyString => [EmptyString]
  | String c rest =>
    if Ascii.eqb c "." then EmptyString :: splitDots rest
    else match splitDots rest with
         | piece :: pieces => String c piece :: pieces
         | [] => [String c EmptyString]
         end
  end.

Fixpoint joinDots (pieces : list string) : string :=
  match pieces with
  | [] => EmptyString
  | [piece] => piece
  | piece :: rest => piece ++ "." ++ joinDots rest
  end.

(** Decimal rendering of an integer, as in a string template. *)
Definition intToString (z : Z) : string :=
  DecimalString.NilZero.string_of_int (Z.to_int z).

Definition digitValue (c : ascii) : option Z :=
  let n := nat_of_ascii c in
  if ((48 <=? n) && (n <=? 57))%nat then Some (Z.of_nat n - 48)%Z else None.

(** The digits of [s] read from the left, or [None] when one of its
    characters is not a digit. *)
Fixpoint readDigits (acc : Z) (s : string) : option Z :=
  match s with
  | EmptyString => Some acc
  | String c rest =>
    match digitValue c with
    | Some d => readDigits (acc * 10 + d)%Z rest
    | None => None
    end
  end.

(** Kotlin's [String.toIntOrNull()]: an optional sign, then digits only,
    and a value an [Int] can hold. *)
Definition toIntOrNull (s : string) : option Z :=
  match s with
  | EmptyString => None
  | String c rest =>
    if (nat_of_ascii c <? 48)%nat then
      match rest with
      | EmptyString => None
      | _ =>
        if Ascii.eqb c "-" then
          match readDigits 0 rest with
          | Some n => if (n <=? 2147483648)%Z then Some (- n)%Z else None
          | None => None
          end
        else if Ascii.eqb c "+" then
          match readDigits 0 rest with
          | Some n => if (n <=? 2147483647)%Z then Some n else None
          | None => None
          end
        else None
      end
    else
      match readDigits 0 s with
      | Some n => if (n <=? 2147483647)%Z then Some n else None
      | None => None
      end
  end.

(** The longest run of digits at the start of [s], read as a number;
    [None] when [s] does not start with a digit. *)
Fixpoint leadingDigits (acc : option Z) (s : string) : option Z :=
  match s with
  | EmptyString => acc
  | String c rest =>
    match digitValue c with
    | Some d =>
      leadingDigits (Some (match acc with Some a => (a * 10 + d)%Z | None => d end)) rest
    | None => acc
    end
  end.

(** JavaScript's [parseInt(s, 10)]: leading white space is skipped, a sign
    is accepted, the digits that follow are read and the rest ignored.
    [None] stands for NaN.  The result is the exact integer; the rounding
    of a number beyond 2^53 never yields a value as small as the octets
    it is compared with. *)
Definition parseInt (s : string) : option Z :=
  match skipSpaces s with
  | String c rest =>
    if Ascii.eqb c "-" then option_map Z.opp (leadingDigits None rest)
    else if Ascii.eqb c "+" then leadingDigits None rest
    else leadingDigits None (String c rest)
  | EmptyString => None
  end.

(** The integers [lo], [lo + 1], ... ([n] of them): the range of a
    counting loop. *)
Fixpoint range (lo : Z) (n : nat) : list Z :=
  match n with
  | O => []
  | S n' => lo :: range (lo + 1)%Z n'
  end.

(** The addresses [scanSubnetForTvPorts] submits a probe for. *)
Definition probeAddresses (deviceIp : string) : list string :=
  match splitDots deviceIp with
  | [p0; p1; p2; p3] =>
    let subnet := p0 ++ "." ++ p1 ++ "." ++ p2 in
    match toIntOrNull p3 with
    | None => []
    | Some myLastOctet =>
      map (fun i => subnet ++ "." ++ intToString i)
          (List.filter (fun i => negb (i =? myLastOctet)%Z) (range 1 60))
    end
  | _ => []
  end.

(** [sorted()] on strings. *)
Fixpoint insertSorted (x : string) (l : list string) : list string :=
  match l with
  | [] => [x]
  | y :: rest => if String.leb x y then x :: l else y :: insertSorted x rest
  end.

Definition sorted (l : list string) : list string := fold_right insertSorted [] l.

(** [scanSubnetForTvPorts()]: [deviceIp] is what [getDeviceIpAddress()]
    returned, [answered] tells which probes connected to port 8001 before
    the scan was cut off. *)
Definition scanSubnetForTvPorts (deviceIp : option string) (answered : string -> bool)
  : list string :=
  match deviceIp with
  | None => []
  | Some ip => sorted (List.filter answered (probeAddresses ip))
  end.

(** [generateSubnetIps(deviceIp)] of registry.ts. *)
Definition generateSubnetIps (deviceIp : string) : list string :=
  match splitDots deviceIp with
  | [p0; p1; p2; p3] =>
    let subnet := p0 ++ "." ++ p1 ++ "." ++ p2 in
    let myLastOctet := parseInt p3 in
    map (fun i => subnet ++ "." ++ intToString i)
        (List.filter (fun i => match myLastOctet with
                               | Some n => negb (i =? n)%Z
                               | None => true
                               end) (range 1 50))
  | _ => []
  end.

(** Reading back the rendering of [i] gives [i], for both readers. *)
Definition readsBack (i : Z) : bool :=
  match toIntOrNull (intToString i), parseInt (intToString i) with
  | Some a, Some b => (a =? i)%Z && (b =? i)%Z
  | _, _ => false
  end.

End Subnet.

(** ** types.ts: brands, devices, keys *)

Module Types.
Local Open Scope string_scope.

Inductive TvBrand :=
| samsung_tizen | lg_webos | roku | android_tv | vizio | fire_tv | unknown.

Definition brandName (b : TvBrand) : string :=
  match b with
  | samsung_tizen => "samsung_tizen"
  | lg_webos => "lg_webos"
  | roku => "roku"
  | android_tv => "android_tv"
  | vizio => "vizio"
  | fire_tv => "fire_tv"
  | unknown => "unknown"
  end.

Definition brand_eqb (a b : TvBrand) : bool :=
  match a, b with
  | samsung_tizen, samsung_tizen | lg_webos, lg_webos | roku, roku
  | android_tv, android_tv | vizio, vizio | fire_tv, fire_tv
  | unknown, unknown => true
  | _, _ => false
  end.

#[local] Set Warnings "-register-all".

(** A JavaScript value as [JSON.parse] and property access produce it.
    A number is kept as the literal it was written with, together with
    whether JavaScript treats it as true (it is neither 0 nor NaN). *)
Inductive JsValue :=
| JUndefined
| JNull
| JBool (b : bool)
| JNumber (truthy : bool) (literal : string)
| JString (s : string)
| JArray (items : list JsValue)
| JObject (fields : list (string * JsValue)).

(** [TvDevice]; the fields [identify] copies from the response keep
    whatever value the response had. *)
Record TvDevice := mkTvDevice {
  id : JsValue;
  ip : string;
  name : JsValue;
  brand : TvBrand;
  model : JsValue;
  os : JsValue;
  resolution : JsValue;
  mac : JsValue;
  port : option Z;
  metadata : list (string * JsValue)
}.

Inductive ConnectionState := disconnected | connecting | connected | error.

Record ConnectionEvent := mkConnectionEvent {
  state : ConnectionState;
  device : option TvDevice;
  errorText : option string
}.

Inductive StandardRemoteKey :=
| power | source
| up | down | left | right | enter | back
| home | menu | info
| volume_up | volume_down | mute
| channel_up | channel_down
| num_0 | num_1 | num_2 | num_3 | num_4 | num_5 | num_6 | num_7 | num_8 | num_9
| play | pause | stop | rewind | fast_forward.

(** The string a key is at run time. *)
Definition keyName (k : StandardRemoteKey) : string :=
  match k with
  | power => "power" | source => "source"
  | up => "up" | down => "down" | left => "left" | right => "right"
  | enter => "enter" | back => "back"
  | home => "home" | menu => "menu" | info => "info"
  | volume_up => "volume_up" | volume_down => "volume_down" | mute => "mute"
  | channel_up => "channel_up" | channel_down => "channel_down"
  | num_0 => "num_0" | num_1 => "num_1" | num_2 => "num_2" | num_3 => "num_3"
  | num_4 => "num_4" | num_5 => "num_5" | num_6 => "num_6" | num_7 => "num_7"
  | num_8 => "num_8" | num_9 => "num_9"
  | play => "play" | pause => "pause" | stop => "stop" | rewind => "rewind"
  | fast_forward => "fast_forward"
  end.

Definition allStandardKeys : list StandardRemoteKey :=
  [power; source; up; down; left; right; enter; back; home; menu; info;
   volume_up; volume_down; mute; channel_up; channel_down;
   num_0; num_1; num_2; num_3; num_4; num_5; num_6; num_7; num_8; num_9;
   play; pause; stop; rewind; fast_forward].

Inductive RemoteKeyGroup :=
| g_power | g_navigation | g_volume | g_channels | g_numbers | g_media | g_menu.

(** How an awaited call ends. *)
Inductive Promise (A : Type) :=
| Resolved (value : A)
| Rejected (reason : string).
Arguments Resolved {A} value.
Arguments Rejected {A} reason.

(** A [TvHandler] object: its identity, its two read-only fields, and what
    each of its methods answers.  The two optional methods may be
    absent. *)
Record TvHandler := mkTvHandler {
  handlerId : nat;
  handlerBrand : TvBrand;
  displayName : string;
  h_connect : TvDevice -> Promise unit;
  h_disconnect : Promise unit;
  h_isConnected : bool;
  h_sendKey : string -> Promise bool;
  h_sendRawKey : option (string -> Promise bool);
  h_launchApp : option (string -> Promise bool);
  h_getSupportedKeys : list string;
  h_getSupportedKeyGroups : list RemoteKeyGroup;
  h_getLastConnectedIp : Promise (option string)
}.

End Types.

(** ** registry.ts *)

Module Registry.
Import Types.
Local Open Scope string_scope.

(** A call the registry makes on a handler. *)
Inductive HandlerCall :=
| CallConnect (handler : nat) (d : TvDevice)
| CallDisconnect (handler : nat)
| CallSubscribe (handler : nat)
| CallUnsubscribe (handler : nat)
| CallSendKey (handler : nat) (key : string)
| CallSendRawKey (handler : nat) (key : string)
| CallLaunchApp (handler : nat) (appId : string).

(** The fields of [HandlerRegistry].  [activeUnsubscribe] names the handler
    whose event subscription it undoes; listeners are named by numbers. *)
Record HandlerRegistry := mkRegistry {
  handlers : list TvHandler;
  activeHandler : option TvHandler;
  activeDevice : option TvDevice;
  activeUnsubscribe : option nat;
  connectionListeners : list nat
}.

Definition emptyRegistry : HandlerRegistry := mkRegistry [] None None None [].

(** [register(handler)]. *)
Definition register (handler : TvHandler) (r : HandlerRegistry) : HandlerRegistry :=
  if existsb (fun h => brand_eqb (handlerBrand h) (handlerBrand handler)) (handlers r)
  then r
  else mkRegistry (handlers r ++ [handler])%list (activeHandler r) (activeDevice r)
                  (activeUnsubscribe r) (connectionListeners r).

(** [getHandlerByBrand(brand)]. *)
Definition getHandlerByBrand (b : TvBrand) (r : HandlerRegistry) : option TvHandler :=
  find (fun h => brand_eqb (handlerBrand h) b) (handlers r).

(** [getHandler(device)]. *)
Definition getHandler (d : TvDevice) (r : HandlerRegistry) : option TvHandler :=
  find (fun h => brand_eqb (handlerBrand h) (brand d)) (handlers r).

(** [this.activeUnsubscribe?.()]. *)
Definition callUnsubscribe (r : HandlerRegistry) : list HandlerCall :=
  match activeUnsubscribe r with
  | Some h => [CallUnsubscribe h]
  | None => []
  end.

Definition clearActive (r : HandlerRegistry) : HandlerRegistry :=
  mkRegistry (handlers r) None None None (connectionListeners r).

(** [connect(device)]: how the promise ends, the registry afterwards, and
    the calls made on handlers, in order. *)
Definition connect (d : TvDevice) (r : HandlerRegistry)
  : Promise unit * HandlerRegistry * list HandlerCall :=
  match getHandler d r with
  | None => (Rejected ("No handler available for brand: " ++ brandName (brand d)), r, [])
  | Some handler =>
    let '(r1, calls1) :=
      match activeHandler r with
      | Some old =>
        (clearActive r, ([CallDisconnect (handlerId old)] ++ callUnsubscribe r)%list)
      | None => (r, [])
      end in
    let r2 := mkRegistry (handlers r1) (Some handler) (Some d)
                         (Some (handlerId handler)) (connectionListeners r1) in
    let calls2 := (calls1 ++ [CallSubscribe (handlerId handler);
                              CallConnect (handlerId handler) d])%list in
    match h_connect handler d with
    | Resolved _ => (Resolved tt, r2, calls2)
    | Rejected err => (Rejected err, clearActive r2, (calls2 ++ callUnsubscribe r2)%list)
    end
  end.

(** [disconnect()]. *)
Definition disconnect (r : HandlerRegistry)
  : Promise unit * HandlerRegistry * list HandlerCall :=
  match activeHandler r with
  | Some h =>
    (h_disconnect h, clearActive r,
     ([CallDisconnect (handlerId h)] ++ callUnsubscribe r)%list)
  | None => (Resolved tt, r, [])
  end.

(** [isConnected()]. *)
Definition isConnected (r : HandlerRegistry) : bool :=
  match activeHandler r with
  | Some h => h_isConnected h
  | None => false
  end.

(** [sendKey(key)]. *)
Definition sendKey (key : string) (r : HandlerRegistry) : Promise bool * list HandlerCall :=
  match activeHandler r with
  | None => (Resolved false, [])
  | Some h => (h_sendKey h key, [CallSendKey (handlerId h) key])
  end.

(** [sendRawKey(key)]. *)
Definition sendRawKey (key : string) (r : HandlerRegistry) : Promise bool * list HandlerCall :=
  match activeHandler r with
  | None => (Resolved false, [])
  | Some h =>
    match h_sendRawKey h with
    | None => (Resolved false, [])
    | Some method => (method key, [CallSendRawKey (handlerId h) key])
    end
  end.

(** [launchApp(appId)]. *)
Definition launchApp (appId : string) (r : HandlerRegistry)
  : Promise bool * list HandlerCall :=
  match activeHandler r with
  | None => (Resolved false, [])
  | Some h =>
    match h_launchApp h with
    | None => (Resolved false, [])
    | Some method => (method appId, [CallLaunchApp (handlerId h) appId])
    end
  end.

(** [getSupportedKeys()]. *)
Definition getSupportedKeys (r : HandlerRegistry) : list string :=
  match activeHandler r with
  | Some h => h_getSupportedKeys h
  | None => []
  end.

(** A handler for the examples: brand Samsung, every call succeeds, no
    optional method. *)
Definition plainHandler : TvHandler :=
  mkTvHandler 0 samsung_tizen "Samsung Tizen" (fun _ => Resolved tt) (Resolved tt) true
              (fun _ => Resolved true) None None ["power"; "volume_up"] [g_power; g_volume]
              (Resolved None).

Definition rokuDevice : TvDevice :=
  mkTvDevice (JString "test-1") "192.168.1.10" (JString "Test TV") roku
             JUndefined JUndefined JUndefined JUndefined None [].

Definition samsungDevice : TvDevice :=
  mkTvDevice (JString "test-2") "192.168.1.11" (JString "Test Samsung TV") samsung_tizen
             JUndefined JUndefined JUndefined JUndefined None [].

(** The registry after [plainHandler] was registered and a Samsung device
    connected. *)
Definition connectedRegistry : HandlerRegistry :=
  snd (fst (connect samsungDevice (register plainHandler emptyRegistry))).

End Registry.

(** ** registry.ts: events and the last connected address *)

Module RegistryEvents.
Import Types Registry.
Local Open Scope string_scope.

(** The loop of [getLastConnectedIp()] over the handlers: how the promise
    ends, and the handlers that were asked, in order. *)
Fixpoint askLastConnectedIp (hs : list TvHandler) : Promise (option string) * list nat :=
  match hs with
  | [] => (Resolved None, [])
  | h :: rest =>
    match h_getLastConnectedIp h with
    | Rejected reason => (Rejected reason, [handlerId h])
    | Resolved (Some ip) =>
      if (String.length ip =? 0)%nat
      then let '(answer, asked) := askLastConnectedIp rest in (answer, handlerId h :: asked)
      else (Resolved (Some ip), [handlerId h])
    | Resolved None =>
      let '(answer, asked) := askLastConnectedIp rest in (answer, handlerId h :: asked)
    end
  end.

(** [getLastConnectedIp()]. *)
Definition getLastConnectedIp (r : HandlerRegistry) : Promise (option string) * list nat :=
  askLastConnectedIp (handlers r).

(** A handler with no address to offer: it resolves to null or to the
    empty string. *)
Definition offersNothing (h : TvHandler) : Prop :=
  h_getLastConnectedIp h = Resolved None
  \/ h_getLastConnectedIp h = Resolved (Some EmptyString).

(** [connectionListeners.add(listener)]: a set that keeps the order of
    insertion. *)
Definition addListener (listener : nat) (listeners : list nat) : list nat :=
  if existsb (Nat.eqb listener) listeners then listeners else (listeners ++ [listener])%list.

(** [onConnectionStateChange(listener)]. *)
Definition onConnectionStateChange (listener : nat) (r : HandlerRegistry) : HandlerRegistry :=
  mkRegistry (handlers r) (activeHandler r) (activeDevice r) (activeUnsubscribe r)
             (addListener listener (connectionListeners r)).

(** The function [onConnectionStateChange] returns:
    [connectionListeners.delete(listener)]. *)
Definition unsubscribe (listener : nat) (r : HandlerRegistry) : HandlerRegistry :=
  mkRegistry (handlers r) (activeHandler r) (activeDevice r) (activeUnsubscribe r)
             (List.filter (fun l => negb (l =? listener)%nat) (connectionListeners r)).

(** The closure [connect] subscribes to [handler], called with [event]:
    the registry afterwards, the listeners called with the event they
    were given, and the calls made on handlers.  A listener is a black
    box: what it throws is caught, and it is taken not to call back into
    the registry while the event is delivered. *)
Definition forward (handler : nat) (event : ConnectionEvent) (r : HandlerRegistry)
  : HandlerRegistry * list (nat * ConnectionEvent) * list HandlerCall :=
  match activeHandler r with
  | Some active =>
    if (handlerId active =? handler)%nat then
      let notified := map (fun l => (l, event)) (connectionListeners r) in
      match state event with
      | disconnected => (clearActive r, notified, callUnsubscribe r)
      | _ => (r, notified, [])
      end
    else (r, [], [])
  | None => (r, [], [])
  end.

(** The registry after a call. *)
Definition after {A B : Type} (result : A * HandlerRegistry * B) : HandlerRegistry :=
  snd (fst result).

(** A second handler for the examples: brand Roku, identity 1, with an
    address to offer. *)
Definition rokuHandler : TvHandler :=
  mkTvHandler 1 roku "Roku" (fun _ => Resolved tt) (Resolved tt) true
              (fun _ => Resolved true) None None ["power"] [g_power]
              (Resolved (Some "192.168.1.10")).

(** And one that refuses every connection. *)
Definition refusingHandler : TvHandler :=
  mkTvHandler 2 roku "Roku" (fun _ => Rejected "refused") (Resolved tt) false
              (fun _ => Resolved false) None None [] [] (Resolved None).

Definition disconnectedEvent : ConnectionEvent := mkConnectionEvent disconnected None None.

End RegistryEvents.


(** ** registry.ts: discovery *)

Module Discovery.
Import Str Types Registry Subnet.
Local Open Scope string_scope.

(** What [discoverAll] depends on outside the registry: the platform,
    the native module and how its calls end, and what
    [handler.identify(ip)] gives for the handler of a given identity. *)
Record Network := mkNetwork {
  android : bool;
  nativeModule : bool;
  nativeDiscover : Promise (list string);
  hasGetNetworkInfo : bool;
  getNetworkInfo : Promise (option string);
  identify : nat -> string -> Promise (option TvDevice)
}.

(** [getSsdpIps()]. *)
Definition getSsdpIps (n : Network) : list string :=
  if negb (android n) || negb (nativeModule n) then []
  else match nativeDiscover n with
       | Resolved ips => ips
       | Rejected _ => []
       end.

(** Step 2 of [discoverAll]: [info?.ip || null], and null when the call
    is not made or throws. *)
Definition deviceIpOf (n : Network) : option string :=
  if android n && nativeModule n && hasGetNetworkInfo n then
    match getNetworkInfo n with
    | Resolved (Some address) =>
      if (String.length address =? 0)%nat then None else Some address
    | _ => None
    end
  else None.

(** The loop over the handlers for one address: the device of the first
    handler that gives one, and the calls of [identify] made. *)
Fixpoint identifyFirst (n : Network) (hs : list TvHandler) (address : string)
  : option TvDevice * list (nat * string) :=
  match hs with
  | [] => (None, [])
  | h :: rest =>
    match identify n (handlerId h) address with
    | Resolved (Some d) => (Some d, [(handlerId h, address)])
    | _ =>
      let '(found, calls) := identifyFirst n rest address in
      (found, (handlerId h, address) :: calls)
    end
  end.

(** The addresses probed one after the other; the devices found and the
    calls made.  (The source probes them concurrently; the devices and
    the calls are the same, in an order that may differ.) *)
Fixpoint probeAll (n : Network) (hs : list TvHandler) (addresses : list string)
  : list TvDevice * list (nat * string) :=
  match addresses with
  | [] => ([], [])
  | address :: rest =>
    let '(found, calls) := identifyFirst n hs address in
    let '(devices, calls') := probeAll n hs rest in
    (match found with Some d => d :: devices | None => devices end, (calls ++ calls')%list)
  end.

(** [subnetIps.filter((ip) => !rawIps.includes(ip))]. *)
Definition newIps (rawIps subnetIps : list string) : list string :=
  List.filter (fun address => negb (existsb (String.eqb address) rawIps)) subnetIps.

(** Step 3 of [discoverAll]: the devices found on the subnet, and the
    calls of [identify] made. *)
Definition subnetStep (n : Network) (r : HandlerRegistry)
  : list TvDevice * list (nat * string) :=
  match deviceIpOf n with
  | Some deviceIp =>
    if String.eqb deviceIp "Unknown" then ([], [])
    else probeAll n (handlers r) (newIps (getSsdpIps n) (generateSubnetIps deviceIp))
  | None => ([], [])
  end.

(** [discoverAll()]; [sortByName] stands for
    [devices.sort((a, b) => a.name.localeCompare(b.name))], which may
    throw.  The result and the calls of [identify] made. *)
Definition discoverAll (sortByName : list TvDevice -> Promise (list TvDevice))
           (n : Network) (r : HandlerRegistry)
  : Promise (list TvDevice) * list (nat * string) :=
  let rawIps := getSsdpIps n in
  let '(subnetDevices, calls) := subnetStep n r in
  match subnetDevices with
  | _ :: _ => (sortByName subnetDevices, calls)
  | [] =>
    match rawIps with
    | _ :: _ =>
      let '(devices, calls') := probeAll n (handlers r) rawIps in
      match devices with
      | _ :: _ => (sortByName devices, (calls ++ calls')%list)
      | [] => (Resolved [], (calls ++ calls')%list)
      end
    | [] => (Resolved [], calls)
    end
  end.

(** An address [discoverAll] may ask about: one SSDP reported, or one of
    the device's subnet other than the device's own. *)
Definition candidate (n : Network) (address : string) : Prop :=
  In address (getSsdpIps n)
  \/ exists deviceIp, deviceIpOf n = Some deviceIp
                      /\ In address (generateSubnetIps deviceIp) /\ address <> deviceIp.

(** [d] is what the first handler, in the order of registration, that
    recognises [address] gave for it. *)
Definition firstRecognised (n : Network) (r : HandlerRegistry) (address : string)
           (d : TvDevice) : Prop :=
  exists before h rest,
    handlers r = (before ++ h :: rest)%list
    /\ identify n (handlerId h) address = Resolved (Some d)
    /\ Forall (fun b => forall d', identify n (handlerId b) address <> Resolved (Some d'))
              before.

(** A sort is at least a rearrangement. *)
Definition rearranges (sortByName : list TvDevice -> Promise (list TvDevice)) : Prop :=
  forall l l', sortByName l = Resolved l' -> Permutation l' l.

(** A sort by the names as strings of bytes, for the examples. *)
Definition nameLeb (a b : TvDevice) : bool :=
  match name a, name b with
  | JString x, JString y => String.leb x y
  | _, _ => true
  end.

Fixpoint insertByName (d : TvDevice) (l : list TvDevice) : list TvDevice :=
  match l with
  | [] => [d]
  | x :: rest => if nameLeb d x then d :: l else x :: insertByName d rest
  end.

Definition bytewiseSort (l : list TvDevice) : Promise (list TvDevice) :=
  Resolved (fold_right insertByName [] l).

(** A home network: SSDP reports one address beyond the scanned range,
    the phone is at 192.168.1.23, and a Samsung television answers at
    192.168.1.7. *)
Definition homeNetwork : Network :=
  mkNetwork true true (Resolved ["192.168.1.100"]) true (Resolved (Some "192.168.1.23"))
            (fun _ address =>
               if String.eqb address "192.168.1.7" then Resolved (Some samsungDevice)
               else Resolved None).

End Discovery.


(** ** registry.ts: [connect] with the events that arrive while it waits *)

Module RegistryAwait.
Import Types Registry RegistryEvents.
Local Open Scope string_scope.

(** The events [handler] emits, in order, as they reach the registry: an
    event is handed to the closure [connect] subscribed to [handler] as
    long as that subscription has not been undone, that is, as long as
    [activeUnsubscribe] is the function undoing it; an event emitted
    after that has no subscriber in the registry.  The result is the
    registry afterwards, the listeners called, and the calls made on
    handlers. *)
Fixpoint deliver (handler : nat) (emitted : list ConnectionEvent) (r : HandlerRegistry)
  : HandlerRegistry * list (nat * ConnectionEvent) * list HandlerCall :=
  match emitted with
  | [] => (r, [], [])
  | event :: rest =>
    match activeUnsubscribe r with
    | Some subscribed =>
      if (subscribed =? handler)%nat then
        let '(r1, notified1, calls1) := forward handler event r in
        let '(r2, notified2, calls2) := deliver handler rest r1 in
        (r2, (notified1 ++ notified2)%list, (calls1 ++ calls2)%list)
      else deliver handler rest r
    | None => deliver handler rest r
    end
  end.

(** How a call of [connect] ends: the promise, the registry, the
    listeners called while it ran, and the calls made on handlers. *)
Record Settled := mkSettled {
  promise : Promise unit;
  registry : HandlerRegistry;
  notified : list (nat * ConnectionEvent);
  calls : list HandlerCall
}.

(** [connect(device)].  The function waits twice: for the [disconnect] of
    the handler active before, and for the [connect] of the handler it
    chose.  [whileDisconnecting] are the events the former emits during
    the first wait, [whileConnecting] the events the latter emits during
    the second; what either promise settles to is given by the handler.
    No other method of the registry is taken to run during the waits. *)
Definition connect (d : TvDevice) (whileDisconnecting whileConnecting : list ConnectionEvent)
           (r : HandlerRegistry) : Settled :=
  match getHandler d r with
  | None =>
    mkSettled (Rejected ("No handler available for brand: " ++ brandName (brand d))) r [] []
  | Some handler =>
    let '(r1, notified1, calls1) :=
      match activeHandler r with
      | Some old =>
        let '(ra, n, c) := deliver (handlerId old) whileDisconnecting r in
        (clearActive ra, n, ([CallDisconnect (handlerId old)] ++ c ++ callUnsubscribe ra)%list)
      | None => (r, [], [])
      end in
    let r2 := mkRegistry (handlers r1) (Some handler) (Some d)
                         (Some (handlerId handler)) (connectionListeners r1) in
    let calls2 := (calls1 ++ [CallSubscribe (handlerId handler);
                              CallConnect (handlerId handler) d])%list in
    let '(r3, notified3, calls3) := deliver (handlerId handler) whileConnecting r2 in
    match h_connect handler d with
    | Resolved _ =>
      mkSettled (Resolved tt) r3 (notified1 ++ notified3)%list (calls2 ++ calls3)%list
    | Rejected err =>
      mkSettled (Rejected err) (clearActive r3) (notified1 ++ notified3)%list
                (calls2 ++ calls3 ++ callUnsubscribe r3)%list
    end
  end.

(** The listeners of [r], each called with each of [emitted], event by
    event. *)
Definition broadcast (emitted : list ConnectionEvent) (r : HandlerRegistry)
  : list (nat * ConnectionEvent) :=
  flat_map (fun event => map (fun l => (l, event)) (connectionListeners r)) emitted.

(** None of [emitted] says disconnected. *)
Definition staysConnected (emitted : list ConnectionEvent) : Prop :=
  Forall (fun event => state event <> disconnected) emitted.

(** Events for the examples. *)
Definition connectingEvent : ConnectionEvent :=
  mkConnectionEvent connecting (Some samsungDevice) None.

Definition connectedEvent : ConnectionEvent :=
  mkConnectionEvent connected (Some samsungDevice) None.

(** A registry with [plainHandler] and two listeners. *)
Definition listeningRegistry : HandlerRegistry :=
  onConnectionStateChange 8 (onConnectionStateChange 7 (register plainHandler emptyRegistry)).

End RegistryAwait.

(** ** samsung/keys.ts and samsung/SamsungTizenHandler.ts *)

Module Samsung.
Import Str Types.
Local Open Scope string_scope.

(** [SAMSUNG_KEY_MAP], an object literal: its properties in the order
    they are written. *)
Definition SAMSUNG_KEY_MAP : list (string * string) :=
  [("power", "KEY_POWER"); ("source", "KEY_SOURCE");
   ("up", "KEY_UP"); ("down", "KEY_DOWN"); ("left", "KEY_LEFT"); ("right", "KEY_RIGHT");
   ("enter", "KEY_ENTER"); ("back", "KEY_RETURN");
   ("home", "KEY_HOME"); ("menu", "KEY_MENU"); ("info", "KEY_INFO");
   ("volume_up", "KEY_VOLUP"); ("volume_down", "KEY_VOLDOWN"); ("mute", "KEY_MUTE");
   ("channel_up", "KEY_CHUP"); ("channel_down", "KEY_CHDOWN");
   ("num_0", "KEY_0"); ("num_1", "KEY_1"); ("num_2", "KEY_2"); ("num_3", "KEY_3");
   ("num_4", "KEY_4"); ("num_5", "KEY_5"); ("num_6", "KEY_6"); ("num_7", "KEY_7");
   ("num_8", "KEY_8"); ("num_9", "KEY_9");
   ("play", "KEY_PLAY"); ("pause", "KEY_PAUSE"); ("stop", "KEY_STOP");
   ("rewind", "KEY_REWIND"); ("fast_forward", "KEY_FF")].

(** Property lookup in an object literal without repeated names. *)
Fixpoint lookup (key : string) (object : list (string * string)) : option string :=
  match object with
  | [] => None
  | (k, v) :: rest => if String.eqb k key then Some v else lookup key rest
  end.

(** [Object.keys(SAMSUNG_KEY_MAP)]. *)
Definition SAMSUNG_SUPPORTED_KEYS : list string := map fst SAMSUNG_KEY_MAP.

Definition SAMSUNG_SUPPORTED_GROUPS : list RemoteKeyGroup :=
  [g_power; g_navigation; g_volume; g_channels; g_numbers; g_media; g_menu].

(** The native module [SamsungTvRemote], when the platform has it. *)
Record NativeModule := mkNativeModule {
  native_sendKey : string -> Promise bool
}.

(** [Platform.OS] and [NativeModules.SamsungTvRemote]. *)
Record Platform := mkPlatform {
  OS : string;
  SamsungTvRemote : option NativeModule
}.

(** Which way [sendKey] went. *)
Inductive SendPath :=
| NotAndroid                          (* the platform guard returned false *)
| Unmapped                            (* the map has no code for the key *)
| Sent (code : string).               (* the native module was called with [code] *)

(** [SamsungTizenHandler.sendKey(key)]: the result and the path taken. *)
Definition sendKey (p : Platform) (key : string) : bool * SendPath :=
  match String.eqb (OS p) "android", SamsungTvRemote p with
  | true, Some native =>
    match lookup key SAMSUNG_KEY_MAP with
    | None => (false, Unmapped)
    | Some samsungKey =>
      if (String.length samsungKey =? 0)%nat then (false, Unmapped)
      else
        match native_sendKey native samsungKey with
        | Resolved b => (b, Sent samsungKey)
        | Rejected _ => (false, Sent samsungKey)
        end
    end
  | _, _ => (false, NotAndroid)
  end.

(** [getSupportedKeys()]. *)
Definition getSupportedKeys : list string := SAMSUNG_SUPPORTED_KEYS.

(** *** identify *)

(** [value.key] on a value that is neither null nor undefined: the last
    property of that name for an object, undefined otherwise (none of the
    names read by [identify] is a property of a string, number, boolean
    or array). *)
Fixpoint fieldOf (fields : list (string * JsValue)) (key : string) : JsValue :=
  match fields with
  | [] => JUndefined
  | (k, v) :: rest =>
    if existsb (fun kv => String.eqb (fst kv) key) rest then fieldOf rest key
    else if String.eqb k key then v else JUndefined
  end.

(** [value?.key]. *)
Definition optProp (value : JsValue) (key : string) : JsValue :=
  match value with
  | JObject fields => fieldOf fields key
  | _ => JUndefined
  end.

(** Truthiness. *)
Definition truthy (v : JsValue) : bool :=
  match v with
  | JUndefined => false
  | JNull => false
  | JBool b => b
  | JNumber t _ => t
  | JString s => negb (String.length s =? 0)%nat
  | JArray _ => true
  | JObject _ => true
  end.

(** [a || b]. *)
Definition jsOr (a b : JsValue) : JsValue := if truthy a then a else b.

Definition lowerChar (c : ascii) : ascii :=
  let n := nat_of_ascii c in
  if ((65 <=? n) && (n <=? 90))%nat then ascii_of_nat (n + 32) else c.

(** [toLowerCase()] on the ASCII letters; no other character lowers to a
    letter of the word samsung. *)
Fixpoint toLowerCase (s : string) : string :=
  match s with
  | EmptyString => EmptyString
  | String c rest => String (lowerChar c) (toLowerCase rest)
  end.

(** [typeof v === 'string' && v.toLowerCase().includes('samsung')]. *)
Definition mentionsSamsung (v : JsValue) : bool :=
  match v with
  | JString s => contains (toLowerCase s) "samsung"
  | _ => false
  end.

(** [v === 'Samsung SmartTV']. *)
Definition isSmartTvType (v : JsValue) : bool :=
  match v with
  | JString s => String.eqb s "Samsung SmartTV"
  | _ => false
  end.

(** The test [isSamsung] on the parsed body. *)
Definition isSamsung (data : JsValue) : bool :=
  let device := optProp data "device" in
  isSmartTvType (optProp device "type")
  || mentionsSamsung (optProp device "name")
  || mentionsSamsung (optProp data "type").

(** What [fetch] and [response.json()] give: a rejection (network error,
    or the abort after 2500 ms), or a response with its status and what
    parsing its body gives ([None] when [json()] rejects). *)
Inductive FetchOutcome :=
| FetchRejected
| FetchResponse (status : Z) (json : option JsValue).

(** [response.ok]. *)
Definition ok (status : Z) : bool := (200 <=? status)%Z && (status <=? 299)%Z.

(** The device object built from the parsed body. *)
Definition deviceFrom (ip : string) (data : JsValue) : TvDevice :=
  let device := optProp data "device" in
  mkTvDevice
    (jsOr (optProp device "id") (jsOr (optProp device "duid") (JString ("samsung-" ++ ip))))
    ip
    (jsOr (optProp device "name") (JString "Samsung TV"))
    samsung_tizen
    (jsOr (optProp device "modelName") (optProp device "model"))
    (jsOr (optProp device "OS") (JString "Tizen"))
    (optProp device "resolution")
    (optProp device "wifiMac")
    (Some 8002%Z)
    [("firmwareVersion", optProp device "firmwareVersion");
     ("tokenAuthSupport", optProp device "TokenAuthSupport");
     ("networkType", optProp device "networkType");
     ("frameTVSupport", optProp device "FrameTVSupport");
     ("gamePadSupport", optProp device "GamePadSupport");
     ("apiVersion", optProp data "version")].

(** [identify(ip)]: everything runs inside [try], and [catch] returns
    null. *)
Definition identify (ip : string) (f : FetchOutcome) : Promise (option TvDevice) :=
  match f with
  | FetchRejected => Resolved None
  | FetchResponse status json =>
    if negb (ok status) then Resolved None
    else match json with
         | None => Resolved None
         | Some data =>
           if negb (isSamsung data) then Resolved None
           else Resolved (Some (deviceFrom ip data))
         end
  end.

(** The body of the scenario: a Samsung device with no OS field. *)
Definition livingRoomBody : JsValue :=
  JObject [("device", JObject [("type", JString "Samsung SmartTV");
                               ("name", JString "Living Room TV");
                               ("modelName", JString "X")])].

(** A body whose device type is not Samsung's but whose name mentions
    Samsung. *)
Definition soundbarBody : JsValue :=
  JObject [("device", JObject [("type", JString "Soundbar");
                               ("name", JString "Samsung HW-Q60")])].

(** The device type alone decides: every body whose [device.type] is not
    the identifying string gives null. *)
Definition typeAloneDecides : Prop :=
  forall (ip : string) (data : JsValue),
    isSmartTvType (optProp (optProp data "device") "type") = false ->
    identify ip (FetchResponse 200 (Some data)) = Resolved None.

Definition androidPlatform : Platform :=
  mkPlatform "android" (Some (mkNativeModule (fun _ => Resolved true))).

End Samsung.

(** ** samsung/SamsungTizenHandler.ts: the connection *)

Module TizenHandler.
Import Str Types Samsung.
Local Open Scope string_scope.

(** The fields of a [SamsungTizenHandler] and what it did: the device
    the native subscriptions made by [setupNativeListeners] are bound to
    (none before the first [connect]), the events passed to [emit], and
    the listeners called with them. *)
Record Handler := mkHandler {
  connectedDevice : option TvDevice;
  listeners : list nat;
  nativeDevice : option TvDevice;
  emitted : list ConnectionEvent;
  delivered : list (nat * ConnectionEvent)
}.

Definition newHandler : Handler := mkHandler None [] None [] [].

(** [Platform.OS !== 'android' || !SamsungTvRemote] is false. *)
Definition available (p : Platform) : bool :=
  String.eqb (OS p) "android"
  && match SamsungTvRemote p with Some _ => true | None => false end.

(** [this.connectedDevice = d]. *)
Definition setConnectedDevice (d : option TvDevice) (h : Handler) : Handler :=
  mkHandler d (listeners h) (nativeDevice h) (emitted h) (delivered h).

(** [emit(event)]: every listener is called; what one throws is
    caught. *)
Definition emit (event : ConnectionEvent) (h : Handler) : Handler :=
  mkHandler (connectedDevice h) (listeners h) (nativeDevice h)
            (emitted h ++ [event])
            (delivered h ++ map (fun l => (l, event)) (listeners h)).

(** [setupNativeListeners(device)] on Android: the subscriptions made
    before are removed and new ones, bound to [device], are made. *)
Definition setupNativeListeners (device : TvDevice) (h : Handler) : Handler :=
  mkHandler (connectedDevice h) (listeners h) (Some device) (emitted h) (delivered h).

(** [text || fallback] for a text that may be missing. *)
Definition textOr (text : option string) (fallback : string) : string :=
  match text with
  | Some s => if (String.length s =? 0)%nat then fallback else s
  | None => fallback
  end.

Definition withIp (device : TvDevice) (address : string) : TvDevice :=
  mkTvDevice (id device) address (name device) (brand device) (model device) (os device)
             (resolution device) (mac device) (port device) (metadata device).

(** [connect(device)]; [native] is how [SamsungTvRemote.connect(device.ip)]
    ends, a rejection carrying the message of the error. *)
Definition connect (p : Platform) (native : Promise unit) (device : TvDevice) (h : Handler)
  : Promise unit * Handler :=
  if negb (available p) then
    (Rejected "Samsung TV control is only available on Android", h)
  else
    let h1 := emit (mkConnectionEvent connecting (Some device) None)
                   (setConnectedDevice (Some device) h) in
    let h2 := setupNativeListeners device h1 in
    match native with
    | Resolved _ => (Resolved tt, h2)
    | Rejected message =>
      (Rejected message,
       emit (mkConnectionEvent error (Some device)
                               (Some (textOr (Some message) "Connection failed")))
            (setConnectedDevice None h2))
    end.

(** [disconnect()]; [native] is how [SamsungTvRemote.disconnect()]
    ends. *)
Definition disconnect (p : Platform) (native : Promise unit) (h : Handler)
  : Promise unit * Handler :=
  if negb (available p) then (Resolved tt, h)
  else (native, emit (mkConnectionEvent disconnected None None) (setConnectedDevice None h)).

(** [isConnected()]. *)
Definition isConnected (h : Handler) : bool :=
  match connectedDevice h with Some _ => true | None => false end.

(** [onConnectionStateChange(listener)] and the function it returns. *)
Definition onConnectionStateChange (listener : nat) (h : Handler) : Handler :=
  mkHandler (connectedDevice h) (RegistryEvents.addListener listener (listeners h))
            (nativeDevice h) (emitted h) (delivered h).

Definition unsubscribe (listener : nat) (h : Handler) : Handler :=
  mkHandler (connectedDevice h)
            (List.filter (fun l => negb (l =? listener)%nat) (listeners h))
            (nativeDevice h) (emitted h) (delivered h).

(** An event of the native module, with the field of its data the
    subscriptions read. *)
Inductive NativeEvent :=
| NativeConnected (address : option string)
| NativeDisconnected
| NativeError (message : option string).

(** The subscriptions made by [setupNativeListeners], run on a native
    event. *)
Definition onNative (e : NativeEvent) (h : Handler) : Handler :=
  match nativeDevice h with
  | None => h
  | Some device =>
    match e with
    | NativeConnected address =>
      emit (mkConnectionEvent connected
                              (Some (withIp device (textOr address (ip device)))) None)
           (setConnectedDevice (Some device) h)
    | NativeDisconnected =>
      emit (mkConnectionEvent disconnected None None) (setConnectedDevice None h)
    | NativeError message =>
      emit (mkConnectionEvent error (Some device) (Some (textOr message "Unknown error")))
           (setConnectedDevice None h)
    end
  end.

(** What happens to a handler. *)
Inductive Call :=
| Connect (device : TvDevice) (native : Promise unit)
| Disconnect (native : Promise unit)
| Native (e : NativeEvent)
| Subscribe (listener : nat)
| Unsubscribe (listener : nat).

Definition step (p : Platform) (h : Handler) (c : Call) : Handler :=
  match c with
  | Connect device native => snd (connect p native device h)
  | Disconnect native => snd (disconnect p native h)
  | Native e => onNative e h
  | Subscribe listener => onConnectionStateChange listener h
  | Unsubscribe listener => unsubscribe listener h
  end.

Definition run (p : Platform) (calls : list Call) (h : Handler) : Handler :=
  fold_left (step p) calls h.

(** The state of the event emitted last. *)
Definition lastState (h : Handler) : option ConnectionState :=
  option_map state (List.last (map Some (emitted h)) None).

(** The session is up or on its way up. *)
Definition live (s : option ConnectionState) : bool :=
  match s with
  | Some connecting | Some connected => true
  | _ => false
  end.

Definition iosPlatform : Platform := mkPlatform "ios" None.

End TizenHandler.


(** ** SamsungTvClient.kt: SSDP discovery *)

Module Ssdp.
Import Str Subnet.
Local Open Scope string_scope.

Definition CR : ascii := ascii_of_nat 13.
Definition LF : ascii := ascii_of_nat 10.

(** [response.split(CR LF, LF)]: the pieces between line ends, a
    carriage return counting as part of a line end only when a line feed
    follows it. *)
Fixpoint splitLines (s : string) : list string :=
  match s with
  | EmptyString => [EmptyString]
  | String c rest =>
    let keep :=
      match splitLines rest with
      | line :: lines => String c line :: lines
      | [] => [String c EmptyString]
      end in
    if Ascii.eqb c LF then EmptyString :: splitLines rest
    else if Ascii.eqb c CR then
      match rest with
      | String c2 rest' =>
        if Ascii.eqb c2 LF then EmptyString :: splitLines rest' else keep
      | EmptyString => keep
      end
    else keep
  end.

Definition upperChar (c : ascii) : ascii :=
  let n := nat_of_ascii c in
  if ((97 <=? n) && (n <=? 122))%nat then ascii_of_nat (n - 32) else c.

(** [uppercase()] on a text decoded as US-ASCII. *)
Fixpoint uppercase (s : string) : string :=
  match s with
  | EmptyString => EmptyString
  | String c rest => String (upperChar c) (uppercase rest)
  end.

(** [substringAfter(delimiter)] for a one-character delimiter: what
    follows its first occurrence, or the whole string when there is
    none. *)
Fixpoint afterFirst (delimiter : ascii) (s : string) : option string :=
  match s with
  | EmptyString => None
  | String c rest => if Ascii.eqb c delimiter then Some rest else afterFirst delimiter rest
  end.

Definition substringAfter (delimiter : ascii) (s : string) : string :=
  match afterFirst delimiter s with
  | Some rest => rest
  | None => s
  end.

Fixpoint trimStart (s : string) : string :=
  match s with
  | String c rest => if isWhitespace c then trimStart rest else s
  | EmptyString => s
  end.

Fixpoint trimEnd (s : string) : string :=
  match s with
  | EmptyString => EmptyString
  | String c rest =>
    match trimEnd rest with
    | EmptyString => if isWhitespace c then EmptyString else String c EmptyString
    | kept => String c kept
    end
  end.

(** [trim()]. *)
Definition trim (s : string) : string := trimEnd (trimStart s).

(** Every character of [s] passes [f]. *)
Fixpoint allChars (f : ascii -> bool) (s : string) : bool :=
  match s with
  | EmptyString => true
  | String c rest => f c && allChars f rest
  end.

(** The class [[0-9.]]. *)
Definition isIpChar (c : ascii) : bool :=
  let n := nat_of_ascii c in
  ((48 <=? n) && (n <=? 57))%nat || Ascii.eqb c ".".

(** The longest prefix in [[0-9.]], and what follows it. *)
Fixpoint spanIp (s : string) : string * string :=
  match s with
  | String c rest =>
    if isIpChar c then let '(run, tl) := spanIp rest in (String c run, tl)
    else (EmptyString, s)
  | EmptyString => (EmptyString, EmptyString)
  end.

(** The group [([0-9.]+)] at the start of [s]. *)
Definition ipGroup (s : string) : option string :=
  match spanIp s with
  | (EmptyString, _) => None
  | (run, _) => Some run
  end.

(** The optional scheme of the pattern at the start of [s]. *)
Definition stripScheme (s : string) : option string :=
  match stripPrefix "https://" s with
  | Some rest => Some rest
  | None => stripPrefix "http://" s
  end.

(** The pattern of [extractIpFromSsdpResponse] tried at the start of
    [s], giving group 1: the scheme if it is there and an address
    follows it, else no scheme; the address is the longest run, since the
    port that may follow is optional. *)
Definition matchIpHere (s : string) : option string :=
  match stripScheme s with
  | Some rest =>
    match ipGroup rest with
    | Some run => Some run
    | None => ipGroup s
    end
  | None => ipGroup s
  end.

(** [Regex.find]: the leftmost match. *)
Fixpoint findIp (s : string) : option string :=
  match matchIpHere s with
  | Some run => Some run
  | None =>
    match s with
    | String _ rest => findIp rest
    | EmptyString => None
    end
  end.

Definition isLocationLine (line : string) : bool :=
  String.prefix "LOCATION:" (uppercase line).

(** The loop of [extractIpFromSsdpResponse] over the lines: the first
    LOCATION line decides. *)
Fixpoint ipOfLines (lines : list string) : option string :=
  match lines with
  | [] => None
  | line :: rest =>
    if isLocationLine line then findIp (trim (substringAfter ":" line))
    else ipOfLines rest
  end.

Definition extractIpFromSsdpResponse (response : string) : option string :=
  ipOfLines (splitLines response).

(** A received datagram: its text decoded as US-ASCII, and
    [receivePacket.address?.hostAddress]. *)
Record Datagram := mkDatagram {
  data : string;
  hostAddress : option string
}.

Definition isTvLikely (response : string) : bool :=
  let responseLower := Samsung.toLowerCase response in
  contains responseLower "samsung"
  || contains responseLower "tizen"
  || contains responseLower "tv"
  || contains responseLower "dial"
  || contains responseLower "mediarenderer"
  || contains responseLower "remotecontrol"
  || contains responseLower "roku"
  || contains responseLower "lg"
  || contains responseLower "webos"
  || contains responseLower "android".

(** The address a datagram stands for: the one of its LOCATION line, or
    else the sender's. *)
Definition addressOf (p : Datagram) : option string :=
  match extractIpFromSsdpResponse (data p) with
  | Some ip => Some ip
  | None => hostAddress p
  end.

(** The body of the receive loop for one datagram. *)
Definition collect (discoveredIps : gset string) (p : Datagram) : gset string :=
  if isTvLikely (data p) then
    match addressOf p with
    | Some ip => {[ ip ]} ∪ discoveredIps
    | None => discoveredIps
    end
  else discoveredIps.

(** How the SSDP part of [discover] went: an exception somewhere in it,
    or the datagrams received before the search time was over. *)
Inductive SsdpRun :=
| SsdpThrew (message : option string)
| SsdpReceived (packets : list Datagram).

(** What [discover] hands out: the list given to the callback, and the
    text of the discoveryError event if one was emitted. *)
Record Discovery := mkDiscovery {
  callbackList : list string;
  discoveryError : option string
}.

(** [discover(callback)]; [deviceIp] and [answered] are what the subnet
    scan sees. *)
Definition discover (run : SsdpRun) (deviceIp : option string) (answered : string -> bool)
  : Discovery :=
  match run with
  | SsdpReceived packets =>
    let discoveredIps := fold_left collect packets ∅ in
    let discoveredIps' :=
      if decide (discoveredIps = ∅)
      then discoveredIps ∪ list_to_set (scanSubnetForTvPorts deviceIp answered)
      else discoveredIps in
    mkDiscovery (sorted (elements discoveredIps')) None
  | SsdpThrew message =>
    match scanSubnetForTvPorts deviceIp answered with
    | [] =>
      mkDiscovery [] (Some (match message with Some m => m | None => "Discovery failed" end))
    | subnetIps => mkDiscovery subnetIps None
    end
  end.

(** Adjacent elements are in order. *)
Definition ascending (l : list string) : Prop :=
  Sorted (fun a b => String.leb a b = true) l.

(** The run of address characters ends where [tail] begins. *)
Definition stopsRun (tail : string) : Prop :=
  match tail with
  | EmptyString => True
  | String c _ => isIpChar c = false
  end.

(** The pattern's scheme, or none. *)
Definition isScheme (scheme : string) : Prop :=
  scheme = EmptyString \/ scheme = "http://" \/ scheme = "https://".

(** The datagrams that count, with the address each stands for. *)
Definition found (packets : list Datagram) (x : string) : Prop :=
  exists p, In p packets /\ isTvLikely (data p) = true /\ addressOf p = Some x.

(** A response as a television sends it, and one from a printer. *)
Definition tvResponse : string :=
  "HTTP/1.1 200 OK" ++ String CR (String LF
    ("Location: http://192.168.1.42:9197/dmr" ++ String CR (String LF
      ("ST: urn:samsung.com:device:RemoteControlReceiver:1" ++ String CR (String LF EmptyString))))).

End Ssdp.

(** ** More of TokenRepository.kt and of the pairing *)

Module Pairing.
Import Str TokenRepository Session.
Local Open Scope string_scope.

(** [clearAll()] of TokenRepository.kt. *)
Definition clearAll (prefs : gmap string string) : gmap string string := ∅.


(** A token field as the pattern of the success branch accepts it: the
    quoted word token, white space, a colon, white space, and the value
    between quotes. *)
Definition tokenField (ws1 ws2 token : string) : string :=
  String quote ("token" ++ String quote EmptyString) ++ ws1 ++ ":" ++ ws2
    ++ String quote (token ++ String quote EmptyString).

Definition quoteFree (s : string) : bool :=
  Ssdp.allChars (fun c => negb (Ascii.eqb c quote)) s.

Definition spaces (s : string) : bool := Ssdp.allChars isSpace s.

(** A message with a token field, for the examples. *)
Definition fieldMessage : string := tokenField EmptyString " " "abc" ++ "}".

End Pairing.


(** ** keys.ts and RemoteScreen.tsx: typing a search text *)

Module Keyboard.
Import Str Types Samsung.
Local Open Scope string_scope.

(** [charToSamsungKey(ch)] of keys.ts, for [ch] a text of ASCII
    characters: one character is one UTF-16 unit, [toUpperCase] touches
    the letters a to z only, and strings of one character compare as
    their characters do. *)
Definition charToSamsungKey (ch : string) : option string :=
  match ch with
  | String c EmptyString =>
    let u := Ssdp.upperChar c in
    if ((65 <=? nat_of_ascii u) && (nat_of_ascii u <=? 90))%nat
    then Some ("KEY_" ++ String u EmptyString)
    else if ((48 <=? nat_of_ascii c) && (nat_of_ascii c <=? 57))%nat
    then Some ("KEY_" ++ ch)
    else if Ascii.eqb c " " then Some "KEY_SPACE"
    else None
  | _ => None
  end.

(** The characters of a text, each as a string. *)
Fixpoint characters (text : string) : list string :=
  match text with
  | EmptyString => []
  | String c rest => String c EmptyString :: characters rest
  end.

(** The keys [sendSearchToTv] sends for [searchText], in order: none
    when the text is empty after [trim()], else the key of every
    character that has one. *)
Definition searchKeys (searchText : string) : list string :=
  if Ssdp.allChars isSpace searchText then []
  else omap charToSamsungKey (characters searchText).

(** A capital letter or a digit. *)
Definition isKeyChar (c : ascii) : bool :=
  let n := nat_of_ascii c in
  ((65 <=? n) && (n <=? 90) || (48 <=? n) && (n <=? 57))%nat.

Definition isAscii (c : ascii) : bool := (nat_of_ascii c <? 128)%nat.

(** A body whose device has neither an id nor a name. *)
Definition bareBody : JsValue :=
  JObject [("device", JObject [("type", JString "Samsung SmartTV")])].

End Keyboard.

(** ** Facts about the codec *)

Module FrameCodecFacts.
Import KotlinInt FrameCodec.

(** A boolean test that holds on every integer of an enumerated interval
    holds on the interval. *)
Lemma allFrom_spec (f : Z -> bool) (n : nat) (lo : Z) :
  allFrom f n lo = true -> forall z, lo <= z < lo + Z.of_nat n -> f z = true.
Proof.
  revert lo. induction n as [|n IH]; intros lo Hall z Hz; [lia|].
  simpl in Hall. apply andb_true_iff in Hall as [Hlo Hrest].
  destruct (Z.eq_dec z lo) as [->|Hne]; [assumption|].
  apply (IH (lo + 1)); [assumption | lia].
Qed.

Lemma forall_range (f : Z -> bool) (lo hi : Z) :
  allFrom f (Z.to_nat (hi - lo)) lo = true ->
  forall z, lo <= z < hi -> f z = true.
Proof. intros Hall z Hz. apply (allFrom_spec f _ lo Hall). lia. Qed.

Lemma wrap_small (bits z : Z) :
  0 < bits -> - 2 ^ (bits - 1) <= z < 2 ^ (bits - 1) -> wrap bits z = z.
Proof.
  intros Hb Hz. unfold wrap.
  assert (H2 : 2 ^ bits = 2 * 2 ^ (bits - 1)).
  { replace bits with (Z.succ (bits - 1)) at 1 by lia. apply Z.pow_succ_r. lia. }
  rewrite Z.mod_small; lia.
Qed.

Lemma toInt_small (z : Z) : -2147483648 <= z <= 2147483647 -> toInt z = z.
Proof. intros Hz. apply wrap_small; [lia|]. change (2 ^ (32 - 1)) with 2147483648. lia. Qed.

Lemma toShort_mod (z : Z) : toShort z = toShort (z mod 65536).
Proof.
  unfold toShort, wrap. change (2 ^ 16) with 65536.
  now rewrite Zplus_mod_idemp_l.
Qed.

Lemma xorCheck_all : forall b m, isByte b -> isByte m -> xorCheck b m = true.
Proof.
  intros b m Hb Hm. unfold isByte in *.
  assert (H : allFrom (fun b => allFrom (fun m => xorCheck b m) (Z.to_nat (128 - -128)) (-128))
                      (Z.to_nat (128 - -128)) (-128) = true)
    by (vm_compute; reflexivity).
  pose proof (forall_range _ (-128) 128 H b ltac:(lia)) as Hb'. cbv beta in Hb'.
  exact (forall_range _ (-128) 128 Hb' m ltac:(lia)).
Qed.

Lemma xor_twice (b m : Z) :
  isByte b -> isByte m -> toByte (Z.lxor (toByte (Z.lxor b m)) m) = b.
Proof.
  intros Hb Hm. pose proof (xorCheck_all b m Hb Hm) as H.
  unfold xorCheck in H. rewrite !andb_true_iff in H. lia.
Qed.

Lemma xor_plain (b m : Z) :
  isByte b -> isByte m -> Z.lxor (toByte (Z.lxor b m)) m = b.
Proof.
  intros Hb Hm. pose proof (xorCheck_all b m Hb Hm) as H.
  unfold xorCheck in H. rewrite !andb_true_iff in H. lia.
Qed.

Lemma nth_isByte (k : ByteArray) (i : nat) : Forall isByte k -> isByte (nth i k 0).
Proof.
  intros Hk. destruct (Nat.lt_ge_cases i (length k)) as [Hlt|Hge].
  - rewrite Forall_forall in Hk. apply Hk. rewrite list_elem_of_In. now apply nth_In.
  - rewrite nth_overflow by assumption. unfold isByte. lia.
Qed.

Lemma xorMask_length (k : ByteArray) (i : nat) (p : ByteArray) :
  length (xorMask k i p) = length p.
Proof. revert i. induction p as [|b p IH]; intros i; simpl; [reflexivity|]. now rewrite IH. Qed.

Lemma xorMask_involutive (k : ByteArray) (i : nat) (p : ByteArray) :
  Forall isByte k -> Forall isByte p -> xorMask k i (xorMask k i p) = p.
Proof.
  intros Hk Hp. revert i. induction Hp as [|b p Hb Hp IH]; intros i; simpl; [reflexivity|].
  rewrite xor_twice by (auto using nth_isByte). now rewrite IH.
Qed.

Lemma xorMask_firstn (k : ByteArray) (i n : nat) (p : ByteArray) :
  xorMask k i (firstn n p) = firstn n (xorMask k i p).
Proof.
  revert i n. induction p as [|b p IH]; intros i [|n]; simpl; try reflexivity.
  now rewrite IH.
Qed.

Lemma xorMask_nth (k : ByteArray) (i j : nat) (p : ByteArray) :
  (j < length p)%nat ->
  nth j (xorMask k i p) 0 = toByte (Z.lxor (nth j p 0) (nth ((i + j) mod 4) k 0)).
Proof.
  revert i j. induction p as [|b p IH]; intros i j Hj; simpl in Hj; [lia|].
  destruct j as [|j]; simpl.
  - now rewrite Nat.add_0_r.
  - rewrite IH by lia. now replace (S i + j)%nat with (i + S j)%nat by lia.
Qed.

Lemma literalCheck_all (size : Z) : 0 <= size <= 125 -> literalCheck size = true.
Proof.
  intros Hs.
  refine (forall_range literalCheck 0 126 _ size _); [vm_compute; reflexivity | lia].
Qed.

Lemma shortCheck_all (s : Z) : 0 <= s < 65536 -> shortCheck s = true.
Proof.
  intros Hs.
  refine (forall_range shortCheck 0 65536 _ s _); [vm_compute; reflexivity | lia].
Qed.

(** The header the decoder reads from an encoded frame with a literal
    length byte. *)
Lemma readHeader_literal (size : Z) (rest : list Z) :
  0 <= size <= 125 ->
  readHeader (toByte 129 :: toByte (Z.lor 128 size) :: rest)
  = Some (mkHeader 1 true true size rest).
Proof.
  intros Hs. pose proof (literalCheck_all size Hs) as Hc.
  unfold literalCheck in Hc. rewrite !andb_true_iff, !negb_true_iff in Hc.
  destruct Hc as [[[Hc1 Hc2] Hc3] _].
  unfold readHeader, read.
  change (Z.land (toByte 129) 255) with 129.
  change (129 =? -1) with false. cbv iota beta.
  rewrite Hc1, Hc3. cbv iota beta.
  apply Z.eqb_eq in Hc2. rewrite Hc2.
  destruct (size =? 126) eqn:E1; [lia|].
  destruct (size =? 127) eqn:E2; [lia|].
  reflexivity.
Qed.

(** The header the decoder reads from an encoded frame with the 16-bit
    length field: the declared length is the size modulo 65536. *)
Lemma readHeader_short (size : Z) (rest : list Z) :
  0 <= size ->
  readHeader (toByte 129 :: toByte 254 :: putShort (toShort size) ++ rest)
  = Some (mkHeader 1 true true (size mod 65536) rest).
Proof.
  intros Hs.
  assert (Hm : 0 <= size mod 65536 < 65536) by (apply Z.mod_pos_bound; lia).
  pose proof (shortCheck_all _ Hm) as Hc. unfold shortCheck in Hc.
  rewrite <- toShort_mod in Hc.
  unfold putShort in *. apply Z.eqb_eq in Hc.
  unfold readHeader, read. simpl app.
  change (Z.land (toByte 129) 255) with 129.
  change (Z.land (toByte 254) 255) with 254.
  cbv iota beta. change (129 =? -1) with false. change (254 =? -1) with false.
  cbv iota beta. change (Z.land 254 127 =? 126) with true. cbv iota beta.
  now rewrite Hc.
Qed.

Lemma readMaskKey_exact (k rest : list Z) :
  length k = 4%nat -> readMaskKey (k ++ rest) = (k, rest).
Proof.
  intros Hk. unfold readMaskKey.
  do 5 (destruct k as [|? k]; try discriminate Hk).
  reflexivity.
Qed.

(** The payload loop on a stream that holds at least the declared number
    of bytes, for a declared length an [Int] can hold. *)
Lemma readLoop_enough (fuel : nat) (n : nat) (inp : list Z) :
  Z.of_nat n <= 2147483647 -> (n <= length inp)%nat ->
  readLoop (S fuel) (Z.of_nat n) (newByteArray (Z.of_nat n)) 0 inp
  = LoopDone (firstn n inp) (skipn n inp).
Proof.
  intros Hmax Hlen. unfold newByteArray. rewrite Nat2Z.id.
  destruct n as [|n'].
  - reflexivity.
  - set (n := S n') in *. unfold readLoop; fold readLoop.
    destruct (0 <? Z.of_nat n) eqn:E0; [|lia].
    rewrite Z.sub_0_r, toInt_small by lia.
    unfold readInto. rewrite repeat_length.
    destruct ((0 <? 0) || (Z.of_nat n <? 0) || (Z.of_nat n - 0 <? Z.of_nat n)) eqn:E1.
    { rewrite !orb_true_iff in E1. lia. }
    destruct (Z.of_nat n =? 0) eqn:E2; [lia|].
    destruct inp as [|x inp']; [simpl in Hlen; lia|].
    set (inp := x :: inp') in *.
    rewrite Nat2Z.id. change (Z.to_nat 0) with 0%nat.
    rewrite length_firstn, Nat.min_l by assumption.
    simpl firstn at 1. simpl Nat.add.
    rewrite skipn_all2 by (rewrite repeat_length; lia).
    rewrite app_nil_r. simpl app.
    destruct (Z.of_nat n =? -1) eqn:E3; [lia|].
    rewrite toInt_small by lia. simpl Z.add.
    destruct fuel; simpl; rewrite Z.ltb_irrefl; reflexivity.
Qed.

(** *** The fuel of the two loops never runs out *)

(** A read that returns a positive count takes bytes off the stream. *)
Lemma readInto_progress (b : ByteArray) (off len : Z) (inp : list Z)
      (n : Z) (b' : ByteArray) (rest : list Z) :
  readInto b off len inp = ReadGot n b' rest -> n <> -1 -> n <> 0 ->
  (length rest < length inp)%nat.
Proof.
  unfold readInto.
  destruct ((off <? 0) || (len <? 0) || (Z.of_nat (length b) - off <? len)) eqn:E;
    [discriminate|].
  destruct (len =? 0) eqn:E0; [intros H; injection H as <- _ _; congruence|].
  destruct inp as [|x inp]; [intros H; injection H as <- _ _; congruence|].
  intros H _ _. injection H as _ _ <-.
  rewrite !orb_false_iff in E. rewrite length_skipn. simpl length.
  assert (1 <= Z.to_nat len)%nat by lia. lia.
Qed.

Lemma readLoop_fuel (f1 f2 : nat) (len : Z) (payload : ByteArray) (bytesRead : Z)
      (inp : list Z) :
  (length inp < f1)%nat -> (length inp < f2)%nat ->
  readLoop f1 len payload bytesRead inp = readLoop f2 len payload bytesRead inp.
Proof.
  revert f2 payload bytesRead inp.
  induction f1 as [|f1 IH]; intros f2 payload bytesRead inp H1 H2; [lia|].
  destruct f2 as [|f2]; [lia|].
  simpl. destruct (bytesRead <? len); [|reflexivity].
  destruct (readInto payload bytesRead (toInt (len - bytesRead)) inp)
    as [|n payload' rest] eqn:E; [reflexivity|].
  destruct (n =? -1) eqn:E1; [reflexivity|].
  destruct (n =? 0) eqn:E0; [reflexivity|].
  pose proof (readInto_progress _ _ _ _ _ _ _ E ltac:(lia) ltac:(lia)).
  apply IH; lia.
Qed.

(** The stream never grows while the payload is read. *)
Lemma readLoop_rest (f : nat) (len : Z) (payload : ByteArray) (bytesRead : Z)
      (inp : list Z) (p : ByteArray) (rest : list Z) :
  readLoop f len payload bytesRead inp = LoopDone p rest ->
  (length rest <= length inp)%nat.
Proof.
  revert payload bytesRead inp.
  induction f as [|f IH]; intros payload bytesRead inp; simpl.
  - destruct (bytesRead <? len); [discriminate|]. intros H. injection H as _ <-. lia.
  - destruct (bytesRead <? len); [|intros H; injection H as _ <-; lia].
    destruct (readInto payload bytesRead (toInt (len - bytesRead)) inp)
      as [|n payload' rest'] eqn:E; [discriminate|].
    destruct (n =? -1) eqn:E1.
    + intros H. injection H as _ <-. unfold readInto in E.
      destruct (_ || _); [discriminate|]. destruct (_ =? 0); [injection E as _ _ <-; lia|].
      destruct inp; injection E as _ _ <-; [lia|]. rewrite length_skipn. lia.
    + destruct (n =? 0) eqn:E0; [discriminate|].
      intros H. apply IH in H.
      pose proof (readInto_progress _ _ _ _ _ _ _ E ltac:(lia) ltac:(lia)). lia.
Qed.

Lemma read_rest (inp : list Z) :
  (length (snd (read inp)) <= length inp)%nat
  /\ (fst (read inp) <> -1 -> (length (snd (read inp)) < length inp)%nat).
Proof.
  destruct inp as [|b r]; simpl; [split; [lia|congruence]|]. split; lia.
Qed.

Lemma readLength64_rest (k : nat) (len : Z) (inp : list Z) :
  (length (snd (readLength64 k len inp)) <= length inp)%nat.
Proof.
  revert len inp. induction k as [|k IH]; intros len inp; simpl; [lia|].
  destruct (read inp) as [b r] eqn:E. pose proof (read_rest inp) as [H _].
  rewrite E in H. simpl in H. specialize (IH (Z.lor (toLong (Z.shiftl len 8)) b) r). lia.
Qed.

(** A header takes at least two bytes off the stream. *)
Lemma readHeader_rest (inp : list Z) (h : Header) :
  readHeader inp = Some h -> (length (afterLength h) + 2 <= length inp)%nat.
Proof.
  unfold readHeader.
  destruct inp as [|x1 [|x2 i2]]; cbn [read].
  - change (-1 =? -1) with true. cbv iota beta. discriminate.
  - destruct (Z.land x1 255 =? -1); [discriminate|].
    change (-1 =? -1) with true. cbv iota beta. discriminate.
  - destruct (Z.land x1 255 =? -1); [discriminate|].
    destruct (Z.land x2 255 =? -1); [discriminate|].
    destruct (Z.land (Z.land x2 255) 127 =? 126).
    + destruct (read i2) as [b1 j1] eqn:E1. destruct (read j1) as [b2 j2] eqn:E2.
      intros H. injection H as <-. simpl.
      pose proof (read_rest i2) as [H1 _]. pose proof (read_rest j1) as [H2 _].
      rewrite E1 in H1. rewrite E2 in H2. simpl in *. lia.
    + destruct (Z.land (Z.land x2 255) 127 =? 127).
      * destruct (readLength64 8 0 i2) as [len i3] eqn:E.
        intros H. injection H as <-. simpl.
        pose proof (readLength64_rest 8 0 i2) as H. rewrite E in H. simpl in *. lia.
      * intros H. injection H as <-. simpl. lia.
Qed.

Lemma readMaskKey_rest (inp : list Z) :
  (length (snd (readMaskKey inp)) <= length inp)%nat.
Proof. unfold readMaskKey. simpl. rewrite length_skipn. lia. Qed.

(** Any fuel above the length of the input gives the same result: the
    fuel never runs out. *)
Lemma readWebSocketFrame_fuel_enough (f1 f2 : nat) (s : Socket) :
  (length (input s) < f1)%nat -> (length (input s) < f2)%nat ->
  readWebSocketFrame_fuel f1 s = readWebSocketFrame_fuel f2 s.
Proof.
  revert f2 s. induction f1 as [|f1 IH]; intros f2 s H1 H2; [lia|].
  destruct f2 as [|f2]; [lia|].
  unfold readWebSocketFrame_fuel; fold readWebSocketFrame_fuel.
  destruct (readHeader (input s)) as [h|] eqn:Hh; [|reflexivity].
  pose proof (readHeader_rest _ _ Hh) as Hr.
  assert (Hfuel : forall i5 out al, (length i5 <= length (afterLength h))%nat ->
            readWebSocketFrame_fuel f1 (mkSocket i5 out al)
            = readWebSocketFrame_fuel f2 (mkSocket i5 out al)).
  { intros i5 out al Hi. apply IH; simpl; lia. }
  destruct (masked h).
  - destruct (readMaskKey (afterLength h)) as [k r] eqn:Ek.
    pose proof (readMaskKey_rest (afterLength h)) as Hk. rewrite Ek in Hk. simpl in Hk.
    cbv iota beta. destruct (toInt (payloadLength h) <? 0); [reflexivity|].
    destruct (readLoop _ _ _ _ _) as [| |payload i5] eqn:El; try reflexivity.
    apply readLoop_rest in El.
    rewrite !Hfuel by lia. reflexivity.
  - cbv iota beta. destruct (toInt (payloadLength h) <? 0); [reflexivity|].
    destruct (readLoop _ _ _ _ _) as [| |payload i5] eqn:El; try reflexivity.
    apply readLoop_rest in El.
    rewrite !Hfuel by lia. reflexivity.
Qed.

(** *** Decoding what the encoder wrote *)

(** One masked text frame whose payload is wholly on the stream. *)
Lemma readWebSocketFrame_fuel_text (fuel : nat) (s : Socket) (h : Header)
      (k rest : list Z) (n : nat) :
  readHeader (input s) = Some h ->
  masked h = true -> opcode h = 1 ->
  afterLength h = k ++ rest -> length k = 4%nat ->
  payloadLength h = Z.of_nat n -> Z.of_nat n <= 2147483647 ->
  (n <= length rest)%nat ->
  readWebSocketFrame_fuel (S fuel) s
  = (Returned (Some (xorMask k 0 (firstn n rest))),
     mkSocket (skipn n rest) (output s) ((allocated s ++ [4]) ++ [Z.of_nat n])).
Proof.
  intros Hh Hm Ho Ha Hk Hp Hmax Hlen.
  unfold readWebSocketFrame_fuel; fold readWebSocketFrame_fuel.
  rewrite Hh, Hm, Ha, readMaskKey_exact by assumption.
  cbv iota beta. rewrite Hp, toInt_small by lia.
  destruct (Z.of_nat n <? 0) eqn:E; [lia|].
  rewrite readLoop_enough by assumption.
  rewrite Ho. reflexivity.
Qed.

(** The encoder fills the buffer it allocated exactly. *)
Lemma encodeFrame_length (k p : ByteArray) :
  length k = 4%nat ->
  Z.of_nat (length (encodeFrame k p)) = frameCapacity (Z.of_nat (length p)).
Proof.
  intros Hk. unfold encodeFrame, frameCapacity.
  destruct (Z.of_nat (length p) <=? 125) eqn:E;
    destruct (125 <? Z.of_nat (length p)) eqn:E'; try lia;
    repeat (rewrite ?length_app, ?length_cons, ?xorMask_length, ?Hk; simpl length); lia.
Qed.

(** What decoding an encoded frame returns, for every payload: the
    payload itself up to 125 bytes, and beyond that its first
    [size mod 65536] bytes. *)
Lemma decodeEncoded_spec (k p : ByteArray) :
  length k = 4%nat -> Forall isByte k -> Forall isByte p ->
  decodeEncoded k p
  = Returned (Some (if Z.of_nat (length p) <=? 125 then p
                    else firstn (Z.to_nat (Z.of_nat (length p) mod 65536)) p)).
Proof.
  intros Hk Hbk Hbp.
  unfold decodeEncoded, readWebSocketFrame, sendWebSocketFrame, incoming.
  simpl input. simpl app. unfold encodeFrame.
  set (size := Z.of_nat (length p)).
  destruct (size <=? 125) eqn:E.
  - simpl app.
    erewrite readWebSocketFrame_fuel_text with (n := length p) (k := k)
                                               (rest := xorMask k 0 p);
      [ | simpl input; apply readHeader_literal; lia | reflexivity | reflexivity
        | reflexivity | assumption | reflexivity | lia
        | rewrite xorMask_length; lia ].
    simpl fst. rewrite <- (xorMask_length k 0 p) at 1. rewrite firstn_all.
    now rewrite xorMask_involutive.
  - simpl app.
    assert (Hm : 0 <= size mod 65536 < 65536) by (apply Z.mod_pos_bound; lia).
    assert (Hle : size mod 65536 <= size) by (apply Z.mod_le; lia).
    erewrite readWebSocketFrame_fuel_text
      with (n := Z.to_nat (size mod 65536)) (k := k) (rest := xorMask k 0 p);
      [ | simpl input; apply (readHeader_short size (k ++ xorMask k 0 p)); lia
        | reflexivity | reflexivity | reflexivity | assumption
        | simpl payloadLength; lia | lia
        | rewrite xorMask_length; lia ].
    simpl fst. rewrite xorMask_firstn, xorMask_involutive by assumption.
    reflexivity.
Qed.

(** Round trip for every payload the 16-bit length field can describe. *)
Lemma decodeEncoded_roundtrip (k p : ByteArray) :
  length k = 4%nat -> Forall isByte k -> Forall isByte p ->
  Z.of_nat (length p) <= 65535 ->
  decodeEncoded k p = Returned (Some p).
Proof.
  intros Hk Hbk Hbp Hs. rewrite decodeEncoded_spec by assumption.
  destruct (Z.of_nat (length p) <=? 125); [reflexivity|].
  rewrite Z.mod_small, Nat2Z.id, firstn_all by lia. reflexivity.
Qed.

Lemma forallb_isByte (l : list Z) : forallb isByteb l = true -> Forall isByte l.
Proof.
  intros H. rewrite forallb_forall in H. apply Forall_forall. intros x Hx.
  apply list_elem_of_In, H in Hx. unfold isByteb in Hx. unfold isByte.
  apply andb_true_iff in Hx. lia.
Qed.

(** The frame is header, mask key, masked payload, in this order. *)
Lemma encodeFrame_layout (k p : ByteArray) :
  exists hd, length hd = headerLength (Z.of_nat (length p))
             /\ encodeFrame k p = hd ++ k ++ xorMask k 0 p
             /\ Z.land (nth 1 hd 0) 128 = 128.
Proof.
  unfold encodeFrame, headerLength.
  destruct (Z.of_nat (length p) <=? 125) eqn:E.
  - eexists [_; _]. repeat split.
    simpl nth. pose proof (literalCheck_all (Z.of_nat (length p)) ltac:(lia)) as Hc.
    unfold literalCheck in Hc. rewrite !andb_true_iff in Hc. lia.
  - unfold putShort. eexists [_; _; _; _]. repeat split.
Qed.

(** C8: every frame [sendWebSocketFrame] writes has the mask bit of its
    second byte set, carries the four bytes of the mask key right after
    the length field, and XOR-ing the i-th payload byte of the frame with
    [maskKey[i % 4]] gives the i-th byte of the original payload; the
    decoder's unmasking loop applied to the frame's payload is the original
    payload. *)
Theorem sendWebSocketFrame_masked (out maskKey payload : ByteArray) :
  length maskKey = 4%nat -> Forall isByte maskKey -> Forall isByte payload ->
  let frame := encodeFrame maskKey payload in
  let hdr := headerLength (Z.of_nat (length payload)) in
  sendWebSocketFrame out maskKey payload = out ++ frame
  /\ Z.land (nth 1 frame 0) 128 = 128
  /\ firstn 4 (skipn hdr frame) = maskKey
  /\ length frame = (hdr + 4 + length payload)%nat
  /\ (forall i, (i < length payload)%nat ->
        Z.lxor (nth (hdr + 4 + i) frame 0) (nth (i mod 4) maskKey 0) = nth i payload 0)
  /\ xorMask maskKey 0 (skipn (hdr + 4) frame) = payload.
Proof.
  intros Hk Hbk Hbp frame hdr.
  destruct (encodeFrame_layout maskKey payload) as (hd & Hhd & Hfr & Hbit).
  fold frame in Hfr. fold hdr in Hhd.
  assert (Hhd2 : (2 <= length hd)%nat).
  { rewrite Hhd. unfold hdr, headerLength. destruct (_ <=? _); lia. }
  split; [reflexivity|]. split; [|split; [|split; [|split]]].
  - rewrite Hfr, app_nth1 by lia. exact Hbit.
  - rewrite Hfr, <- Hhd, skipn_app, Nat.sub_diag, skipn_all. simpl.
    clear -Hk. do 5 (destruct maskKey as [|? maskKey]; try discriminate Hk).
    reflexivity.
  - rewrite Hfr. rewrite !length_app, xorMask_length. lia.
  - intros i Hi. rewrite Hfr, <- Hhd.
    rewrite <- Nat.add_assoc, app_nth2_plus.
    replace (4 + i)%nat with (length maskKey + i)%nat by lia.
    rewrite app_nth2_plus.
    rewrite xorMask_nth by assumption. simpl Nat.add.
    apply xor_plain; [|apply nth_isByte; assumption].
    rewrite Forall_forall in Hbp. apply Hbp, list_elem_of_In, nth_In, Hi.
  - rewrite Hfr. replace (hdr + 4)%nat with (length (hd ++ maskKey))
      by (rewrite length_app; lia).
    rewrite app_assoc, skipn_app, Nat.sub_diag, skipn_all. simpl.
    now apply xorMask_involutive.
Qed.

Lemma sendWebSocketFrame_masked_witness :
  Z.land (nth 1 (encodeFrame sampleMask [104; 105; -61]) 0) 128 = 128
  /\ firstn 4 (skipn 2 (encodeFrame sampleMask [104; 105; -61])) = sampleMask
  /\ xorMask sampleMask 0 (skipn 6 (encodeFrame sampleMask [104; 105; -61])) = [104; 105; -61].
Proof.
  destruct (sendWebSocketFrame_masked [] sampleMask [104; 105; -61])
    as (_ & H1 & H2 & _ & _ & H3).
  - reflexivity.
  - apply forallb_isByte. vm_compute. reflexivity.
  - apply forallb_isByte. vm_compute. reflexivity.
  - exact (conj H1 (conj H2 H3)).
Defined.

(** C1 (the code at the failing size): a payload of 65536 bytes is framed
    with the marker 126 and the 16-bit length 0, not with the marker 127
    and a 64-bit length, and the decoder reads the frame back as the empty
    text, which is not the payload. *)
Theorem encode_65536_not_decoded (maskKey payload : ByteArray) :
  length maskKey = 4%nat -> Forall isByte maskKey -> Forall isByte payload ->
  Z.of_nat (length payload) = 65536 ->
  firstn 4 (encodeFrame maskKey payload) = [toByte 129; toByte 254; 0; 0]
  /\ decodeEncoded maskKey payload = Returned (Some [])
  /\ decodeEncoded maskKey payload <> Returned (Some payload).
Proof.
  intros Hk Hbk Hbp Hs.
  assert (Hd : decodeEncoded maskKey payload = Returned (Some [])).
  { rewrite decodeEncoded_spec by assumption. rewrite Hs. reflexivity. }
  split; [|split].
  - unfold encodeFrame. rewrite Hs. reflexivity.
  - exact Hd.
  - rewrite Hd. intros Heq. injection Heq as Heq. subst payload. discriminate Hs.
Qed.

Lemma encode_65536_not_decoded_witness :
  firstn 4 (encodeFrame sampleMask payload65536) = [toByte 129; toByte 254; 0; 0]
  /\ decodeEncoded sampleMask payload65536 = Returned (Some [])
  /\ decodeEncoded sampleMask payload65536 <> Returned (Some payload65536).
Proof.
  apply encode_65536_not_decoded.
  - reflexivity.
  - apply forallb_isByte. vm_compute. reflexivity.
  - apply forallb_isByte. vm_compute. reflexivity.
  - vm_compute. reflexivity.
Defined.

End FrameCodecFacts.

(** ** Facts about the pairing session *)

Module SessionFacts.
Import Str TokenRepository Session.
Local Open Scope nat_scope.



(** A frame from the television is what the attempt sees. *)
Lemma attemptOfWire_unauthorized :
  attemptOfWire (serverTextFrame unauthorizedMessage)
  = FirstMessage (Some unauthorizedMessage).
Proof. vm_compute. reflexivity. Qed.

Lemma attemptOfWire_silent : attemptOfWire [] = FirstMessage None.
Proof. reflexivity. Qed.

(** *** The token store *)

Lemma key_last_ip_not_token (x : string) : KEY_LAST_IP <> (KEY_PREFIX ++ x)%string.
Proof. unfold KEY_LAST_IP, KEY_PREFIX. simpl. discriminate. Qed.

Lemma token_key_inj (x y : string) :
  (KEY_PREFIX ++ x)%string = (KEY_PREFIX ++ y)%string -> x = y.
Proof. unfold KEY_PREFIX. simpl. intros H. now injection H. Qed.

Lemma getToken_setLastConnectedIp (x ip : string) (p : gmap string string) :
  getToken x (setLastConnectedIp ip p) = getToken x p.
Proof.
  unfold getToken, setLastConnectedIp.
  apply lookup_insert_ne, key_last_ip_not_token.
Qed.

Lemma getToken_saveToken_ne (x ip tok : string) (p : gmap string string) :
  x <> ip -> getToken x (saveToken ip tok p) = getToken x p.
Proof.
  intros Hne. unfold getToken, saveToken. apply lookup_insert_ne.
  intros H. apply Hne. symmetry. now apply token_key_inj.
Qed.

Lemma getToken_clearToken (x ip : string) (p : gmap string string) :
  getToken x (clearToken ip p) = if decide (x = ip) then None else getToken x p.
Proof.
  unfold getToken, clearToken. destruct (decide (x = ip)) as [->|Hne].
  - apply lookup_delete_eq.
  - apply lookup_delete_ne. intros H. apply Hne. symmetry. now apply token_key_inj.
Qed.

Lemma prefs_saveTokenFrom (ip m : string) (c : Client) :
  prefs (saveTokenFrom ip m c)
  = match findToken m with
    | Some tok => if isBlank tok then prefs c else saveToken ip tok (prefs c)
    | None => prefs c
    end.
Proof.
  unfold saveTokenFrom. destruct (findToken m) as [tok|]; [|reflexivity].
  destruct (isBlank tok); reflexivity.
Qed.

Lemma prefs_connectRawWebSocket (ip : string) (port : Z) (a : Attempt) (c : Client) :
  prefs (snd (connectRawWebSocket ip port a c))
  = match a with
    | FirstMessage (Some m) =>
      if isChannelConnect m
      then setLastConnectedIp ip (prefs (saveTokenFrom ip m c))
      else if isChannelUnauthorized m then clearToken ip (prefs c) else prefs c
    | _ => prefs c
    end.
Proof.
  unfold connectRawWebSocket.
  destruct a as [e|[m|]|]; try reflexivity.
  destruct (isChannelConnect m); [|destruct (isChannelUnauthorized m)]; try reflexivity.
  - rewrite !prefs_saveTokenFrom. unfold saveTokenFrom.
    destruct (findToken m) as [tok|]; [destruct (isBlank tok)|];
      destruct c as [? ? [cb|] [r|] ? ? ? ? ? ? ? ? ?]; reflexivity.
  - destruct c as [? ? [cb|] [r|] ? ? ? ? ? ? ? ? ?]; reflexivity.
Qed.

Lemma prefs_giveUp (e : option string) (c : Client) : prefs (giveUp e c) = prefs c.
Proof. destruct c as [? ? [cb|] [r|] ? ? ? ? ? ? ? ? ?]; reflexivity. Qed.

Lemma prefs_connect (ip : string) (cb : nat) (c : Client) :
  prefs (snd (connect ip cb c)) = prefs c.
Proof. unfold connect. destruct (isConnecting c); reflexivity. Qed.

Lemma prefs_timeoutRunnable (c : Client) : prefs (timeoutRunnable c) = prefs c.
Proof. unfold timeoutRunnable. destruct (pendingConnectionCallback c); reflexivity. Qed.

Lemma prefs_runTask (t : Task) (c : Client) : prefs (runTask t c) = prefs c.
Proof. destruct t; reflexivity. Qed.

(** A token appears or changes only through a first message that passes
    the success test, and only for the address of that connection. *)
Lemma token_written_only_on_success (ip : string) (port : Z) (a : Attempt) (c : Client)
      (x : string) :
  getToken x (prefs (snd (connectRawWebSocket ip port a c))) <> getToken x (prefs c) ->
  is_Some (getToken x (prefs (snd (connectRawWebSocket ip port a c)))) ->
  exists m, a = FirstMessage (Some m) /\ isChannelConnect m = true /\ x = ip.
Proof.
  rewrite prefs_connectRawWebSocket.
  destruct a as [e|[m|]|]; try congruence.
  destruct (isChannelConnect m) eqn:Hc; [|destruct (isChannelUnauthorized m) eqn:Hu].
  - intros Hne _. exists m. split; [reflexivity|]. split; [assumption|].
    rewrite getToken_setLastConnectedIp, prefs_saveTokenFrom in Hne.
    destruct (decide (x = ip)) as [->|Hx]; [reflexivity|]. exfalso. apply Hne.
    destruct (findToken m) as [tok|]; [|reflexivity].
    destruct (isBlank tok); [reflexivity|]. now apply getToken_saveToken_ne.
  - rewrite getToken_clearToken. destruct (decide (x = ip)); [|congruence].
    intros _ [v Hv]. discriminate Hv.
  - congruence.
Qed.

(** Only a step of a connection thread can write a token. *)
Lemma step_token (s : System) (t : Tick) (x : string) :
  getToken x (prefs (client (step s t))) <> getToken x (prefs (client s)) ->
  is_Some (getToken x (prefs (client (step s t)))) ->
  exists i th m,
    t = Thread i (FirstMessage (Some m)) /\ threads s !! i = Some th
    /\ thread_ip th = x /\ isChannelConnect m = true.
Proof.
  destruct t as [ip| |i a| |]; unfold step.
  - pose proof (prefs_connect ip (nextCallback s) (client s)) as Hp.
    destruct (connect ip (nextCallback s) (client s)) as [[path|] c'];
      cbn [snd client] in *; rewrite Hp; congruence.
  - cbn. congruence.
  - destruct (threads s !! i) as [th|] eqn:Hth; [|congruence].
    unfold threadStep. destruct (thread_pc th) as [|e|e| |].
    + pose proof (token_written_only_on_success (thread_ip th) REMOTE_PORT_WSS a (client s) x) as H.
      destruct (connectRawWebSocket _ _ _ _) as [[| |] c']; cbn [snd client] in *;
        intros H1 H2; destruct (H H1 H2) as (m & -> & Hm & ->); eauto 10.
    + pose proof (token_written_only_on_success (thread_ip th) REMOTE_PORT_WS a (client s) x) as H.
      destruct (connectRawWebSocket _ _ _ _) as [[| |] c']; cbn [snd client] in *;
        intros H1 H2; destruct (H H1 H2) as (m & -> & Hm & ->); eauto 10.
    + cbn [client]. rewrite prefs_giveUp. congruence.
    + cbn [client]. congruence.
    + cbn [client]. congruence.
  - destruct (delayed (client s)) as [|r rest]; [congruence|].
    cbn [client]. rewrite prefs_timeoutRunnable. cbn. congruence.
  - destruct (posted (client s)) as [|t rest]; [congruence|].
    cbn [client]. rewrite prefs_runTask. cbn. congruence.
Qed.

Lemma connect_after_unauthorized (ip : string) (port : Z) (m : string) (c : Client) :
  isChannelConnect m = false -> isChannelUnauthorized m = true ->
  let c' := snd (connectRawWebSocket ip port (FirstMessage (Some m)) c) in
  getToken ip (prefs c') = None
  /\ isConnecting c' = false
  /\ forall cb, fst (connect ip cb c') = Some (connectPath None).
Proof.
  intros Hc Hu c'.
  assert (Ht : getToken ip (prefs c') = None).
  { unfold c'. rewrite prefs_connectRawWebSocket, Hc, Hu, getToken_clearToken.
    destruct (decide (ip = ip)); congruence. }
  assert (Hi : isConnecting c' = false).
  { unfold c', connectRawWebSocket. rewrite Hc, Hu.
    destruct c as [? ? [cb|] [r|] ? ? ? ? ? ? ? ? ?]; reflexivity. }
  split; [exact Ht|]. split; [exact Hi|].
  intros cb. unfold connect. rewrite Hi. cbn [fst].
  change (prefs (disconnect (setIsConnecting true c'))) with (prefs c').
  now rewrite Ht.
Qed.

(** C3 (as the code has it): a token for an address appears or changes
    only in a step of a connection thread to that address whose first
    message passes the success test (it contains ms.channel.connect or
    ms.channel.ready); a first message that contains
    ms.channel.unauthorized and does not pass the success test leaves no
    token for the address, and the next [connect] to it builds the
    handshake path without a token parameter. *)
Theorem token_store_invariant (s : System) (t : Tick) (x : string)
        (ip : string) (port : Z) (m : string) (c : Client) :
  (getToken x (prefs (client (step s t))) <> getToken x (prefs (client s)) ->
   is_Some (getToken x (prefs (client (step s t)))) ->
   exists i th m',
     t = Thread i (FirstMessage (Some m')) /\ threads s !! i = Some th
     /\ thread_ip th = x /\ isChannelConnect m' = true)
  /\ (isChannelConnect m = false -> isChannelUnauthorized m = true ->
      let c' := snd (connectRawWebSocket ip port (FirstMessage (Some m)) c) in
      getToken ip (prefs c') = None
      /\ forall cb, fst (connect ip cb c') = Some (connectPath None))
  /\ connectPath None
     = "/api/v2/channels/samsung.remote.control?name=VW5pdmVyc2FsIFRWIFJlbW90ZQ=="%string
  /\ contains (connectPath None) "token" = false.
Proof.
  split; [apply step_token|]. split; [|split; reflexivity].
  intros Hc Hu c'. destruct (connect_after_unauthorized ip port m c Hc Hu) as (H1 & _ & H2).
  split; assumption.
Qed.

Lemma token_store_invariant_witness :
  (exists i th m',
     Thread 0 (FirstMessage (Some connectMessage)) = Thread i (FirstMessage (Some m'))
     /\ threads afterConnect !! i = Some th
     /\ thread_ip th = tvIp /\ isChannelConnect m' = true)
  /\ getToken tvIp pairedClient.(prefs) = Some "abc"%string
  /\ getToken tvIp
       (prefs (snd (connectRawWebSocket tvIp REMOTE_PORT_WSS
                      (FirstMessage (Some unauthorizedMessage)) pairedClient))) = None
  /\ fst (connect tvIp 1
           (snd (connectRawWebSocket tvIp REMOTE_PORT_WSS
                   (FirstMessage (Some unauthorizedMessage)) pairedClient)))
     = Some (connectPath None).
Proof.
  destruct (token_store_invariant afterConnect
              (Thread 0 (FirstMessage (Some connectMessage))) tvIp
              tvIp REMOTE_PORT_WSS unauthorizedMessage pairedClient)
    as (H1 & H2 & _).
  split.
  - apply H1.
    + vm_compute. discriminate.
    + vm_compute. eauto.
  - split; [vm_compute; reflexivity|].
    destruct H2 as [H2 H3]; [vm_compute; reflexivity | vm_compute; reflexivity |].
    split; [exact H2 | exact (H3 1)].
Defined.

(** C3 (refuted as written): a first message that says
    ms.channel.unauthorized and also contains a word of the success test
    is handled by the success branch, which comes first.  The stored
    token is kept, or replaced by the token field of the message, and the
    next [connect] to the address sends it. *)
Lemma unauthorized_with_success_marker :
  (isChannelUnauthorized deniedWithMarker = true
   /\ isChannelConnect deniedWithMarker = true
   /\ getToken tvIp (prefs pairedClient) = Some "abc"%string
   /\ getToken tvIp (prefs afterDeniedWithMarker) = Some "abc"%string
   /\ fst (connect tvIp 1 afterDeniedWithMarker) = Some (connectPath (Some "abc"%string))
   /\ contains (connectPath (Some "abc"%string)) "&token=abc" = true)
  /\ (isChannelUnauthorized deniedWithToken = true
      /\ isChannelConnect deniedWithToken = true
      /\ getToken tvIp (prefs afterDeniedWithToken) = Some "evil"%string
      /\ fst (connect tvIp 1 afterDeniedWithToken) = Some (connectPath (Some "evil"%string))).
Proof. vm_compute. repeat split. Qed.

End SessionFacts.

(** ** Facts about the subnet scans *)

Module SubnetFacts.
Import Str Subnet.
Local Open Scope string_scope.

Lemma splitDots_nonempty (s : string) : splitDots s <> [].
Proof.
  induction s as [|c s IH]; simpl; [discriminate|].
  destruct (Ascii.eqb c "."); [discriminate|].
  destruct (splitDots s); discriminate.
Qed.

Lemma joinDots_push (c : ascii) (p : string) (ps : list string) :
  joinDots (String c p :: ps) = String c (joinDots (p :: ps)).
Proof. destruct ps; reflexivity. Qed.

Lemma joinDots_empty_head (p : string) (ps : list string) :
  joinDots (EmptyString :: p :: ps) = String "." (joinDots (p :: ps)).
Proof. reflexivity. Qed.

(** Joining the pieces with dots gives the string back. *)
Lemma joinDots_splitDots (s : string) : joinDots (splitDots s) = s.
Proof.
  induction s as [|c s IH]; [reflexivity|].
  pose proof (splitDots_nonempty s) as Hne.
  cbn [splitDots].
  destruct (splitDots s) as [|p ps]; [congruence|].
  destruct (Ascii.eqb_spec c ".") as [->|Hc].
  - now rewrite joinDots_empty_head, IH.
  - now rewrite joinDots_push, IH.
Qed.

Lemma append_cons (c : ascii) (a b : string) : String c a ++ b = String c (a ++ b).
Proof. reflexivity. Qed.

Lemma append_inv_head (s a b : string) : s ++ a = s ++ b -> a = b.
Proof.
  induction s as [|c s IH]; [auto|]. rewrite !append_cons. intros H. injection H as H. auto.
Qed.

Lemma append_assoc (a b c : string) : (a ++ b) ++ c = a ++ b ++ c.
Proof.
  induction a as [|x a IH]; [reflexivity|]. rewrite !append_cons. now rewrite IH.
Qed.

(** An address of four pieces is its first three pieces, a dot, and the
    last piece. *)
Lemma four_pieces (ip p0 p1 p2 p3 : string) :
  splitDots ip = [p0; p1; p2; p3] ->
  ip = (p0 ++ "." ++ p1 ++ "." ++ p2) ++ "." ++ p3.
Proof.
  intros H. rewrite <- (joinDots_splitDots ip), H. simpl joinDots.
  now rewrite !append_assoc.
Qed.

Lemma in_range (i lo : Z) (n : nat) :
  In i (range lo n) <-> (lo <= i < lo + Z.of_nat n)%Z.
Proof.
  revert lo. induction n as [|n IH]; intros lo; simpl range.
  - simpl. lia.
  - simpl In. rewrite IH. lia.
Qed.

Lemma readsBack_all (i : Z) : (1 <= i <= 60)%Z -> readsBack i = true.
Proof.
  intros Hi.
  refine (FrameCodecFacts.forall_range readsBack 1 61 _ i _); [vm_compute; reflexivity | lia].
Qed.

Lemma toIntOrNull_intToString (i : Z) :
  (1 <= i <= 60)%Z -> toIntOrNull (intToString i) = Some i.
Proof.
  intros Hi. pose proof (readsBack_all i Hi) as H. unfold readsBack in H.
  destruct (toIntOrNull (intToString i)) as [a|]; [|discriminate].
  destruct (parseInt (intToString i)) as [b|]; [|discriminate].
  apply andb_true_iff in H as [H _]. apply Z.eqb_eq in H. now subst.
Qed.

Lemma parseInt_intToString (i : Z) :
  (1 <= i <= 60)%Z -> parseInt (intToString i) = Some i.
Proof.
  intros Hi. pose proof (readsBack_all i Hi) as H. unfold readsBack in H.
  destruct (toIntOrNull (intToString i)) as [a|]; [|discriminate].
  destruct (parseInt (intToString i)) as [b|]; [|discriminate].
  apply andb_true_iff in H as [_ H]. apply Z.eqb_eq in H. now subst.
Qed.

Lemma to_int_not_nil (z : Z) :
  Z.to_int z <> Decimal.Pos Decimal.Nil /\ Z.to_int z <> Decimal.Neg Decimal.Nil.
Proof.
  split; intros H; pose proof (DecimalZ.of_to z) as Hz; rewrite H in Hz;
    simpl in Hz; subst z; discriminate H.
Qed.

Lemma intToString_inj (a b : Z) : intToString a = intToString b -> a = b.
Proof.
  unfold intToString. intros H. apply DecimalZ.to_int_inj.
  destruct (to_int_not_nil a) as [Ha1 Ha2]. destruct (to_int_not_nil b) as [Hb1 Hb2].
  pose proof (DecimalString.NilZero.isi _ Ha1 Ha2) as Ia.
  pose proof (DecimalString.NilZero.isi _ Hb1 Hb2) as Ib.
  rewrite H in Ia. congruence.
Qed.

Lemma In_insertSorted (x y : string) (l : list string) :
  In x (insertSorted y l) <-> x = y \/ In x l.
Proof.
  induction l as [|z l IH]; simpl.
  - intuition.
  - destruct (String.leb y z); simpl; [intuition|]. rewrite IH. intuition.
Qed.

Lemma In_sorted (x : string) (l : list string) : In x (sorted l) <-> In x l.
Proof.
  induction l as [|y l IH]; simpl; [reflexivity|].
  rewrite In_insertSorted, IH. intuition.
Qed.

(** A generated probe is the subnet, a dot, and the rendering of a
    counter the filter let through. *)
Lemma in_probes (subnet : string) (keep : Z -> bool) (n : nat) (x : string) :
  In x (map (fun i => subnet ++ "." ++ intToString i) (List.filter keep (range 1 n))) ->
  exists i, x = subnet ++ "." ++ intToString i /\ (1 <= i < 1 + Z.of_nat n)%Z
            /\ keep i = true.
Proof.
  intros H. apply in_map_iff in H as (i & <- & Hi).
  apply filter_In in Hi as [Hr Hk]. apply in_range in Hr. eauto.
Qed.

(** The native scan never probes the device's own address. *)
Lemma probeAddresses_not_self (deviceIp : string) :
  ~ In deviceIp (probeAddresses deviceIp).
Proof.
  unfold probeAddresses.
  destruct (splitDots deviceIp) as [|p0 [|p1 [|p2 [|p3 [|]]]]] eqn:Hs; try (intros []).
  destruct (toIntOrNull p3) as [n|] eqn:Hn; [|intros []].
  intros H. apply (in_probes _ _ 60) in H as (i & Hx & Hi & Hk).
  rewrite (four_pieces _ _ _ _ _ Hs) in Hx. apply append_inv_head in Hx.
  apply append_inv_head in Hx. subst p3.
  rewrite toIntOrNull_intToString in Hn by lia. injection Hn as <-.
  rewrite Z.eqb_refl in Hk. discriminate.
Qed.

(** Neither does the list the registry generates. *)
Lemma generateSubnetIps_not_self (deviceIp : string) :
  ~ In deviceIp (generateSubnetIps deviceIp).
Proof.
  unfold generateSubnetIps.
  destruct (splitDots deviceIp) as [|p0 [|p1 [|p2 [|p3 [|]]]]] eqn:Hs; try (intros []).
  intros H. apply (in_probes _ _ 50) in H as (i & Hx & Hi & Hk).
  rewrite (four_pieces _ _ _ _ _ Hs) in Hx. apply append_inv_head in Hx.
  apply append_inv_head in Hx. subst p3.
  rewrite parseInt_intToString in Hk by lia.
  rewrite Z.eqb_refl in Hk. discriminate.
Qed.

(** C9: for every device address, the probe set of the native scan
    (last octets 1 to 60), the addresses that scan returns, and the list
    the registry generates (last octets 1 to 50) do not contain the
    address itself; and when the address has four dot-separated pieces
    whose last one reads as the number [n], no probe is the subnet followed
    by [n]. *)
Theorem subnet_scan_excludes_own_address
        (deviceIp : string) (answered : string -> bool) :
  ~ In deviceIp (probeAddresses deviceIp)
  /\ ~ In deviceIp (scanSubnetForTvPorts (Some deviceIp) answered)
  /\ ~ In deviceIp (generateSubnetIps deviceIp)
  /\ (forall p0 p1 p2 p3 n,
        splitDots deviceIp = [p0; p1; p2; p3] ->
        (toIntOrNull p3 = Some n ->
         ~ In ((p0 ++ "." ++ p1 ++ "." ++ p2) ++ "." ++ intToString n)
              (probeAddresses deviceIp))
        /\ (parseInt p3 = Some n ->
            ~ In ((p0 ++ "." ++ p1 ++ "." ++ p2) ++ "." ++ intToString n)
                 (generateSubnetIps deviceIp))).
Proof.
  split; [apply probeAddresses_not_self|]. split; [|split].
  - unfold scanSubnetForTvPorts. rewrite In_sorted, filter_In.
    intros [H _]. now apply probeAddresses_not_self in H.
  - apply generateSubnetIps_not_self.
  - intros p0 p1 p2 p3 n Hs. unfold probeAddresses, generateSubnetIps. rewrite Hs.
    split; intros Hn; rewrite Hn; intros H;
      apply in_probes in H as (i & Hx & Hi & Hk);
      do 2 apply append_inv_head in Hx; apply intToString_inj in Hx; subst i;
      rewrite Z.eqb_refl in Hk; discriminate.
Qed.

Lemma subnet_scan_excludes_own_address_witness :
  splitDots "192.168.1.23" = ["192"; "168"; "1"; "23"]
  /\ length (probeAddresses "192.168.1.23") = 59%nat
  /\ length (generateSubnetIps "192.168.1.23") = 49%nat
  /\ ~ In "192.168.1.23" (probeAddresses "192.168.1.23")
  /\ ~ In "192.168.1.23" (generateSubnetIps "192.168.1.23").
Proof.
  destruct (subnet_scan_excludes_own_address "192.168.1.23" (fun _ => true))
    as (_ & _ & _ & H).
  destruct (H "192" "168" "1" "23" 23%Z) as [H1 H2]; [vm_compute; reflexivity|].
  split; [vm_compute; reflexivity|]. split; [vm_compute; reflexivity|].
  split; [vm_compute; reflexivity|]. split.
  - apply H1. vm_compute. reflexivity.
  - apply H2. vm_compute. reflexivity.
Defined.

End SubnetFacts.

(** ** Facts about the registry *)

Module RegistryFacts.
Import Types Registry.
Local Open Scope string_scope.

Lemma brand_eqb_eq (a b : TvBrand) : brand_eqb a b = true <-> a = b.
Proof. destruct a, b; simpl; split; intros H; congruence. Qed.

Lemma getHandler_none (d : TvDevice) (r : HandlerRegistry) :
  (forall h, In h (handlers r) -> handlerBrand h <> brand d) -> getHandler d r = None.
Proof.
  unfold getHandler. induction (handlers r) as [|h hs IH]; intros Hall; [reflexivity|].
  simpl. destruct (brand_eqb (handlerBrand h) (brand d)) eqn:E.
  - apply brand_eqb_eq in E. exfalso. apply (Hall h); [now left | exact E].
  - apply IH. intros h' Hin. apply Hall. now right.
Qed.

(** C5: when no registered handler has the device's brand,
    [connect(device)] rejects with the no-handler message, makes no call
    on any handler, and leaves the registry as it was: active handler,
    active device and event subscription included. *)
Theorem connect_unregistered_brand (d : TvDevice) (r : HandlerRegistry) :
  (forall h, In h (handlers r) -> handlerBrand h <> brand d) ->
  exists message,
    connect d r = (Rejected message, r, [])
    /\ message = "No handler available for brand: " ++ brandName (brand d)
    /\ String.prefix "No handler available" message = true.
Proof.
  intros Hall. eexists. unfold connect. rewrite (getHandler_none d r Hall).
  split; [reflexivity|]. split; reflexivity.
Qed.

Lemma connect_unregistered_brand_witness :
  exists message,
    connect rokuDevice connectedRegistry
    = (Rejected message,
       connectedRegistry, [])
    /\ message = "No handler available for brand: roku"
    /\ String.prefix "No handler available" message = true.
Proof.
  apply (connect_unregistered_brand rokuDevice).
  intros h Hin. vm_compute in Hin. destruct Hin as [<-|[]]. discriminate.
Defined.

(** C6: with no active handler, [sendKey], [sendRawKey] and [launchApp]
    resolve to false without calling anything; with an active handler
    that lacks the optional method, [sendRawKey] and [launchApp] do the
    same. *)
Theorem send_without_session (r : HandlerRegistry) (key appId : string) :
  (activeHandler r = None ->
   sendKey key r = (Resolved false, [])
   /\ sendRawKey key r = (Resolved false, [])
   /\ launchApp appId r = (Resolved false, []))
  /\ (forall h, activeHandler r = Some h ->
       (h_sendRawKey h = None -> sendRawKey key r = (Resolved false, []))
       /\ (h_launchApp h = None -> launchApp appId r = (Resolved false, []))).
Proof.
  unfold sendKey, sendRawKey, launchApp. split.
  - intros ->. repeat split.
  - intros h ->. split; intros ->; reflexivity.
Qed.

Lemma send_without_session_witness :
  (sendKey "volume_up" emptyRegistry = (Resolved false, [])
   /\ sendRawKey "KEY_NETFLIX" emptyRegistry = (Resolved false, [])
   /\ launchApp "111299001912" emptyRegistry = (Resolved false, []))
  /\ sendRawKey "KEY_NETFLIX"
       connectedRegistry
     = (Resolved false, [])
  /\ launchApp "111299001912"
       connectedRegistry
     = (Resolved false, []).
Proof.
  split.
  - apply (send_without_session emptyRegistry "volume_up" "111299001912"). reflexivity.
  - destruct (send_without_session
                connectedRegistry
                "KEY_NETFLIX" "111299001912") as [_ H].
    destruct (H plainHandler) as [H1 H2]; [reflexivity|].
    split; [apply H1 | apply H2]; reflexivity.
Defined.

End RegistryFacts.

(** ** Facts about the Samsung handler *)

Module SamsungFacts.
Import Str Types Samsung.
Local Open Scope string_scope.

(** The map has exactly the standard keys, in the order of the type. *)
Lemma supported_keys_are_standard :
  SAMSUNG_SUPPORTED_KEYS = map keyName allStandardKeys.
Proof. reflexivity. Qed.

Lemma allStandardKeys_complete (k : StandardRemoteKey) : In k allStandardKeys.
Proof. destruct k; simpl; tauto. Qed.

(** C10: every standard key has a non-empty code in [SAMSUNG_KEY_MAP] and
    is among [getSupportedKeys()]; so on Android with the native module
    present [sendKey] never takes the branch for a missing code: it calls
    the native module with the code of the key. *)
Theorem samsung_key_map_total (k : StandardRemoteKey) :
  exists code,
    lookup (keyName k) SAMSUNG_KEY_MAP = Some code
    /\ code <> ""
    /\ In (keyName k) getSupportedKeys
    /\ (forall p native,
          OS p = "android" -> SamsungTvRemote p = Some native ->
          snd (sendKey p (keyName k)) = Sent code).
Proof.
  assert (Hin : In (keyName k) getSupportedKeys).
  { unfold getSupportedKeys. rewrite supported_keys_are_standard.
    apply in_map, allStandardKeys_complete. }
  destruct k; eexists; (split; [reflexivity|]); (split; [discriminate|]);
    (split; [exact Hin|]); intros p native Hos Hn; unfold sendKey; rewrite Hos, Hn;
    cbn; destruct (native_sendKey native _); reflexivity.
Qed.

Lemma samsung_key_map_total_witness :
  exists code,
    lookup "volume_up" SAMSUNG_KEY_MAP = Some code
    /\ code <> ""
    /\ sendKey androidPlatform "volume_up" = (true, Sent code).
Proof.
  destruct (samsung_key_map_total volume_up) as (code & H1 & H2 & _ & H3).
  exists code. split; [exact H1|]. split; [exact H2|].
  specialize (H3 androidPlatform _ eq_refl eq_refl).
  destruct (sendKey androidPlatform (keyName volume_up)) as [b path] eqn:E.
  simpl in H3. subst path. vm_compute in E. injection E as <- <-. reflexivity.
Defined.

(** C7 (as the code has it): the scenario body gives a device with port
    8002 and the default OS label; [identify] never rejects; it resolves to
    null when the fetch fails, when the status is not a success, when the
    body does not parse, and when none of its three tests holds (device
    type equal to the identifying string, device name mentioning samsung,
    top-level type mentioning samsung); otherwise it resolves to a device
    with port 8002. *)
Theorem identify_spec (ip : string) (f : FetchOutcome) :
  (exists d, identify ip (FetchResponse 200 (Some livingRoomBody)) = Resolved (Some d)
             /\ port d = Some 8002%Z /\ os d = JString "Tizen" /\ Types.ip d = ip)
  /\ (exists r, identify ip f = Resolved r)
  /\ (f = FetchRejected -> identify ip f = Resolved None)
  /\ (forall status json,
        f = FetchResponse status json -> (status < 200 \/ 299 < status)%Z ->
        identify ip f = Resolved None)
  /\ (forall status, f = FetchResponse status None -> identify ip f = Resolved None)
  /\ (forall status data,
        f = FetchResponse status (Some data) ->
        isSmartTvType (optProp (optProp data "device") "type") = false ->
        mentionsSamsung (optProp (optProp data "device") "name") = false ->
        mentionsSamsung (optProp data "type") = false ->
        identify ip f = Resolved None)
  /\ (forall status data,
        f = FetchResponse status (Some data) -> (200 <= status <= 299)%Z ->
        isSmartTvType (optProp (optProp data "device") "type") = true
        \/ mentionsSamsung (optProp (optProp data "device") "name") = true
        \/ mentionsSamsung (optProp data "type") = true ->
        exists d, identify ip f = Resolved (Some d) /\ port d = Some 8002%Z).
Proof.
  split; [|split; [|split; [|split; [|split; [|split]]]]].
  - eexists. split; [reflexivity|]. repeat split.
  - destruct f as [|status [data|]]; simpl; [eauto| |destruct (ok status); eauto].
    destruct (ok status); simpl; [|eauto]. destruct (isSamsung data); simpl; eauto.
  - intros ->. reflexivity.
  - intros status json -> Hs. simpl.
    assert (Hok : ok status = false) by (unfold ok; lia). now rewrite Hok.
  - intros status ->. simpl. destruct (ok status); reflexivity.
  - intros status data -> H1 H2 H3. simpl. destruct (ok status); simpl; [|reflexivity].
    unfold isSamsung. now rewrite H1, H2, H3.
  - intros status data -> Hs Ht. simpl.
    assert (Hok : ok status = true) by (unfold ok; lia). rewrite Hok. simpl.
    assert (Hi : isSamsung data = true).
    { unfold isSamsung. destruct Ht as [-> | [-> | ->]];
        rewrite ?orb_true_r; reflexivity. }
    rewrite Hi. simpl. eexists. split; reflexivity.
Qed.

Lemma identify_spec_witness :
  identify "10.0.0.5" FetchRejected = Resolved None
  /\ identify "10.0.0.5" (FetchResponse 404 (Some livingRoomBody)) = Resolved None
  /\ identify "10.0.0.5"
       (FetchResponse 200 (Some (JObject [("device", JObject [("name", JString "LG TV");
                                                              ("type", JString "LG")])])))
     = Resolved None
  /\ exists d, identify "10.0.0.5" (FetchResponse 200 (Some soundbarBody))
               = Resolved (Some d) /\ port d = Some 8002%Z.
Proof.
  split; [|split; [|split]].
  - apply (identify_spec "10.0.0.5" FetchRejected). reflexivity.
  - destruct (identify_spec "10.0.0.5" (FetchResponse 404 (Some livingRoomBody)))
      as (_ & _ & _ & H & _).
    apply (H 404%Z (Some livingRoomBody)); [reflexivity | lia].
  - destruct (identify_spec "10.0.0.5"
               (FetchResponse 200 (Some (JObject [("device",
                  JObject [("name", JString "LG TV"); ("type", JString "LG")])]))))
      as (_ & _ & _ & _ & _ & H & _).
    eapply H; [reflexivity | vm_compute; reflexivity ..].
  - destruct (identify_spec "10.0.0.5" (FetchResponse 200 (Some soundbarBody)))
      as (_ & _ & _ & _ & _ & _ & H).
    apply (H 200%Z soundbarBody); [reflexivity | lia |].
    right. left. vm_compute. reflexivity.
Defined.

(** C7 (refuted as written): the device type of [soundbarBody]
    is not the identifying string, yet [identify] returns a device, because
    the device name mentions samsung. *)
Lemma identify_soundbar_is_device :
  isSmartTvType (optProp (optProp soundbarBody "device") "type") = false
  /\ identify "10.0.0.5" (FetchResponse 200 (Some soundbarBody))
     = Resolved (Some (deviceFrom "10.0.0.5" soundbarBody))
  /\ ~ typeAloneDecides.
Proof.
  split; [reflexivity|]. split; [reflexivity|].
  intros H. specialize (H "10.0.0.5" soundbarBody eq_refl). discriminate H.
Qed.

End SamsungFacts.

(** ** Facts about decoding the television's frames *)

Module PeerFacts.
Import KotlinInt FrameCodec FrameCodecFacts Peer.

Lemma land_toByte (x : Z) : Z.land (toByte x) 255 = x mod 256.
Proof.
  change 255 with (Z.ones 8). rewrite Z.land_ones by lia.
  unfold toByte, wrap. change (2 ^ 8) with 256. change (2 ^ (8 - 1)) with 128.
  rewrite Zminus_mod, Zmod_mod, <- Zminus_mod. f_equal. lia.
Qed.

(** [(a shl 8) or b] is [a * 256 + b] for a byte [b]. *)
Lemma lor_shift8 (a b : Z) : 0 <= a -> 0 <= b < 256 -> Z.lor (Z.shiftl a 8) b = a * 256 + b.
Proof.
  intros Ha Hb. rewrite Z.shiftl_mul_pow2 by lia.
  assert (H0 : Z.land (a * 2 ^ 8) b = 0).
  { apply Z.bits_inj'; intros n Hn. rewrite Z.land_spec, Z.bits_0.
    destruct (Z.ltb_spec n 8).
    - rewrite Z.mul_pow2_bits_low by lia. reflexivity.
    - rewrite (Z.bits_above_log2 b n); [apply andb_false_r | lia |].
      destruct (Z.eq_dec b 0) as [->|]; [simpl; lia|].
      apply Z.log2_lt_pow2; [lia|].
      apply Z.lt_le_trans with (2 ^ 8); [simpl; lia | apply Z.pow_le_mono_r; lia]. }
  rewrite <- Z.lxor_lor, <- Z.add_nocarry_lxor by assumption. reflexivity.
Qed.

(** The loop over the 64-bit length field reads a big-endian number. *)
Lemma readLength64_bigEndian (k : nat) (n acc : Z) (rest : list Z) :
  0 <= acc -> 0 <= n -> acc * 2 ^ (8 * Z.of_nat k) + n mod 2 ^ (8 * Z.of_nat k) < 2 ^ 63 ->
  readLength64 k acc (bigEndian k n ++ rest)
  = (acc * 2 ^ (8 * Z.of_nat k) + n mod 2 ^ (8 * Z.of_nat k), rest).
Proof.
  revert acc. induction k as [|k IH]; intros acc Hacc Hn Hb.
  - simpl. rewrite Z.mod_1_r. f_equal. lia.
  - cbn [bigEndian app readLength64 read]. rewrite land_toByte.
    rewrite Z.shiftr_div_pow2 by lia.
    set (P := 2 ^ (8 * Z.of_nat k)) in *.
    assert (HP : 0 < P) by (apply Z.pow_pos_nonneg; lia).
    assert (HPS : 2 ^ (8 * Z.of_nat (S k)) = 256 * P).
    { replace (8 * Z.of_nat (S k)) with (8 + 8 * Z.of_nat k) by lia.
      rewrite Z.pow_add_r by lia. reflexivity. }
    rewrite HPS in *.
    assert (Hsplit : n mod (256 * P) = (n / P) mod 256 * P + n mod P).
    { rewrite (Z.mul_comm 256 P), Z.rem_mul_r by lia. lia. }
    assert (Hm1 : 0 <= (n / P) mod 256 < 256) by (apply Z.mod_pos_bound; lia).
    assert (Hm2 : 0 <= n mod P < P) by (apply Z.mod_pos_bound; lia).
    assert (Hacc256 : acc * 256 + (n / P) mod 256 < 2 ^ 63) by nia.
    assert (Htl : toLong (Z.shiftl acc 8) = Z.shiftl acc 8).
    { unfold toLong. apply wrap_small; [lia|].
      rewrite Z.shiftl_mul_pow2 by lia. change (2 ^ 8) with 256.
      change (2 ^ (64 - 1)) with (2 ^ 63). lia. }
    rewrite Htl, lor_shift8 by lia.
    rewrite IH by nia. f_equal. rewrite Hsplit. lia.
Qed.

(** The header the decoder reads from a frame the television wrote: the
    opcode and FIN bit of [byte1], no mask, and the length of the
    payload, whichever of the three length encodings was used. *)
Lemma readHeader_peer (byte1 n : Z) (rest : list Z) :
  0 <= n <= 2147483647 ->
  readHeader (byte1 :: lengthField n ++ rest)
  = Some (mkHeader (Z.land (Z.land byte1 255) 15)
                   (negb (Z.land (Z.land byte1 255) 128 =? 0)) false n rest).
Proof.
  intros Hn. unfold readHeader, lengthField. cbn [read].
  assert (H1 : (Z.land byte1 255 =? -1) = false).
  { apply Z.eqb_neq. pose proof (Z.land_nonneg byte1 255). lia. }
  rewrite H1. cbv iota beta.
  destruct (n <=? 125) eqn:E1.
  - cbn [app read].
    assert (Hc : ((Z.land n 255 =? n) && (Z.land n 127 =? n) && (Z.land n 128 =? 0)) = true).
    { refine (forall_range
                (fun n => (Z.land n 255 =? n) && (Z.land n 127 =? n) && (Z.land n 128 =? 0))
                0 126 _ n _); [vm_compute; reflexivity | lia]. }
    rewrite !andb_true_iff, !Z.eqb_eq in Hc. destruct Hc as [[Ha Hb] Hc].
    rewrite Ha, Hb, Hc.
    destruct (n =? -1) eqn:E2; [lia|]. destruct (n =? 126) eqn:E3; [lia|].
    destruct (n =? 127) eqn:E4; [lia|]. reflexivity.
  - destruct (n <=? 65535) eqn:E2.
    + cbn [app read bigEndian]. change (Z.land 126 255) with 126.
      change (126 =? -1) with false. change (Z.land 126 127 =? 126) with true.
      change (Z.land 126 128 =? 0) with true. cbv iota beta.
      rewrite !land_toByte, !Z.shiftr_div_pow2 by lia.
      change (2 ^ (8 * Z.of_nat 1)) with 256. change (2 ^ (8 * Z.of_nat 0)) with 1.
      rewrite Z.div_1_r.
      assert (0 <= n / 256 < 256)
        by (split; [apply Z.div_pos; lia | apply Z.div_lt_upper_bound; lia]).
      rewrite (Z.mod_small (n / 256)) by lia.
      assert (0 <= n mod 256 < 256) by (apply Z.mod_pos_bound; lia).
      assert (Hs : toInt (Z.shiftl (n / 256) 8) = Z.shiftl (n / 256) 8).
      { apply toInt_small. rewrite Z.shiftl_mul_pow2 by lia. change (2 ^ 8) with 256. lia. }
      rewrite Hs, lor_shift8 by lia.
      simpl negb. do 3 f_equal. pose proof (Z.div_mod n 256). lia.
    + cbn [app read]. change (Z.land 127 255) with 127.
      change (127 =? -1) with false. change (Z.land 127 127 =? 126) with false.
      change (Z.land 127 127 =? 127) with true.
      change (Z.land 127 128 =? 0) with true. cbv iota beta.
      rewrite readLength64_bigEndian; simpl Z.mul; rewrite ?Z.mod_small; try lia.
      simpl. reflexivity.
Qed.

Lemma frame_length (byte1 : Z) (p : list Z) : (2 <= length (frame byte1 p))%nat.
Proof.
  unfold frame, lengthField.
  destruct (_ <=? 125); [simpl; lia|]. destruct (_ <=? 65535); simpl; lia.
Qed.



(** X1: a stream that starts with a frame [sendWebSocketFrame] wrote for
    a payload of at most 65535 bytes is read back by [readWebSocketFrame]
    as that payload; the decoder takes exactly the frame off the stream,
    leaves what follows it untouched, writes nothing, and allocates the
    mask key and the payload buffer and nothing else. *)
Theorem encoded_frame_read_back (k p rest out al : list Z) :
  length k = 4%nat -> Forall isByte k -> Forall isByte p ->
  Z.of_nat (length p) <= 65535 ->
  readWebSocketFrame (mkSocket (sendWebSocketFrame [] k p ++ rest) out al)
  = (Returned (Some p), mkSocket rest out (al ++ [4; Z.of_nat (length p)])).
Proof.
  intros Hk Hbk Hbp Hs.
  unfold readWebSocketFrame, sendWebSocketFrame. cbn [input app].
  unfold encodeFrame. set (size := Z.of_nat (length p)) in *.
  assert (Hrest : forall n, n = length p ->
            firstn n (xorMask k 0 p ++ rest) = xorMask k 0 p
            /\ skipn n (xorMask k 0 p ++ rest) = rest).
  { intros n ->. rewrite <- (xorMask_length k 0 p).
    rewrite firstn_app, skipn_app, Nat.sub_diag, firstn_all, skipn_all.
    now rewrite app_nil_r. }
  destruct (Hrest _ eq_refl) as [Hf Hsk].
  destruct (size <=? 125) eqn:E.
  - cbn [app]. rewrite <- !app_assoc.
    erewrite readWebSocketFrame_fuel_text with (n := length p) (k := k)
                                               (rest := xorMask k 0 p ++ rest);
      [ | cbn [input]; apply readHeader_literal; lia | reflexivity | reflexivity
        | reflexivity | assumption | reflexivity | lia
        | rewrite length_app, xorMask_length; lia ].
    rewrite Hf, Hsk, xorMask_involutive by assumption.
    cbn [output allocated]. now rewrite <- app_assoc.
  - cbn [app]. rewrite <- !app_assoc.
    assert (Hm : size mod 65536 = size) by (apply Z.mod_small; lia).
    erewrite readWebSocketFrame_fuel_text
      with (n := length p) (k := k) (rest := xorMask k 0 p ++ rest);
      [ | cbn [input]; apply (readHeader_short size (k ++ xorMask k 0 p ++ rest)); lia
        | reflexivity | reflexivity | reflexivity | assumption
        | cbn [payloadLength]; lia | lia
        | rewrite length_app, xorMask_length; lia ].
    rewrite Hf, Hsk, xorMask_involutive by assumption.
    cbn [output allocated]. now rewrite <- app_assoc.
Qed.

Lemma encoded_frame_read_back_witness :
  readWebSocketFrame
    (mkSocket (sendWebSocketFrame [] sampleMask [104; 105; -61] ++ [textByte; 0]) [] [])
  = (Returned (Some [104; 105; -61]), mkSocket [textByte; 0] [] [4; 3]).
Proof.
  apply (encoded_frame_read_back sampleMask [104; 105; -61] [textByte; 0] [] []).
  - reflexivity.
  - apply forallb_isByte. vm_compute. reflexivity.
  - apply forallb_isByte. vm_compute. reflexivity.
  - simpl. lia.
Defined.

End PeerFacts.

(** ** Facts about the commands *)

Module RemoteFacts.
Import KotlinInt FrameCodec FrameCodecFacts Str Session Remote.

Lemma toByteArray_length (s : string) : length (toByteArray s) = String.length s.
Proof.
  unfold toByteArray. rewrite length_map. induction s; simpl; congruence.
Qed.

Lemma toByteArray_isByte (s : string) : Forall isByte (toByteArray s).
Proof.
  unfold toByteArray. apply Forall_forall. intros x Hx.
  apply list_elem_of_In, in_map_iff in Hx. destruct Hx as (c & <- & _).
  unfold toByte, wrap, isByte. change (2 ^ (8 - 1)) with 128. change (2 ^ 8) with 256.
  pose proof (Z.mod_pos_bound (Z.of_nat (nat_of_ascii c) + 128) 256). lia.
Qed.

(** [String(bytes, UTF_8)] gives back the text the bytes were taken
    from. *)
Lemma textOfBytes_toByteArray (s : string) : textOfBytes (toByteArray s) = s.
Proof.
  unfold textOfBytes, toByteArray. rewrite map_map.
  induction s as [|c s IH]; [reflexivity|].
  cbn [list_ascii_of_string map string_of_list_ascii]. rewrite IH. f_equal.
  pose proof (nat_ascii_bounded c) as Hc.
  change 255 with (Z.ones 8). rewrite Z.land_ones by lia.
  unfold toByte, wrap. change (2 ^ (8 - 1)) with 128. change (2 ^ 8) with 256.
  rewrite Zminus_mod, Zmod_mod, <- Zminus_mod.
  replace (Z.of_nat (nat_of_ascii c) + 128 - 128) with (Z.of_nat (nat_of_ascii c)) by lia.
  rewrite Z.mod_small by lia. rewrite Nat2Z.id. apply ascii_nat_embedding.
Qed.

Lemma sentSince_write (o : OutputStream) (bytes : list Z) :
  broken o = false ->
  write o bytes = Some (mkOutputStream (written o ++ bytes) false)
  /\ sentSince o (write o bytes) = bytes.
Proof.
  intros Hb. unfold write, sentSince. rewrite Hb. cbn [written].
  now rewrite skipn_app, Nat.sub_diag, skipn_all.
Qed.

(** The text a decoder gets from the frame written for [text]. *)
Lemma encoded_text_received (k : ByteArray) (text : string) :
  length k = 4%nat -> Forall isByte k ->
  Z.of_nat (String.length text) <= 65535 ->
  receivedText (encodeFrame k (toByteArray text)) = Some text.
Proof.
  intros Hk Hbk Hlen. unfold receivedText.
  pose proof (decodeEncoded_roundtrip k (toByteArray text) Hk Hbk
                (toByteArray_isByte text)) as Hd.
  rewrite toByteArray_length in Hd. specialize (Hd Hlen).
  unfold decodeEncoded, sendWebSocketFrame in Hd. cbn [app] in Hd.
  rewrite Hd. now rewrite textOfBytes_toByteArray.
Qed.

(** X5: on a live stream [sendKey(key)] and [launchApp(appId)] return
    true and append one frame to the stream, and what a decoder reads
    from that frame is the JSON command of the source with [key] as its
    DataOfCmd, or with [appId] as its appId. *)
Theorem commands_on_the_wire (output : OutputStream) (maskKey : ByteArray) (arg : string) :
  length maskKey = 4%nat -> Forall isByte maskKey -> broken output = false ->
  (Z.of_nat (String.length (keyPayload arg)) <= 65535 ->
   fst (sendKey (Some output) maskKey arg) = true
   /\ receivedText (sentSince output (snd (sendKey (Some output) maskKey arg)))
      = Some (keyPayload arg))
  /\ (Z.of_nat (String.length (launchPayload arg)) <= 65535 ->
      fst (launchApp (Some output) maskKey arg) = true
      /\ receivedText (sentSince output (snd (launchApp (Some output) maskKey arg)))
         = Some (launchPayload arg)).
Proof.
  intros Hk Hbk Hb. split; intros Hlen.
  - unfold sendKey.
    destruct (sentSince_write output (encodeFrame maskKey (toByteArray (keyPayload arg))) Hb)
      as [Hw Hs].
    rewrite Hw in *. cbn [fst snd]. split; [reflexivity|].
    rewrite Hs. now apply encoded_text_received.
  - unfold launchApp.
    destruct (sentSince_write output (encodeFrame maskKey (toByteArray (launchPayload arg))) Hb)
      as [Hw Hs].
    rewrite Hw in *. cbn [fst snd]. split; [reflexivity|].
    rewrite Hs. now apply encoded_text_received.
Qed.

Lemma commands_on_the_wire_witness :
  receivedText (sentSince freshStream (snd (sendKey (Some freshStream) sampleMask "KEY_VOLUP")))
  = Some (keyPayload "KEY_VOLUP")
  /\ receivedText
       (sentSince freshStream (snd (launchApp (Some freshStream) sampleMask "111299001912")))
     = Some (launchPayload "111299001912").
Proof.
  split.
  - destruct (commands_on_the_wire freshStream sampleMask "KEY_VOLUP") as [[_ H] _].
    + reflexivity.
    + apply forallb_isByte. vm_compute. reflexivity.
    + reflexivity.
    + vm_compute. discriminate.
    + exact H.
  - destruct (commands_on_the_wire freshStream sampleMask "111299001912") as [_ H].
    + reflexivity.
    + apply forallb_isByte. vm_compute. reflexivity.
    + reflexivity.
    + destruct H as [_ H]; [vm_compute; discriminate | exact H].
Defined.

End RemoteFacts.

(** ** Facts about the decoder on a bounded heap and stack *)

Module FrameReaderFacts.
Import KotlinInt FrameCodec FrameCodecFacts Peer PeerFacts Remote FrameReader.

(** [ByteArray(n)] on a heap with room for it, on one without, and for a
    negative [n]. *)
Lemma newByteArray_granted (heap n : Z) :
  0 <= n <= heap -> newByteArray heap n = Array (FrameCodec.newByteArray n).
Proof.
  intros H. unfold newByteArray, FrameCodec.newByteArray.
  destruct (n <? 0) eqn:E; [lia|]. destruct (heap <? n) eqn:E'; [lia|]. reflexivity.
Qed.

Lemma newByteArray_refused (heap n : Z) :
  0 <= n -> heap < n -> newByteArray heap n = OutOfMemoryError.
Proof.
  intros H0 H. unfold newByteArray.
  destruct (n <? 0) eqn:E; [lia|]. destruct (heap <? n) eqn:E'; [reflexivity|lia].
Qed.

Lemma newByteArray_negative (heap n : Z) :
  n < 0 -> newByteArray heap n = NegativeArraySizeException.
Proof. intros H. unfold newByteArray. destruct (n <? 0) eqn:E; [reflexivity|lia]. Qed.


Lemma newString_refused (s : Socket) (payload : ByteArray) :
  heap s < textSize s payload -> newString s payload = Thrown StringRefused.
Proof.
  intros H. unfold newString. destruct (heap s <? textSize s payload) eqn:E; [reflexivity|lia].
Qed.

(** Arrays are only ever added to the record of those granted. *)
Lemma allocated_grows (stack : nat) (s : Socket) :
  exists later, allocated (snd (readWebSocketFrame stack s)) = allocated s ++ later.
Proof.
  revert s. induction stack as [|stack IH]; intros s.
  - exists []. simpl. now rewrite app_nil_r.
  - unfold readWebSocketFrame; fold readWebSocketFrame.
    destruct (readHeader (input s)) as [h|]; [|exists []; simpl; now rewrite app_nil_r].
    destruct (masked h && (heap s <? 4)); [exists []; simpl; now rewrite app_nil_r|].
    destruct (masked h); [destruct (readMaskKey (afterLength h)) as [k r]|]; cbv iota beta.
    all: destruct (newByteArray _ _);
      try (eexists; simpl; try reflexivity; now rewrite app_nil_r).
    all: match goal with |- context [readLoop ?f ?a ?b ?c ?d] =>
           destruct (readLoop f a b c d) as [| |payload i5] end;
      try (eexists; simpl; rewrite <- ?app_assoc; reflexivity).
    all: destruct (opcode h =? 1); [eexists; simpl; rewrite <- ?app_assoc; reflexivity|];
      destruct (opcode h =? 2); [eexists; simpl; rewrite <- ?app_assoc; reflexivity|];
      destruct (opcode h =? 8); [eexists; simpl; rewrite <- ?app_assoc; reflexivity|];
      destruct (opcode h =? 9);
      [destruct (heap s <? 2); [eexists; simpl; rewrite <- ?app_assoc; reflexivity|]
      |destruct (opcode h =? 10); [|eexists; simpl; rewrite <- ?app_assoc; reflexivity]].
    all: match goal with |- context [readWebSocketFrame _ ?s'] =>
           destruct (IH s') as [later Hl]; rewrite Hl end;
      eexists; simpl; rewrite <- ?app_assoc; reflexivity.
Qed.

(** When nothing is refused and the output stream works, the call goes
    as in [FrameCodec], where the heap is left out. *)
Lemma readWebSocketFrame_plain (stack : nat) (s : Socket) :
  broken (outputStream s) = false ->
  failed (fst (readWebSocketFrame stack s)) = false ->
  FrameCodec.readWebSocketFrame_fuel stack (plain s)
  = (plainResult (fst (readWebSocketFrame stack s)),
     plain (snd (readWebSocketFrame stack s)))
  /\ broken (outputStream (snd (readWebSocketFrame stack s))) = false.
Proof.
  revert s. induction stack as [|stack IH]; intros s Hb Hn; [split; [reflexivity|exact Hb]|].
  revert Hn.
  unfold readWebSocketFrame, FrameCodec.readWebSocketFrame_fuel;
    fold readWebSocketFrame; fold FrameCodec.readWebSocketFrame_fuel.
  cbn [plain FrameCodec.input FrameCodec.output FrameCodec.allocated].
  destruct (readHeader (input s)) as [h|]; [|intros _; split; [reflexivity|exact Hb]].
  destruct (masked h && (heap s <? 4)) eqn:E4; [intros Hn; discriminate Hn|].
  assert (Hrec : forall i5 al r,
            r = readWebSocketFrame stack
                  (mkSocket i5 (writePong (outputStream s)) al (heap s) (textSize s)) ->
            failed (fst r) = false ->
            FrameCodec.readWebSocketFrame_fuel stack
              (FrameCodec.mkSocket i5 (written (outputStream s) ++ pongFrame) al)
            = (plainResult (fst r), plain (snd r))
            /\ broken (outputStream (snd r)) = false).
  { intros i5 al r -> Hn.
    assert (Hw : writePong (outputStream s)
                 = mkOutputStream (written (outputStream s) ++ pongFrame) false).
    { unfold writePong, write. now rewrite Hb. }
    rewrite Hw in *.
    exact (IH (mkSocket i5 (mkOutputStream (written (outputStream s) ++ pongFrame) false)
                        al (heap s) (textSize s)) eq_refl Hn). }
  assert (Hrec' : forall i5 al r,
            r = readWebSocketFrame stack
                  (mkSocket i5 (outputStream s) al (heap s) (textSize s)) ->
            failed (fst r) = false ->
            FrameCodec.readWebSocketFrame_fuel stack
              (FrameCodec.mkSocket i5 (written (outputStream s)) al)
            = (plainResult (fst r), plain (snd r))
            /\ broken (outputStream (snd r)) = false).
  { intros i5 al r -> Hn.
    exact (IH (mkSocket i5 (outputStream s) al (heap s) (textSize s)) Hb Hn). }
  assert (Htext : forall payload (s' : Socket),
            failed (fst (newString s payload, s')) = false ->
            newString s payload = Returned (Some payload)).
  { intros payload s'. unfold newString. cbn [fst].
    destruct (heap s <? textSize s payload); [discriminate|reflexivity]. }
  destruct (masked h); [destruct (readMaskKey (afterLength h)) as [k r]|]; cbv iota beta.
  all: unfold newByteArray; destruct (toInt (payloadLength h) <? 0);
    [intros _; split; [reflexivity|exact Hb]|].
  all: destruct (heap s <? toInt (payloadLength h)); [intros Hn; discriminate Hn|].
  all: fold (FrameCodec.newByteArray (toInt (payloadLength h))).
  all: match goal with |- context [readLoop ?f ?a ?b ?c ?d] =>
         destruct (readLoop f a b c d) as [| |payload i5] end;
    try (intros _; split; [reflexivity|exact Hb]).
  all: destruct (opcode h =? 1);
    [intros Hn; rewrite (Htext _ _ Hn); split; [reflexivity|exact Hb]|];
    destruct (opcode h =? 2);
    [intros Hn; rewrite (Htext _ _ Hn); split; [reflexivity|exact Hb]|];
    destruct (opcode h =? 8); [intros _; split; [reflexivity|exact Hb]|];
    destruct (opcode h =? 9);
    [destruct (heap s <? 2); [intros Hn; discriminate Hn|]
    |destruct (opcode h =? 10);
      [|intros Hn; rewrite (Htext _ _ Hn); split; [reflexivity|exact Hb]]].
  all: intros Hn; first [apply Hrec | apply Hrec']; [reflexivity|exact Hn].
Qed.

(** One unmasked frame whose payload is wholly on the stream and whose
    buffer the virtual machine grants: the payload is read off, and the
    opcode decides what happens to it. *)
Lemma readWebSocketFrame_peer (stack : nat) (byte1 : Z) (p rest al : list Z)
      (out : OutputStream) (hp : Z) (ts : ByteArray -> Z) :
  Z.of_nat (length p) <= 2147483647 -> Z.of_nat (length p) <= hp ->
  readWebSocketFrame (S stack) (mkSocket (frame byte1 p ++ rest) out al hp ts)
  = let op := Z.land (Z.land byte1 255) 15 in
    let s' := mkSocket rest out (al ++ [Z.of_nat (length p)]) hp ts in
    let text := if hp <? ts p then Thrown StringRefused else Returned (Some p) in
    if op =? 1 then (text, s')
    else if op =? 2 then (text, s')
    else if op =? 8 then (Returned None, s')
    else if op =? 9 then
      if hp <? 2 then (Thrown (ArrayRefused 2), s')
      else readWebSocketFrame stack
             (mkSocket rest (writePong out) ((al ++ [Z.of_nat (length p)]) ++ [2]) hp ts)
    else if op =? 10 then readWebSocketFrame stack s'
    else (text, s').
Proof.
  intros Hmax Hhp.
  unfold readWebSocketFrame; fold readWebSocketFrame.
  unfold frame. cbn [input]. rewrite <- app_comm_cons, <- app_assoc.
  rewrite readHeader_peer by lia.
  cbn [masked afterLength payloadLength opcode outputStream allocated heap textSize andb].
  rewrite toInt_small by lia.
  rewrite newByteArray_granted by lia.
  rewrite readLoop_enough by (rewrite ?length_app; lia).
  rewrite firstn_app, Nat.sub_diag, firstn_all, firstn_O, app_nil_r.
  rewrite skipn_app, Nat.sub_diag, skipn_all. reflexivity.
Qed.




(** Ping frames without payload take one level of the stack each. *)
Lemma pings_overflow (stack : nat) (rest al : list Z) (out : OutputStream) (hp : Z)
      (ts : ByteArray -> Z) :
  2 <= hp ->
  fst (readWebSocketFrame stack (mkSocket (pings stack ++ rest) out al hp ts))
  = Thrown StackOverflowError.
Proof.
  intros Hhp. revert out al. induction stack as [|stack IH]; intros out al; [reflexivity|].
  change (pings (S stack)) with (frame pingByte [] ++ pings stack).
  rewrite <- app_assoc.
  rewrite readWebSocketFrame_peer by (cbn [length]; lia).
  cbv zeta. change (Z.land (Z.land pingByte 255) 15) with 9. cbn [Z.eqb Pos.eqb]. cbv iota.
  destruct (hp <? 2) eqn:E; [lia|]. apply IH.
Qed.

(** X3: control frames whose payload buffer the virtual machine grants,
    read by a call with room on the stack.  After a ping frame the
    function calls itself, one level deeper, on the frame after it; the
    two bytes of an empty pong frame are written, whatever payload the
    ping carried, when the output stream takes them, and a failed write is
    dropped; when the two-byte array of the pong is refused, the
    OutOfMemoryError leaves the call.  After a pong frame the function
    calls itself, one level deeper, without any write; a close frame makes
    the call return null once its payload was read off the stream,
    whatever follows it.  As many ping frames in a row as the stack has
    levels end the call in a StackOverflowError, whatever follows them. *)
Theorem control_frames_handled (stack : nat) (byte1 : Z) (p rest al : list Z)
        (out : OutputStream) (hp : Z) (ts : ByteArray -> Z) :
  Z.of_nat (length p) <= Int_MAX_VALUE -> Z.of_nat (length p) <= hp ->
  (Z.land (Z.land byte1 255) 15 = 9 ->
   (2 <= hp ->
    readWebSocketFrame (S stack) (mkSocket (frame byte1 p ++ rest) out al hp ts)
    = readWebSocketFrame stack
        (mkSocket rest (writePong out) (al ++ [Z.of_nat (length p); 2]) hp ts))
   /\ (hp < 2 ->
       readWebSocketFrame (S stack) (mkSocket (frame byte1 p ++ rest) out al hp ts)
       = (Thrown (ArrayRefused 2), mkSocket rest out (al ++ [Z.of_nat (length p)]) hp ts))
   /\ writePong out
      = if broken out then out else mkOutputStream (written out ++ pongFrame) false)
  /\ (Z.land (Z.land byte1 255) 15 = 10 ->
      readWebSocketFrame (S stack) (mkSocket (frame byte1 p ++ rest) out al hp ts)
      = readWebSocketFrame stack (mkSocket rest out (al ++ [Z.of_nat (length p)]) hp ts))
  /\ (Z.land (Z.land byte1 255) 15 = 8 ->
      readWebSocketFrame (S stack) (mkSocket (frame byte1 p ++ rest) out al hp ts)
      = (Returned None, mkSocket rest out (al ++ [Z.of_nat (length p)]) hp ts))
  /\ (2 <= hp ->
      fst (readWebSocketFrame stack (mkSocket (pings stack ++ rest) out al hp ts))
      = Thrown StackOverflowError).
Proof.
  unfold Int_MAX_VALUE. intros Hmax Hhp.
  split; [|split; [|split]]; [intros Hop; split; [|split]; [intros H2|intros H2|]
                             |intros Hop|intros Hop|apply pings_overflow].
  3: { unfold writePong, write. destruct (broken out); reflexivity. }
  all: rewrite readWebSocketFrame_peer by assumption; cbv zeta; rewrite Hop;
    cbn [Z.eqb Pos.eqb]; cbv iota; try reflexivity.
  - destruct (hp <? 2) eqn:E; [lia|]. rewrite <- ?app_assoc; cbn [app]. reflexivity.
  - destruct (hp <? 2) eqn:E; [reflexivity|lia].
Qed.

Lemma control_frames_handled_witness :
  readWebSocketFrame phoneStack
    (mkSocket (frame pingByte [1; 2] ++ frame textByte [104; 105]) freshStream [] 4096
              asciiSize)
  = readWebSocketFrame (Nat.pred phoneStack)
      (mkSocket (frame textByte [104; 105]) (writePong freshStream) [2; 2] 4096 asciiSize)
  /\ readWebSocketFrame phoneStack
       (mkSocket (frame pongByte [] ++ frame textByte [104; 105]) freshStream [] 4096
                 asciiSize)
     = readWebSocketFrame (Nat.pred phoneStack)
         (mkSocket (frame textByte [104; 105]) freshStream [0] 4096 asciiSize)
  /\ readWebSocketFrame phoneStack
       (mkSocket (frame closeByte [3; -24] ++ frame textByte [104]) freshStream [] 4096
                 asciiSize)
     = (Returned None, mkSocket (frame textByte [104]) freshStream [2] 4096 asciiSize)
  /\ fst (readWebSocketFrame phoneStack
            (mkSocket (pings phoneStack ++ frame textByte [104]) freshStream [] 4096
                      asciiSize))
     = Thrown StackOverflowError.
Proof.
  split; [|split; [|split]].
  - apply (control_frames_handled (Nat.pred phoneStack) pingByte [1; 2]
             (frame textByte [104; 105]) [] freshStream 4096 asciiSize).
    + vm_compute. discriminate.
    + vm_compute. discriminate.
    + reflexivity.
    + vm_compute. discriminate.
  - apply (control_frames_handled (Nat.pred phoneStack) pongByte []
             (frame textByte [104; 105]) [] freshStream 4096 asciiSize).
    + vm_compute. discriminate.
    + vm_compute. discriminate.
    + reflexivity.
  - apply (control_frames_handled (Nat.pred phoneStack) closeByte [3; -24]
             (frame textByte [104]) [] freshStream 4096 asciiSize).
    + vm_compute. discriminate.
    + vm_compute. discriminate.
    + reflexivity.
  - apply (control_frames_handled phoneStack pingByte [] (frame textByte [104]) []
             freshStream 4096 asciiSize).
    + vm_compute. discriminate.
    + vm_compute. discriminate.
    + vm_compute. discriminate.
Defined.



(** C2 (as the code has it): the decoder sets no maximum of its own.
    With [size] the declared length reduced to a 32-bit [Int], a call with
    room on the stack hands [size] to [ByteArray] as it is: a negative
    [size] makes [readWebSocketFrame] return null without a payload
    buffer, a [size] the virtual machine cannot grant ends the call in an
    OutOfMemoryError, and every other [size] is the size of the buffer
    allocated for the payload. *)
Theorem readWebSocketFrame_allocates_declared (stack : nat) (s : Socket) (h : Header) :
  readHeader (input s) = Some h ->
  (masked h = true -> 4 <= heap s) ->
  let size := toInt (payloadLength h) in
  let before := allocated s ++ (if masked h then [4] else []) in
  let result := readWebSocketFrame (S stack) s in
  (size < 0 -> fst result = Returned None /\ allocated (snd result) = before)
  /\ (0 <= size -> heap s < size ->
      fst result = Thrown (ArrayRefused size) /\ allocated (snd result) = before)
  /\ (0 <= size <= heap s ->
      exists later, allocated (snd result) = before ++ size :: later).
Proof.
  intros Hh Hk size before result. subst result.
  unfold readWebSocketFrame; fold readWebSocketFrame.
  rewrite Hh. subst before.
  assert (E4 : masked h && (heap s <? 4) = false).
  { destruct (masked h); [|reflexivity]. specialize (Hk eq_refl).
    destruct (heap s <? 4) eqn:E; [lia|reflexivity]. }
  rewrite E4. clear E4 Hk.
  destruct (masked h); [destruct (readMaskKey (afterLength h)) as [k r]|]; cbv iota beta.
  all: fold size; split; [|split]; intros Hsz; try intros Hsz'.
  all: try (rewrite newByteArray_negative by assumption; simpl; rewrite ?app_nil_r;
            split; reflexivity).
  all: try (rewrite newByteArray_refused by assumption; simpl; rewrite ?app_nil_r;
            split; reflexivity).
  all: rewrite newByteArray_granted by assumption.
  all: match goal with |- context [readLoop ?f ?a ?b ?c ?d] =>
         destruct (readLoop f a b c d) as [| |payload i5] end;
    try (exists []; simpl; rewrite <- ?app_assoc, ?app_nil_r; reflexivity).
  all: destruct (opcode h =? 1); [exists []; simpl; rewrite <- ?app_assoc, ?app_nil_r; reflexivity|];
    destruct (opcode h =? 2); [exists []; simpl; rewrite <- ?app_assoc, ?app_nil_r; reflexivity|];
    destruct (opcode h =? 8); [exists []; simpl; rewrite <- ?app_assoc, ?app_nil_r; reflexivity|];
    destruct (opcode h =? 9);
    [destruct (heap s <? 2);
       [exists []; simpl; rewrite <- ?app_assoc, ?app_nil_r; reflexivity|]
    |destruct (opcode h =? 10);
      [|exists []; simpl; rewrite <- ?app_assoc, ?app_nil_r; reflexivity]].
  all: match goal with |- context [readWebSocketFrame ?f ?s'] =>
         destruct (allocated_grows f s') as [later Hl]; rewrite Hl end;
    eexists; simpl; rewrite <- ?app_assoc; simpl; reflexivity.
Qed.

Lemma readWebSocketFrame_allocates_declared_witness :
  (exists later,
     allocated (snd (readWebSocketFrame phoneStack
                       (mkSocket [toByte 129; 3; 104; 105; 33] freshStream [] 4096
                                 asciiSize)))
     = [] ++ 3 :: later)
  /\ fst (readWebSocketFrame phoneStack
            (mkSocket [toByte 129; 3; 104; 105; 33] freshStream [] 2 asciiSize))
     = Thrown (ArrayRefused 3).
Proof.
  split.
  - destruct (readWebSocketFrame_allocates_declared (Nat.pred phoneStack)
                (mkSocket [toByte 129; 3; 104; 105; 33] freshStream [] 4096 asciiSize)
                (mkHeader 1 true false 3 [104; 105; 33])) as (_ & _ & H).
    + reflexivity.
    + discriminate.
    + apply H. vm_compute. split; discriminate.
  - destruct (readWebSocketFrame_allocates_declared (Nat.pred phoneStack)
                (mkSocket [toByte 129; 3; 104; 105; 33] freshStream [] 2 asciiSize)
                (mkHeader 1 true false 3 [104; 105; 33])) as (_ & H & _).
    + reflexivity.
    + discriminate.
    + apply H; vm_compute; [discriminate|reflexivity].
Defined.

(** C2 (refuted as written): the frame [hugeFrame] declares 2147483647
    bytes, and the decoder asks for a buffer of exactly that size; on a
    heap of 512 MiB the request ends the call in an OutOfMemoryError
    instead of a rejection.  The frame [largeFrame] declares 256 MiB with
    no payload behind it, and the buffer is allocated.  No maximum below
    the largest [Int] is enforced. *)
Lemma hugeFrame_not_bounded :
  readHeader hugeFrame = Some (mkHeader 1 true false Int_MAX_VALUE [])
  /\ readWebSocketFrame phoneStack (mkSocket hugeFrame freshStream [] phoneHeap asciiSize)
     = (Thrown (ArrayRefused Int_MAX_VALUE), mkSocket [] freshStream [] phoneHeap asciiSize)
  /\ readHeader largeFrame = Some (mkHeader 1 true false 268435456 [])
  /\ (exists later,
        allocated (snd (readWebSocketFrame phoneStack
                          (mkSocket largeFrame freshStream [] phoneHeap asciiSize)))
        = 268435456 :: later)
  /\ ~ (exists maxLen, maxLen < Int_MAX_VALUE /\ boundsPayloadLength maxLen).
Proof.
  assert (Hh : readHeader hugeFrame = Some (mkHeader 1 true false Int_MAX_VALUE []))
    by (vm_compute; reflexivity).
  assert (Hl : readHeader largeFrame = Some (mkHeader 1 true false 268435456 []))
    by (vm_compute; reflexivity).
  assert (Ht : forall stack,
            readWebSocketFrame (S stack)
              (mkSocket hugeFrame freshStream [] phoneHeap asciiSize)
            = (Thrown (ArrayRefused Int_MAX_VALUE),
               mkSocket [] freshStream [] phoneHeap asciiSize)).
  { intros stack. unfold readWebSocketFrame.
    change (input (mkSocket hugeFrame freshStream [] phoneHeap asciiSize)) with hugeFrame.
    rewrite Hh. reflexivity. }
  split; [exact Hh|]. split; [exact (Ht (Nat.pred phoneStack))|].
  split; [exact Hl|]. split.
  - change phoneStack with (S (Nat.pred phoneStack)).
    unfold readWebSocketFrame.
    change (input (mkSocket largeFrame freshStream [] phoneHeap asciiSize)) with largeFrame.
    rewrite Hl.
    cbn [masked payloadLength afterLength opcode allocated outputStream heap textSize andb].
    change (toInt 268435456) with 268435456.
    rewrite newByteArray_granted by (unfold phoneHeap; lia).
    destruct (readLoop _ _ _ _ _); exists []; reflexivity.
  - intros (maxLen & Hlt & Hb).
    apply (Hb hugeFrame freshStream phoneHeap asciiSize O _ Hh); [exact Hlt|].
    right. rewrite Ht. reflexivity.
Qed.

End FrameReaderFacts.


(** ** Facts about SSDP discovery *)

Module SsdpFacts.
Import Str Subnet SubnetFacts Ssdp.
Local Open Scope string_scope.

Lemma spanIp_spec (s : string) :
  allChars isIpChar (fst (spanIp s)) = true /\ s = fst (spanIp s) ++ snd (spanIp s).
Proof.
  induction s as [|c s [IH1 IH2]]; [split; reflexivity|].
  cbn [spanIp]. destruct (isIpChar c) eqn:E; [|split; reflexivity].
  destruct (spanIp s) as [run tl]. cbn [fst snd allChars] in *.
  rewrite E, IH1. split; [reflexivity|]. rewrite append_cons. now f_equal.
Qed.

Lemma ipGroup_sound (s run : string) :
  ipGroup s = Some run -> run <> EmptyString /\ allChars isIpChar run = true.
Proof.
  unfold ipGroup. pose proof (spanIp_spec s) as [H _].
  destruct (spanIp s) as [[|c r] tl]; [discriminate|].
  intros Heq. injection Heq as <-. split; [discriminate | exact H].
Qed.

Lemma matchIpHere_sound (s run : string) :
  matchIpHere s = Some run -> run <> EmptyString /\ allChars isIpChar run = true.
Proof.
  unfold matchIpHere. destruct (stripScheme s) as [rest|].
  - destruct (ipGroup rest) as [g|] eqn:E.
    + intros Heq. injection Heq as <-. now apply ipGroup_sound in E.
    + apply ipGroup_sound.
  - apply ipGroup_sound.
Qed.

Lemma findIp_sound (s run : string) :
  findIp s = Some run -> run <> EmptyString /\ allChars isIpChar run = true.
Proof.
  induction s as [|c s IH]; cbn [findIp].
  - destruct (matchIpHere EmptyString) eqn:E; [|discriminate].
    intros Heq. injection Heq as <-. now apply matchIpHere_sound in E.
  - destruct (matchIpHere (String c s)) eqn:E; [|exact IH].
    intros Heq. injection Heq as <-. now apply matchIpHere_sound in E.
Qed.

Lemma ipOfLines_none (lines : list string) :
  Forall (fun line => isLocationLine line = false) lines -> ipOfLines lines = None.
Proof.
  induction 1 as [|line lines Hl _ IH]; [reflexivity|]. cbn [ipOfLines]. now rewrite Hl.
Qed.

Lemma ipOfLines_skip (before : list string) (lines : list string) :
  Forall (fun line => isLocationLine line = false) before ->
  ipOfLines (before ++ lines) = ipOfLines lines.
Proof.
  induction 1 as [|line before Hl _ IH]; [reflexivity|].
  cbn [ipOfLines app]. now rewrite Hl.
Qed.

(** X6: an address [extractIpFromSsdpResponse] returns is never empty
    and consists of digits and dots only, and it is returned only for a
    response with a line that starts with LOCATION: in some spelling of
    upper and lower case; without such a line the result is null. *)
Theorem extracted_address_shape (response ip : string) :
  extractIpFromSsdpResponse response = Some ip ->
  ip <> EmptyString /\ allChars isIpChar ip = true
  /\ exists line, In line (splitLines response) /\ isLocationLine line = true.
Proof.
  unfold extractIpFromSsdpResponse. generalize (splitLines response) as lines.
  induction lines as [|line lines IH]; [discriminate|].
  cbn [ipOfLines]. destruct (isLocationLine line) eqn:E.
  - intros H. apply findIp_sound in H as [H1 H2]. repeat split; try assumption.
    exists line. split; [now left | assumption].
  - intros H. destruct (IH H) as (H1 & H2 & l & Hin & Hl). repeat split; try assumption.
    exists l. split; [now right | assumption].
Qed.

Lemma extracted_address_shape_witness :
  "192.168.1.42" <> EmptyString /\ allChars isIpChar "192.168.1.42" = true
  /\ exists line, In line (splitLines tvResponse) /\ isLocationLine line = true.
Proof.
  apply (extracted_address_shape tvResponse "192.168.1.42").
  vm_compute. reflexivity.
Defined.

(** *** A LOCATION line with a numeric address *)

Lemma uppercase_app (a b : string) : uppercase (a ++ b) = uppercase a ++ uppercase b.
Proof. induction a as [|c a IH]; [reflexivity|]. rewrite append_cons. cbn [uppercase]. now rewrite IH. Qed.

Lemma prefix_app (p x : string) : String.prefix p (p ++ x) = true.
Proof.
  induction p as [|c p IH]; [destruct x; reflexivity|].
  rewrite append_cons. cbn [String.prefix]. destruct (ascii_dec c c); [exact IH|congruence].
Qed.

Lemma stripPrefix_app (p x : string) : stripPrefix p (p ++ x) = Some x.
Proof.
  induction p as [|c p IH]; [destruct x; reflexivity|].
  rewrite append_cons. cbn [stripPrefix]. now rewrite Ascii.eqb_refl.
Qed.

Lemma upperChar_colon (c : ascii) : Ascii.eqb c ":" = true -> upperChar c = ":"%char.
Proof. intros H. apply Ascii.eqb_eq in H. now subst c. Qed.

Lemma afterFirst_name (name rest : string) :
  uppercase name = "LOCATION" -> afterFirst ":" (name ++ ":" ++ rest) = Some rest.
Proof.
  intros H.
  do 9 (destruct name as [|? name]; try discriminate H).
  cbn [uppercase] in H. injection H as H1 H2 H3 H4 H5 H6 H7 H8.
  rewrite !append_cons. cbn [afterFirst].
  repeat match goal with
         | |- context [Ascii.eqb ?c ":"] =>
           is_var c; let E := fresh "E" in
           destruct (Ascii.eqb c ":") eqn:E; [apply upperChar_colon in E; congruence|]
         end.
  reflexivity.
Qed.

Lemma trimStart_blank (pad x : string) :
  isBlank pad = true -> trimStart (pad ++ x) = trimStart x.
Proof.
  induction pad as [|c pad IH]; [reflexivity|]. cbn [isBlank]. intros H.
  apply andb_true_iff in H as [Hc Hp]. rewrite append_cons. cbn [trimStart].
  rewrite Hc. auto.
Qed.

Lemma trimEnd_solid (u t : string) :
  allChars (fun c => negb (isWhitespace c)) u = true -> trimEnd (u ++ t) = u ++ trimEnd t.
Proof.
  induction u as [|c u IH]; [reflexivity|]. cbn [allChars]. intros H.
  apply andb_true_iff in H as [Hc Hu]. rewrite !append_cons. cbn [trimEnd].
  rewrite (IH Hu). apply negb_true_iff in Hc. rewrite Hc.
  destruct (u ++ trimEnd t); reflexivity.
Qed.

(** Trimming the end keeps the first character, if anything is kept. *)
Lemma trimEnd_head (t : string) :
  match trimEnd t with
  | EmptyString => True
  | String c _ => exists r, t = String c r
  end.
Proof.
  destruct t as [|c t]; [exact I|]. cbn [trimEnd].
  destruct (trimEnd t); [destruct (isWhitespace c)|]; eauto.
Qed.

Lemma isIpChar_solid (c : ascii) : isIpChar c = true -> negb (isWhitespace c) = true.
Proof.
  destruct c as [[] [] [] [] [] [] [] []]; vm_compute; congruence.
Qed.

Lemma allChars_impl (f g : ascii -> bool) (s : string) :
  (forall c, f c = true -> g c = true) -> allChars f s = true -> allChars g s = true.
Proof.
  intros Hfg. induction s as [|c s IH]; [reflexivity|]. cbn [allChars].
  rewrite !andb_true_iff. intros [H1 H2]. auto.
Qed.

Lemma allChars_app (f : ascii -> bool) (a b : string) :
  allChars f (a ++ b) = allChars f a && allChars f b.
Proof.
  induction a as [|c a IH]; [reflexivity|]. rewrite append_cons. cbn [allChars].
  now rewrite IH, andb_assoc.
Qed.

Lemma spanIp_app (ip tail : string) :
  allChars isIpChar ip = true -> stopsRun tail -> spanIp (ip ++ tail) = (ip, tail).
Proof.
  intros Hip Ht. induction ip as [|c ip IH].
  - destruct tail as [|c r]; [reflexivity|]. cbn in Ht.
    change (EmptyString ++ String c r) with (String c r). cbn [spanIp]. now rewrite Ht.
  - cbn [allChars] in Hip. apply andb_true_iff in Hip as [Hc Hip].
    rewrite append_cons. cbn [spanIp]. rewrite Hc, (IH Hip). reflexivity.
Qed.

Lemma ipGroup_app (ip tail : string) :
  ip <> EmptyString -> allChars isIpChar ip = true -> stopsRun tail ->
  ipGroup (ip ++ tail) = Some ip.
Proof.
  intros Hne Hip Ht. unfold ipGroup. rewrite spanIp_app by assumption.
  destruct ip; [congruence|reflexivity].
Qed.

Lemma matchIpHere_url (scheme ip tail : string) :
  isScheme scheme -> ip <> EmptyString -> allChars isIpChar ip = true -> stopsRun tail ->
  matchIpHere (scheme ++ ip ++ tail) = Some ip.
Proof.
  intros Hs Hne Hip Ht. unfold matchIpHere, stripScheme.
  destruct Hs as [->|[->| ->]].
  - change (EmptyString ++ ip ++ tail) with (ip ++ tail).
    destruct ip as [|c ip]; [congruence|].
    cbn [allChars] in Hip. apply andb_true_iff in Hip as [Hc Hip'].
    assert (Hh : Ascii.eqb "h" c = false).
    { destruct (Ascii.eqb "h" c) eqn:E; [|reflexivity].
      apply Ascii.eqb_eq in E. subst c. discriminate Hc. }
    rewrite append_cons. cbn [stripPrefix]. rewrite Hh.
    rewrite <- append_cons. apply ipGroup_app; try assumption.
    cbn [allChars]. now rewrite Hc, Hip'.
  - change (stripPrefix "https://" ("http://" ++ ip ++ tail)) with (@None string).
    rewrite stripPrefix_app. now rewrite ipGroup_app.
  - rewrite stripPrefix_app. now rewrite ipGroup_app.
Qed.

Lemma findIp_here (s run : string) : matchIpHere s = Some run -> findIp s = Some run.
Proof. intros H. destruct s; cbn [findIp]; now rewrite H. Qed.

Lemma stopsRun_trimEnd (tail : string) : stopsRun tail -> stopsRun (trimEnd tail).
Proof.
  intros H. pose proof (trimEnd_head tail) as Hh.
  destruct (trimEnd tail) as [|c r]; [exact I|].
  destruct Hh as [r' ->]. exact H.
Qed.

Lemma scheme_solid (scheme : string) :
  isScheme scheme -> allChars (fun c => negb (isWhitespace c)) scheme = true.
Proof. intros [->|[->| ->]]; reflexivity. Qed.

Lemma trim_url (pad scheme ip tail : string) :
  isBlank pad = true -> isScheme scheme -> ip <> EmptyString ->
  allChars isIpChar ip = true ->
  trim (pad ++ scheme ++ ip ++ tail) = scheme ++ ip ++ trimEnd tail.
Proof.
  intros Hp Hs Hne Hip. unfold trim. rewrite trimStart_blank by assumption.
  assert (Hsolid : allChars (fun c => negb (isWhitespace c)) (scheme ++ ip) = true).
  { rewrite allChars_app, (scheme_solid _ Hs). cbn [andb].
    eapply allChars_impl; [apply isIpChar_solid | exact Hip]. }
  assert (Hstart : trimStart (scheme ++ ip ++ tail) = scheme ++ ip ++ tail).
  { rewrite <- append_assoc. destruct (scheme ++ ip) as [|c u] eqn:E.
    - destruct scheme; [|discriminate E].
      change (EmptyString ++ ip) with ip in E. congruence.
    - cbn [allChars] in Hsolid. apply andb_true_iff in Hsolid as [Hc _].
      apply negb_true_iff in Hc. rewrite append_cons. cbn [trimStart]. now rewrite Hc. }
  rewrite Hstart, <- append_assoc, trimEnd_solid by assumption.
  now rewrite append_assoc.
Qed.

(** X7: when the first LOCATION line of a response (the header name in
    any case, white space after the colon) carries a URL that is an
    optional http:// or https:// followed by a run of digits and dots,
    [extractIpFromSsdpResponse] returns exactly that run, dropping the
    scheme and whatever port and path follow; later lines are not
    looked at. *)
Theorem location_line_gives_address
        (response : string) (before after : list string)
        (name pad scheme ip tail : string) :
  splitLines response = (before ++ (name ++ ":" ++ pad ++ scheme ++ ip ++ tail)%string :: after)%list ->
  Forall (fun line => isLocationLine line = false) before ->
  uppercase name = "LOCATION" -> isBlank pad = true -> isScheme scheme ->
  ip <> EmptyString -> allChars isIpChar ip = true -> stopsRun tail ->
  extractIpFromSsdpResponse response = Some ip.
Proof.
  intros Hsplit Hbefore Hname Hpad Hs Hne Hip Ht.
  unfold extractIpFromSsdpResponse. rewrite Hsplit, ipOfLines_skip by assumption.
  cbn [ipOfLines]. unfold isLocationLine.
  rewrite uppercase_app, Hname.
  change (uppercase (":" ++ pad ++ scheme ++ ip ++ tail))
    with (":" ++ uppercase (pad ++ scheme ++ ip ++ tail)).
  rewrite <- append_assoc.
  change ("LOCATION" ++ ":") with "LOCATION:".
  rewrite prefix_app. unfold substringAfter.
  rewrite afterFirst_name by assumption.
  rewrite trim_url by assumption.
  apply findIp_here, matchIpHere_url; try assumption.
  now apply stopsRun_trimEnd.
Qed.


Lemma location_line_gives_address_witness :
  extractIpFromSsdpResponse tvResponse = Some "192.168.1.42".
Proof.
  apply (location_line_gives_address tvResponse ["HTTP/1.1 200 OK"]
           ["ST: urn:samsung.com:device:RemoteControlReceiver:1"; EmptyString]
           "Location" " " "http://" "192.168.1.42" ":9197/dmr").
  - vm_compute. reflexivity.
  - repeat constructor.
  - reflexivity.
  - reflexivity.
  - right. left. reflexivity.
  - discriminate.
  - reflexivity.
  - reflexivity.
Defined.

(** *** The list handed to the callback *)

Lemma insertSorted_ascending (x : string) (l : list string) :
  ascending l -> ascending (insertSorted x l).
Proof.
  unfold ascending. induction 1 as [|y l Hs IH Hhd]; cbn [insertSorted].
  - repeat constructor.
  - destruct (String.leb x y) eqn:E.
    + constructor; [constructor; assumption | constructor; exact E].
    + constructor; [exact IH|].
      assert (Hyx : String.leb y x = true)
        by (destruct (String.leb_total x y) as [H|H]; [congruence | exact H]).
      destruct l as [|z l]; cbn [insertSorted]; [constructor; exact Hyx|].
      destruct (String.leb x z); constructor; [exact Hyx|].
      now inversion Hhd.
Qed.

Lemma sorted_ascending (l : list string) : ascending (sorted l).
Proof.
  induction l as [|x l IH]; [constructor|]. apply insertSorted_ascending, IH.
Qed.

Lemma NoDup_insertSorted (x : string) (l : list string) :
  NoDup l -> ~ In x l -> NoDup (insertSorted x l).
Proof.
  induction 1 as [|y l Hy Hl IH]; cbn [insertSorted]; intros Hx.
  - constructor; [apply not_elem_of_nil | constructor].
  - destruct (String.leb x y).
    + constructor; [rewrite list_elem_of_In; exact Hx | now constructor].
    + constructor.
      * rewrite list_elem_of_In, In_insertSorted. rewrite list_elem_of_In in Hy.
        intros [->|H]; [apply Hx; now left | contradiction].
      * apply IH. intros H. apply Hx. now right.
Qed.

Lemma NoDup_sorted (l : list string) : NoDup l -> NoDup (sorted l).
Proof.
  induction 1 as [|x l Hx Hl IH]; [constructor|]. cbn [sorted fold_right].
  apply NoDup_insertSorted; [exact IH|]. fold (sorted l). rewrite In_sorted.
  now rewrite <- list_elem_of_In.
Qed.

Lemma NoDup_range (lo : Z) (n : nat) : NoDup (range lo n).
Proof.
  revert lo. induction n as [|n IH]; intros lo; cbn [range]; constructor; [|apply IH].
  rewrite list_elem_of_In, in_range. lia.
Qed.

Lemma NoDup_filter_bool {A : Type} (f : A -> bool) (l : list A) :
  NoDup l -> NoDup (List.filter f l).
Proof.
  induction 1 as [|x l Hx Hl IH]; cbn [List.filter]; [constructor|].
  destruct (f x); [|exact IH]. constructor; [|exact IH].
  rewrite list_elem_of_In, filter_In. rewrite list_elem_of_In in Hx. tauto.
Qed.

Lemma NoDup_probes (subnet : string) (l : list Z) :
  NoDup l -> NoDup (map (fun i => subnet ++ "." ++ intToString i) l).
Proof.
  intros Hl. apply NoDup_fmap_2; [|exact Hl].
  intros a b H. apply append_inv_head in H.
  apply (append_inv_head ".") in H. now apply intToString_inj.
Qed.

Lemma NoDup_probeAddresses (deviceIp : string) : NoDup (probeAddresses deviceIp).
Proof.
  unfold probeAddresses.
  destruct (splitDots deviceIp) as [|p0 [|p1 [|p2 [|p3 [|]]]]]; try constructor.
  destruct (toIntOrNull p3); [|constructor].
  apply NoDup_probes, NoDup_filter_bool, NoDup_range.
Qed.

Lemma scan_ascending_distinct (deviceIp : option string) (answered : string -> bool) :
  ascending (scanSubnetForTvPorts deviceIp answered)
  /\ NoDup (scanSubnetForTvPorts deviceIp answered).
Proof.
  unfold scanSubnetForTvPorts. destruct deviceIp as [ip|]; [|split; constructor].
  split; [apply sorted_ascending|].
  apply NoDup_sorted, NoDup_filter_bool, NoDup_probeAddresses.
Qed.

Lemma elem_of_collected (packets : list Datagram) (start : gset string) (x : string) :
  x ∈ fold_left collect packets start <-> x ∈ start \/ found packets x.
Proof.
  revert start. induction packets as [|p packets IH]; intros start; cbn [fold_left].
  - split; [now left | intros [H|(p & [] & _)]; exact H].
  - rewrite IH. unfold collect, found.
    destruct (isTvLikely (data p)) eqn:Etv; [destruct (addressOf p) as [ip|] eqn:Ea|].
    + rewrite elem_of_union, elem_of_singleton. split.
      * intros [[->|H]|(q & Hq & H1 & H2)]; [right|now left|right].
        -- exists p. repeat split; [now left|assumption..].
        -- exists q. repeat split; [now right|assumption..].
      * intros [H|(q & [<-|Hq] & H1 & H2)]; [left; now right| |].
        -- left; left. congruence.
        -- right. exists q. repeat split; assumption.
    + split.
      * intros [H|(q & Hq & H1 & H2)]; [now left|right].
        exists q. repeat split; [now right|assumption..].
      * intros [H|(q & [<-|Hq] & H1 & H2)]; [now left|congruence|].
        right. exists q. repeat split; assumption.
    + split.
      * intros [H|(q & Hq & H1 & H2)]; [now left|right].
        exists q. repeat split; [now right|assumption..].
      * intros [H|(q & [<-|Hq] & H1 & H2)]; [now left|congruence|].
        right. exists q. repeat split; assumption.
Qed.

(** X8: whichever way [discover] goes (datagrams received, subnet
    fallback, or the scan after an exception), the list it hands to the
    callback is in ascending order and holds no address twice. *)
Theorem discover_list_ascending_distinct
        (run : SsdpRun) (deviceIp : option string) (answered : string -> bool) :
  ascending (callbackList (discover run deviceIp answered))
  /\ NoDup (callbackList (discover run deviceIp answered)).
Proof.
  destruct run as [message|packets]; cbn [discover].
  - pose proof (scan_ascending_distinct deviceIp answered) as [Ha Hn].
    destruct (scanSubnetForTvPorts deviceIp answered); [split; constructor|].
    cbn [callbackList]. now split.
  - cbn [callbackList]. split; [apply sorted_ascending|].
    apply NoDup_sorted, NoDup_elements.
Qed.

(** X9: when the SSDP search ran to its end, the callback's list holds
    exactly the addresses of the datagrams that mention one of the ten
    device words (the address of the LOCATION line, else the sender's);
    the subnet scan contributes only when no such datagram gave an
    address, and then the list is the scan's result. *)
Theorem discover_list_members
        (packets : list Datagram) (deviceIp : option string) (answered : string -> bool)
        (x : string) :
  In x (callbackList (discover (SsdpReceived packets) deviceIp answered))
  <-> found packets x
      \/ ((forall y, ~ found packets y)
          /\ In x (scanSubnetForTvPorts deviceIp answered)).
Proof.
  cbn [discover callbackList]. rewrite In_sorted, <- list_elem_of_In, elem_of_elements.
  destruct (decide (fold_left collect packets ∅ = ∅)) as [He|Hne].
  - assert (Hnone : forall y, ~ found packets y).
    { intros y Hy. assert (H : y ∈ fold_left collect packets ∅)
        by (apply elem_of_collected; now right).
      rewrite He in H. now apply not_elem_of_empty in H. }
    rewrite elem_of_union, elem_of_list_to_set, list_elem_of_In, He. split.
    + intros [H|H]; [now apply not_elem_of_empty in H | right; now split].
    + intros [H|[_ H]]; [now apply Hnone in H | now right].
  - rewrite elem_of_collected. split.
    + intros [H|H]; [now apply not_elem_of_empty in H | now left].
    + intros [H|[Hnone _]]; [now right|]. exfalso. apply Hne.
      apply set_eq. intros y. rewrite elem_of_collected. split.
      * intros [H|H]; [exact H | now apply Hnone in H].
      * intros H. now apply not_elem_of_empty in H.
Qed.

End SsdpFacts.

(** ** Facts about the preferences file and the pairing session *)

Module PairingFacts.
Import Str TokenRepository Session SessionFacts Pairing.
Local Open Scope nat_scope.

(** *** The preferences file *)

(** X10: the preferences file keeps one token per address and the last
    connected address apart: a token saved is the token read, a token
    cleared is gone, neither touches the token of another address or the
    last connected address, setting the last connected address touches
    no token, and [clearAll] removes both kinds of entry. *)
Theorem token_store_laws (ip other token last : string) (prefs : gmap string string) :
  other <> ip ->
  getToken ip (saveToken ip token prefs) = Some token
  /\ getToken ip (clearToken ip prefs) = None
  /\ getToken other (saveToken ip token prefs) = getToken other prefs
  /\ getToken other (clearToken ip prefs) = getToken other prefs
  /\ getLastConnectedIp (saveToken ip token prefs) = getLastConnectedIp prefs
  /\ getLastConnectedIp (clearToken ip prefs) = getLastConnectedIp prefs
  /\ getLastConnectedIp (setLastConnectedIp last prefs) = Some last
  /\ getToken ip (setLastConnectedIp last prefs) = getToken ip prefs
  /\ getToken ip (clearAll prefs) = None
  /\ getLastConnectedIp (clearAll prefs) = None.
Proof.
  intros Hne. unfold getToken, saveToken, clearToken, getLastConnectedIp,
                setLastConnectedIp, clearAll.
  assert (Hk : (KEY_PREFIX ++ ip)%string <> (KEY_PREFIX ++ other)%string)
    by (intros H; apply token_key_inj in H; congruence).
  pose proof (key_last_ip_not_token ip) as Hl.
  repeat split.
  - apply lookup_insert_eq.
  - apply lookup_delete_eq.
  - now apply lookup_insert_ne.
  - now apply lookup_delete_ne.
  - apply lookup_insert_ne. congruence.
  - apply lookup_delete_ne. congruence.
  - apply lookup_insert_eq.
  - now apply lookup_insert_ne.
Qed.

Lemma token_store_laws_witness :
  getToken tvIp (saveToken tvIp "abc" ∅) = Some "abc"%string
  /\ getToken "10.0.0.6" (saveToken tvIp "abc" (saveToken "10.0.0.6" "xyz" ∅))
     = Some "xyz"%string.
Proof.
  destruct (token_store_laws tvIp "10.0.0.6" "abc" "10.0.0.9" (saveToken "10.0.0.6" "xyz" ∅))
    as (_ & _ & H3 & _).
  - discriminate.
  - split; [reflexivity|]. rewrite H3. reflexivity.
Defined.

(** *** The token pattern *)

Ltac norm_append :=
  repeat first [ rewrite SubnetFacts.append_cons | rewrite SubnetFacts.append_assoc
               | progress change (EmptyString ++ ?x)%string with x ].

Lemma stripPrefix_spec (p s r : string) : stripPrefix p s = Some r -> s = (p ++ r)%string.
Proof.
  revert s. induction p as [|a p IH]; intros s; cbn [stripPrefix].
  - destruct s; intros H; injection H as <-; reflexivity.
  - destruct s as [|b s]; [discriminate|]. destruct (Ascii.eqb a b) eqn:E; [|discriminate].
    apply Ascii.eqb_eq in E. subst b. intros H. apply IH in H. subst s. reflexivity.
Qed.

Lemma stripPrefix_append (p x : string) : stripPrefix p (p ++ x) = Some x.
Proof.
  induction p as [|c p IH]; [destruct x; reflexivity|].
  rewrite SubnetFacts.append_cons. cbn [stripPrefix]. now rewrite Ascii.eqb_refl.
Qed.

Lemma skipSpaces_spec (s : string) :
  exists ws, spaces ws = true /\ s = (ws ++ skipSpaces s)%string.
Proof.
  induction s as [|c s (ws & Hw & Hs)]; [exists EmptyString; split; reflexivity|].
  cbn [skipSpaces]. destruct (isSpace c) eqn:E.
  - exists (String c ws). split; [unfold spaces in *; cbn; now rewrite E, Hw|].
    rewrite SubnetFacts.append_cons. now f_equal.
  - exists EmptyString. split; reflexivity.
Qed.

Lemma skipSpaces_append (ws x : string) (c : ascii) :
  spaces ws = true -> isSpace c = false ->
  skipSpaces (ws ++ String c x) = String c x.
Proof.
  intros Hw Hc. induction ws as [|a ws IH].
  - change (EmptyString ++ String c x)%string with (String c x). cbn [skipSpaces].
    now rewrite Hc.
  - unfold spaces in *. cbn [Ssdp.allChars] in Hw. apply andb_true_iff in Hw as [Ha Hw].
    rewrite SubnetFacts.append_cons. cbn [skipSpaces]. rewrite Ha. auto.
Qed.

Lemma untilQuote_spec (s : string) :
  s = (fst (untilQuote s) ++ snd (untilQuote s))%string
  /\ quoteFree (fst (untilQuote s)) = true
  /\ match snd (untilQuote s) with
     | EmptyString => True
     | String c _ => c = quote
     end.
Proof.
  induction s as [|c s (IH1 & IH2 & IH3)]; [repeat split|].
  cbn [untilQuote]. destruct (Ascii.eqb c quote) eqn:E.
  - apply Ascii.eqb_eq in E. repeat split. exact E.
  - destruct (untilQuote s) as [tok tl]. cbn [fst snd] in *. repeat split.
    + rewrite SubnetFacts.append_cons. now f_equal.
    + unfold quoteFree in *. cbn [Ssdp.allChars]. now rewrite E, IH2.
    + exact IH3.
Qed.

Lemma untilQuote_append (tok post : string) :
  quoteFree tok = true -> untilQuote (tok ++ String quote post) = (tok, String quote post).
Proof.
  intros Hq. induction tok as [|c tok IH].
  - change (EmptyString ++ String quote post)%string with (String quote post).
    cbn [untilQuote]. now rewrite Ascii.eqb_refl.
  - unfold quoteFree in *. cbn [Ssdp.allChars] in Hq. apply andb_true_iff in Hq as [Hc Hq].
    apply negb_true_iff in Hc. rewrite SubnetFacts.append_cons. cbn [untilQuote].
    now rewrite Hc, (IH Hq).
Qed.

(** A match at the start of [s] is a token field, and a token field at
    the start of a string is matched. *)
Lemma matchTokenHere_sound (s tok : string) :
  matchTokenHere s = Some tok ->
  tok <> EmptyString /\ quoteFree tok = true
  /\ exists ws1 ws2 post,
       spaces ws1 = true /\ spaces ws2 = true
       /\ s = (tokenField ws1 ws2 tok ++ post)%string.
Proof.
  unfold matchTokenHere.
  destruct (stripPrefix _ s) as [s1|] eqn:E1; [|discriminate].
  destruct (stripPrefix ":" (skipSpaces s1)) as [s2|] eqn:E2; [|discriminate].
  destruct (skipSpaces s2) as [|c s3] eqn:E3; [discriminate|].
  destruct (Ascii.eqb c quote) eqn:Ec; [|discriminate].
  pose proof (untilQuote_spec s3) as (H1 & H2 & H3).
  destruct (untilQuote s3) as [[|a tk] [|b tl]]; try discriminate.
  intros Heq. injection Heq as <-. cbn [fst snd] in *. subst b.
  split; [discriminate|]. split; [exact H2|].
  apply stripPrefix_spec in E1, E2. apply Ascii.eqb_eq in Ec. subst c.
  destruct (skipSpaces_spec s1) as (ws1 & Hw1 & Hs1).
  destruct (skipSpaces_spec s2) as (ws2 & Hw2 & Hs2).
  exists ws1, ws2, tl. repeat split; try assumption.
  rewrite E1, Hs1, E2, Hs2, E3, H1. unfold tokenField. now norm_append.
Qed.

Lemma matchTokenHere_field (ws1 ws2 tok post : string) :
  spaces ws1 = true -> spaces ws2 = true -> tok <> EmptyString -> quoteFree tok = true ->
  matchTokenHere (tokenField ws1 ws2 tok ++ post) = Some tok.
Proof.
  intros Hw1 Hw2 Hne Hq. unfold matchTokenHere, tokenField.
  rewrite !SubnetFacts.append_assoc.
  change (String quote ("token" ++ String quote EmptyString)
            ++ ws1 ++ ":" ++ ws2 ++ String quote (tok ++ String quote EmptyString) ++ post)%string
    with (String quote ("token" ++ String quote EmptyString)
            ++ (ws1 ++ String ":" (ws2 ++ String quote ((tok ++ String quote EmptyString) ++ post))))%string.
  rewrite stripPrefix_append.
  rewrite skipSpaces_append by (assumption || reflexivity).
  cbn [stripPrefix]. rewrite Ascii.eqb_refl.
  rewrite skipSpaces_append by (assumption || reflexivity).
  rewrite Ascii.eqb_refl.
  rewrite SubnetFacts.append_assoc.
  change (String quote EmptyString ++ post)%string with (String quote post).
  rewrite untilQuote_append by assumption.
  destruct tok; [congruence|reflexivity].
Qed.

(** X11: the token pattern of the success branch.  A token found in a
    message is never empty, holds no double quote, and stands in the
    message as the value of a token field (the quoted word token,
    optional white space, a colon, optional white space, the value
    between double quotes); and a message that starts with such a field
    has its value found, while one that holds such a field anywhere has
    some token found. *)
Theorem token_pattern (s found pre ws1 ws2 tok post : string) :
  (findToken s = Some found ->
   found <> EmptyString /\ quoteFree found = true
   /\ exists pre' ws1' ws2' post',
        spaces ws1' = true /\ spaces ws2' = true
        /\ s = (pre' ++ tokenField ws1' ws2' found ++ post')%string)
  /\ (spaces ws1 = true -> spaces ws2 = true -> tok <> EmptyString ->
      quoteFree tok = true ->
      findToken (tokenField ws1 ws2 tok ++ post) = Some tok
      /\ is_Some (findToken (pre ++ tokenField ws1 ws2 tok ++ post))).
Proof.
  split.
  - revert found. induction s as [|c s IH]; intros found; cbn [findToken].
    + destruct (matchTokenHere EmptyString) eqn:E; [|discriminate].
      intros Heq. injection Heq as <-.
      apply matchTokenHere_sound in E as (H1 & H2 & ws1' & ws2' & post' & H3 & H4 & H5).
      repeat split; try assumption. exists EmptyString, ws1', ws2', post'. auto.
    + destruct (matchTokenHere (String c s)) eqn:E.
      * intros Heq. injection Heq as <-.
        apply matchTokenHere_sound in E as (H1 & H2 & ws1' & ws2' & post' & H3 & H4 & H5).
        repeat split; try assumption. exists EmptyString, ws1', ws2', post'. auto.
      * intros H. destruct (IH _ H) as (H1 & H2 & pre' & ws1' & ws2' & post' & H3 & H4 & H5).
        repeat split; try assumption.
        exists (String c pre'), ws1', ws2', post'. repeat split; try assumption.
        rewrite SubnetFacts.append_cons. now f_equal.
  - intros Hw1 Hw2 Hne Hq.
    pose proof (matchTokenHere_field ws1 ws2 tok post Hw1 Hw2 Hne Hq) as Hm.
    assert (Hhere : findToken (tokenField ws1 ws2 tok ++ post) = Some tok).
    { destruct (tokenField ws1 ws2 tok ++ post)%string; cbn [findToken]; now rewrite Hm. }
    split; [exact Hhere|]. clear Hm.
    induction pre as [|c pre IH].
    + change (EmptyString ++ tokenField ws1 ws2 tok ++ post)%string
        with (tokenField ws1 ws2 tok ++ post)%string. rewrite Hhere. eauto.
    + rewrite SubnetFacts.append_cons. cbn [findToken].
      destruct (matchTokenHere (String c _)); [eauto | exact IH].
Qed.

Lemma token_pattern_witness :
  ("12345678"%string <> EmptyString /\ quoteFree "12345678" = true
   /\ exists pre ws1 ws2 post,
        spaces ws1 = true /\ spaces ws2 = true
        /\ connectMessage = (pre ++ tokenField ws1 ws2 "12345678" ++ post)%string)
  /\ findToken fieldMessage = Some "abc"%string
  /\ is_Some (findToken ("{" ++ fieldMessage)%string).
Proof.
  split.
  - apply (token_pattern connectMessage "12345678" EmptyString EmptyString EmptyString
             EmptyString EmptyString).
    vm_compute. reflexivity.
  - apply (token_pattern EmptyString EmptyString "{" EmptyString " " "abc" "}").
    + reflexivity.
    + reflexivity.
    + discriminate.
    + reflexivity.
Defined.

(** *** Pairing *)






End PairingFacts.

(** ** More facts about the subnet scans *)

Module SubnetMoreFacts.
Import Str Subnet SubnetFacts.
Local Open Scope string_scope.

Ltac bool_lia :=
  rewrite ?andb_true_iff, ?andb_false_iff, ?Z.leb_le, ?Z.ltb_lt, ?Z.leb_gt, ?Z.ltb_ge in *;
  lia.

Lemma length_filter_range (m lo : Z) (n : nat) :
  length (List.filter (fun i => negb (i =? m)%Z) (range lo n))
  = if ((lo <=? m) && (m <? lo + Z.of_nat n))%Z then (n - 1)%nat else n.
Proof.
  revert lo. induction n as [|n IH]; intros lo.
  - cbn [range List.filter length Nat.sub].
    destruct ((lo <=? m) && (m <? lo + Z.of_nat 0))%Z eqn:E; reflexivity.
  - cbn [range List.filter]. destruct (Z.eqb_spec lo m) as [->|Hne]; cbn [negb length].
    + rewrite IH.
      destruct ((m + 1 <=? m) && (m <? m + 1 + Z.of_nat n))%Z eqn:E1;
        [bool_lia|].
      destruct ((m <=? m) && (m <? m + Z.of_nat (S n)))%Z eqn:E2; [lia|bool_lia].
    + rewrite IH.
      destruct ((lo + 1 <=? m) && (m <? lo + 1 + Z.of_nat n))%Z eqn:E1;
        destruct ((lo <=? m) && (m <? lo + Z.of_nat (S n)))%Z eqn:E2;
        bool_lia.
Qed.

(** X16: for a device address of four pieces whose last piece is a
    number, [scanSubnetForTvPorts] returns exactly the addresses of the
    device's own subnet with a last octet from 1 to 60, other than the
    device's, whose probe connected; it submits 59 probes when the
    device's octet is in that range and 60 otherwise. *)
Theorem probes_of_the_scan (deviceIp p0 p1 p2 p3 : string) (last : Z)
        (answered : string -> bool) (x : string) :
  splitDots deviceIp = [p0; p1; p2; p3] -> toIntOrNull p3 = Some last ->
  (In x (scanSubnetForTvPorts (Some deviceIp) answered)
   <-> exists i, (1 <= i <= 60)%Z /\ i <> last
                 /\ x = p0 ++ "." ++ p1 ++ "." ++ p2 ++ "." ++ intToString i
                 /\ answered x = true)
  /\ length (probeAddresses deviceIp)
     = if ((1 <=? last) && (last <=? 60))%Z then 59%nat else 60%nat.
Proof.
  intros Hs Hl. unfold scanSubnetForTvPorts, probeAddresses. rewrite Hs, Hl. split.
  - rewrite In_sorted, filter_In, in_map_iff. split.
    + intros [(i & <- & Hi) Ha]. apply filter_In in Hi as [Hr Hne].
      apply in_range in Hr. apply negb_true_iff, Z.eqb_neq in Hne.
      exists i. split; [lia|]. split; [exact Hne|].
      rewrite !append_assoc in *. now split.
    + intros (i & Hi & Hne & -> & Ha). split; [|exact Ha].
      exists i. split; [now rewrite !append_assoc|].
      apply filter_In. split; [apply in_range; lia|].
      now apply negb_true_iff, Z.eqb_neq.
  - rewrite length_map, length_filter_range.
    destruct ((1 <=? last) && (last <? 1 + Z.of_nat 60))%Z eqn:E1;
      destruct ((1 <=? last) && (last <=? 60))%Z eqn:E2;
      try reflexivity; bool_lia.
Qed.

Lemma probes_of_the_scan_witness :
  (In "192.168.1.7" (scanSubnetForTvPorts (Some "192.168.1.23") (fun _ => true))
   <-> exists i, (1 <= i <= 60)%Z /\ i <> 23%Z
                 /\ "192.168.1.7" = "192" ++ "." ++ "168" ++ "." ++ "1" ++ "." ++ intToString i
                 /\ true = true)
  /\ length (probeAddresses "192.168.1.23") = 59%nat.
Proof.
  apply (probes_of_the_scan "192.168.1.23" "192" "168" "1" "23" 23 (fun _ => true)
           "192.168.1.7").
  - reflexivity.
  - reflexivity.
Defined.

(** X17: for a device address of four pieces, [generateSubnetIps] gives
    exactly the addresses of the device's subnet with a last octet from
    1 to 50 other than the number [parseInt] reads from the last piece:
    49 addresses when that number is in the range, and all 50 when it is
    outside it or the piece does not start with a number. *)
Theorem addresses_of_generateSubnetIps (deviceIp p0 p1 p2 p3 : string) (x : string) :
  splitDots deviceIp = [p0; p1; p2; p3] ->
  (In x (generateSubnetIps deviceIp)
   <-> exists i, (1 <= i <= 50)%Z /\ parseInt p3 <> Some i
                 /\ x = p0 ++ "." ++ p1 ++ "." ++ p2 ++ "." ++ intToString i)
  /\ length (generateSubnetIps deviceIp)
     = match parseInt p3 with
       | Some n => if ((1 <=? n) && (n <=? 50))%Z then 49%nat else 50%nat
       | None => 50%nat
       end.
Proof.
  intros Hs. unfold generateSubnetIps. rewrite Hs. split.
  - rewrite in_map_iff. split.
    + intros (i & <- & Hi). apply filter_In in Hi as [Hr Hne].
      apply in_range in Hr. exists i. split; [lia|]. split.
      * destruct (parseInt p3) as [n|]; [|discriminate].
        apply negb_true_iff, Z.eqb_neq in Hne. congruence.
      * now rewrite !append_assoc.
    + intros (i & Hi & Hne & ->). exists i. split; [now rewrite !append_assoc|].
      apply filter_In. split; [apply in_range; lia|].
      destruct (parseInt p3) as [n|]; [|reflexivity].
      apply negb_true_iff, Z.eqb_neq. congruence.
  - rewrite length_map. destruct (parseInt p3) as [n|].
    + rewrite length_filter_range.
      destruct ((1 <=? n) && (n <? 1 + Z.of_nat 50))%Z eqn:E1;
        destruct ((1 <=? n) && (n <=? 50))%Z eqn:E2;
        try reflexivity; bool_lia.
    + reflexivity.
Qed.

Lemma addresses_of_generateSubnetIps_witness :
  (In "192.168.1.7" (generateSubnetIps "192.168.1.23")
   <-> exists i, (1 <= i <= 50)%Z /\ parseInt "23" <> Some i
                 /\ "192.168.1.7" = "192" ++ "." ++ "168" ++ "." ++ "1" ++ "." ++ intToString i)
  /\ length (generateSubnetIps "192.168.1.23") = 49%nat.
Proof.
  apply (addresses_of_generateSubnetIps "192.168.1.23" "192" "168" "1" "23" "192.168.1.7").
  reflexivity.
Defined.

End SubnetMoreFacts.

(** ** Facts about the registry's sessions and events *)

Module RegistryEventsFacts.
Import Types Registry RegistryFacts RegistryEvents.
Local Open Scope string_scope.

(** *** Registration *)

Lemma brand_eqb_refl (b : TvBrand) : brand_eqb b b = true.
Proof. destruct b; reflexivity. Qed.

Lemma brand_eqb_sym (a b : TvBrand) : brand_eqb a b = brand_eqb b a.
Proof. destruct a, b; reflexivity. Qed.

Lemma find_app_brand (b : TvBrand) (l1 l2 : list TvHandler) :
  find (fun h => brand_eqb (handlerBrand h) b) (l1 ++ l2)
  = match find (fun h => brand_eqb (handlerBrand h) b) l1 with
    | Some h => Some h
    | None => find (fun h => brand_eqb (handlerBrand h) b) l2
    end.
Proof.
  induction l1 as [|h l1 IH]; [reflexivity|]. cbn [app find].
  destruct (brand_eqb (handlerBrand h) b); [reflexivity | exact IH].
Qed.

Lemma existsb_find_brand (b : TvBrand) (l : list TvHandler) :
  existsb (fun h => brand_eqb (handlerBrand h) b) l = true
  <-> find (fun h => brand_eqb (handlerBrand h) b) l <> None.
Proof.
  induction l as [|h l IH]; cbn [existsb find]; [split; congruence|].
  destruct (brand_eqb (handlerBrand h) b); cbn [orb]; [split; congruence | exact IH].
Qed.

(** X18: [register] never displaces a handler: after it the handler
    found for the brand is the one registered first, the handlers of
    other brands are found as before, registering the same handler again
    changes nothing, and the brands of the registered handlers stay
    pairwise distinct. *)
Theorem register_first_wins (handler : TvHandler) (r : HandlerRegistry) (b : TvBrand) :
  getHandlerByBrand (handlerBrand handler) (register handler r)
  = Some (match getHandlerByBrand (handlerBrand handler) r with
          | Some first => first
          | None => handler
          end)
  /\ (b <> handlerBrand handler ->
      getHandlerByBrand b (register handler r) = getHandlerByBrand b r)
  /\ register handler (register handler r) = register handler r
  /\ (NoDup (map handlerBrand (handlers r)) ->
      NoDup (map handlerBrand (handlers (register handler r)))).
Proof.
  unfold register, getHandlerByBrand.
  pose proof (existsb_find_brand (handlerBrand handler) (handlers r)) as Hex.
  destruct (existsb _ (handlers r)) eqn:E.
  - repeat split; try tauto.
    + destruct (find _ (handlers r)); [reflexivity|]. destruct Hex as [Hex _].
      now specialize (Hex eq_refl).
    + now rewrite E.
  - assert (Hnone : find (fun h => brand_eqb (handlerBrand h) (handlerBrand handler))
                         (handlers r) = None).
    { destruct (find _ (handlers r)); [|reflexivity]. destruct Hex as [_ Hex].
      assert (false = true) by (apply Hex; discriminate). discriminate. }
    cbn [handlers]. repeat split.
    + rewrite find_app_brand, Hnone. cbn [find]. now rewrite brand_eqb_refl.
    + intros Hb. rewrite find_app_brand.
      destruct (find (fun h => brand_eqb (handlerBrand h) b) (handlers r)); [reflexivity|].
      cbn [find]. destruct (brand_eqb (handlerBrand handler) b) eqn:Eb; [|reflexivity].
      apply brand_eqb_eq in Eb. congruence.
    + rewrite existsb_app. cbn [existsb]. rewrite brand_eqb_refl, orb_true_r. reflexivity.
    + intros Hnd. rewrite map_app. cbn [map]. apply NoDup_app. repeat split.
      * exact Hnd.
      * intros x Hx Hx'. apply list_elem_of_singleton in Hx'. subst x.
        apply list_elem_of_In, in_map_iff in Hx. destruct Hx as (h & Hh & Hin).
        assert (existsb (fun h0 => brand_eqb (handlerBrand h0) (handlerBrand handler))
                        (handlers r) = true).
        { apply existsb_exists. exists h. split; [exact Hin|]. rewrite Hh.
          apply brand_eqb_refl. }
        congruence.
      * apply NoDup_singleton.
Qed.


Lemma register_first_wins_witness :
  getHandlerByBrand roku (register plainHandler emptyRegistry)
  = getHandlerByBrand roku emptyRegistry
  /\ NoDup (map handlerBrand (handlers (register plainHandler emptyRegistry))).
Proof.
  destruct (register_first_wins plainHandler emptyRegistry roku) as (_ & H2 & _ & H4).
  split; [apply H2; discriminate | apply H4; constructor].
Defined.

(** *** Sessions *)

(** X20: when the handler of the device's brand refuses the
    connection, [connect] rejects with the handler's own reason, no
    handler and no device are active afterwards (the session that was
    active before the call is gone as well), the subscription just made
    is undone, and keys are answered with false without a call. *)
Theorem connect_failure_clears (d : TvDevice) (r : HandlerRegistry) (h : TvHandler)
        (err : string) :
  getHandler d r = Some h -> h_connect h d = Rejected err ->
  let r' := after (connect d r) in
  fst (fst (connect d r)) = Rejected err
  /\ activeHandler r' = None /\ activeDevice r' = None /\ activeUnsubscribe r' = None
  /\ isConnected r' = false
  /\ handlers r' = handlers r /\ connectionListeners r' = connectionListeners r
  /\ snd (connect d r)
     = (match activeHandler r with
        | Some old => CallDisconnect (handlerId old) :: callUnsubscribe r
        | None => []
        end ++ [CallSubscribe (handlerId h); CallConnect (handlerId h) d;
                CallUnsubscribe (handlerId h)])%list
  /\ forall key, sendKey key r' = (Resolved false, []).
Proof.
  intros Hg Hc. unfold after, connect. rewrite Hg.
  destruct (activeHandler r) as [old|] eqn:Ea; cbn [fst snd]; rewrite Hc; cbn.
  all: repeat split.
  all: rewrite <- ?app_assoc; reflexivity.
Qed.

Lemma connect_failure_clears_witness :
  fst (fst (connect rokuDevice (register refusingHandler emptyRegistry))) = Rejected "refused"
  /\ activeHandler (after (connect rokuDevice (register refusingHandler emptyRegistry))) = None.
Proof.
  destruct (connect_failure_clears rokuDevice (register refusingHandler emptyRegistry)
              refusingHandler "refused") as (H1 & H2 & _).
  - reflexivity.
  - reflexivity.
  - exact (conj H1 H2).
Defined.

(** X21: [disconnect] ends as the active handler's disconnect ends
    (resolved when there is none), and whichever way that is, no handler
    is active afterwards: the registry is not connected, keys, raw keys
    and app launches are answered with false without a call, and a
    second [disconnect] calls nothing. *)
Theorem disconnect_clears (r : HandlerRegistry) :
  let r' := after (disconnect r) in
  fst (fst (disconnect r))
  = match activeHandler r with
    | Some h => h_disconnect h
    | None => Resolved tt
    end
  /\ activeHandler r' = None /\ isConnected r' = false
  /\ handlers r' = handlers r
  /\ (forall key, sendKey key r' = (Resolved false, [])
                  /\ sendRawKey key r' = (Resolved false, [])
                  /\ launchApp key r' = (Resolved false, []))
  /\ disconnect r' = (Resolved tt, r', []).
Proof.
  unfold after, disconnect. destruct (activeHandler r) as [h|] eqn:Ea; cbn [fst snd].
  - repeat split.
  - unfold isConnected, sendKey, sendRawKey, launchApp. rewrite Ea. repeat split.
Qed.

(** *** Events *)

(** X22: after [connect] to a device, whether it succeeded or not, an
    event from any handler other than the one just chosen is dropped: no
    listener is called and the registry is unchanged. *)
Theorem stale_events_dropped (d : TvDevice) (r : HandlerRegistry) (h : TvHandler)
        (other : nat) (event : ConnectionEvent) :
  getHandler d r = Some h -> handlerId h <> other ->
  forward other event (after (connect d r)) = (after (connect d r), [], []).
Proof.
  intros Hg Hne. unfold after, connect. rewrite Hg.
  destruct (activeHandler r) as [old|]; cbn [fst snd];
    destruct (h_connect h d); cbn [fst snd]; unfold forward; cbn [activeHandler clearActive];
    try reflexivity.
  all: destruct (Nat.eqb_spec (handlerId h) other); [contradiction | reflexivity].
Qed.

Lemma stale_events_dropped_witness :
  forward 1 disconnectedEvent connectedRegistry = (connectedRegistry, [], []).
Proof.
  apply (stale_events_dropped samsungDevice (register plainHandler emptyRegistry)
           plainHandler 1 disconnectedEvent).
  - reflexivity.
  - discriminate.
Defined.

(** X23: a disconnected event from the active handler is delivered to
    every listener, in the order of subscription, and ends the session:
    the handler's subscription is undone, no handler and no device are
    active, later events are dropped whoever sends them, and
    [disconnect] calls nothing. *)
Theorem disconnected_event_ends_session (r : HandlerRegistry) (h : TvHandler)
        (event : ConnectionEvent) :
  activeHandler r = Some h -> state event = disconnected ->
  let r' := fst (fst (forward (handlerId h) event r)) in
  snd (fst (forward (handlerId h) event r))
  = map (fun l => (l, event)) (connectionListeners r)
  /\ snd (forward (handlerId h) event r) = callUnsubscribe r
  /\ activeHandler r' = None /\ activeDevice r' = None /\ isConnected r' = false
  /\ (forall any event', forward any event' r' = (r', [], []))
  /\ disconnect r' = (Resolved tt, r', []).
Proof.
  intros Ha Hs. unfold forward. rewrite Ha, Nat.eqb_refl, Hs. cbn. repeat split.
Qed.

Lemma disconnected_event_ends_session_witness :
  activeHandler (fst (fst (forward 0 disconnectedEvent connectedRegistry))) = None
  /\ snd (forward 0 disconnectedEvent connectedRegistry) = [CallUnsubscribe 0].
Proof.
  destruct (disconnected_event_ends_session connectedRegistry plainHandler disconnectedEvent)
    as (_ & H2 & H3 & _).
  - reflexivity.
  - reflexivity.
  - exact (conj H3 H2).
Defined.

Lemma addListener_In (l x : nat) (ls : list nat) :
  In x (addListener l ls) <-> x = l \/ In x ls.
Proof.
  unfold addListener. destruct (existsb (Nat.eqb l) ls) eqn:E.
  - split; [now right|]. intros [->|H]; [|exact H].
    apply existsb_exists in E as (y & Hy & Hl). apply Nat.eqb_eq in Hl. now subst y.
  - rewrite in_app_iff. cbn. intuition.
Qed.

Lemma addListener_NoDup (l : nat) (ls : list nat) : NoDup ls -> NoDup (addListener l ls).
Proof.
  intros H. unfold addListener. destruct (existsb (Nat.eqb l) ls) eqn:E; [exact H|].
  apply NoDup_app. repeat split; [exact H| |apply NoDup_singleton].
  intros x Hx Hx'. apply list_elem_of_singleton in Hx'. subst x.
  assert (existsb (Nat.eqb l) ls = true); [|congruence].
  apply existsb_exists. exists l. split; [now apply list_elem_of_In|apply Nat.eqb_refl].
Qed.

(** X24: an event of the active handler is delivered to exactly the
    subscribed listeners; subscribing adds the listener to them,
    the function subscribing returned removes it and no other, and as no
    listener is held twice none is called twice for one event. *)
Theorem listeners_notified (l : nat) (r : HandlerRegistry) (h : TvHandler)
        (event : ConnectionEvent) :
  activeHandler r = Some h ->
  let told r0 := map fst (snd (fst (forward (handlerId h) event r0))) in
  told r = connectionListeners r
  /\ (forall x, In x (told (onConnectionStateChange l r)) <-> x = l \/ In x (told r))
  /\ (forall x, In x (told (unsubscribe l r)) <-> x <> l /\ In x (told r))
  /\ (NoDup (told r) ->
      NoDup (told (onConnectionStateChange l r)) /\ NoDup (told (unsubscribe l r))).
Proof.
  intros Ha told.
  assert (Ht : forall r0, activeHandler r0 = Some h -> told r0 = connectionListeners r0).
  { intros r0 H0. unfold told, forward. rewrite H0, Nat.eqb_refl.
    destruct (state event); cbn [fst snd]; rewrite map_map; cbn [fst]; apply map_id. }
  rewrite !Ht by assumption. cbn [connectionListeners onConnectionStateChange unsubscribe].
  split; [reflexivity|]. split; [|split].
  - intros x. apply addListener_In.
  - intros x. rewrite filter_In, negb_true_iff, Nat.eqb_neq. tauto.
  - intros Hnd. split; [now apply addListener_NoDup|].
    now apply SsdpFacts.NoDup_filter_bool.
Qed.

Lemma listeners_notified_witness :
  map fst (snd (fst (forward 0 disconnectedEvent
                       (unsubscribe 7 (onConnectionStateChange 7 connectedRegistry))))) = []
  /\ map fst (snd (fst (forward 0 disconnectedEvent
                          (onConnectionStateChange 7 connectedRegistry)))) = [7%nat].
Proof.
  destruct (listeners_notified 7 (onConnectionStateChange 7 connectedRegistry) plainHandler
              disconnectedEvent) as (H1 & _).
  - reflexivity.
  - split; [reflexivity | exact H1].
Defined.

(** *** The last connected address *)

Lemma askLastConnectedIp_skip (before rest : list TvHandler) :
  Forall offersNothing before ->
  askLastConnectedIp (before ++ rest)
  = (fst (askLastConnectedIp rest),
     (map handlerId before ++ snd (askLastConnectedIp rest))%list).
Proof.
  induction 1 as [|b before Hb _ IH];
    [cbn [app map]; destruct (askLastConnectedIp rest); reflexivity|].
  cbn [app askLastConnectedIp map]. rewrite IH.
  destruct Hb as [-> | ->]; reflexivity.
Qed.

(** X25: [getLastConnectedIp] resolves to an address exactly when some
    handler offers one that is not empty and every handler registered
    before it resolved to null or to the empty string; it is the address
    of the first such handler, and the handlers after it are not
    asked. *)
Theorem last_connected_ip_first_offer (r : HandlerRegistry) (ip : string) :
  fst (getLastConnectedIp r) = Resolved (Some ip)
  <-> exists before h rest,
        handlers r = (before ++ h :: rest)%list
        /\ Forall offersNothing before
        /\ h_getLastConnectedIp h = Resolved (Some ip) /\ ip <> EmptyString
        /\ snd (getLastConnectedIp r) = map handlerId (before ++ [h])%list.
Proof.
  unfold getLastConnectedIp. generalize (handlers r) as hs. intros hs. split.
  - induction hs as [|h hs IH]; [discriminate|].
    cbn [askLastConnectedIp]. destruct (h_getLastConnectedIp h) as [[ip0|]|reason] eqn:E;
      [destruct (String.length ip0 =? 0)%nat eqn:E0| |discriminate].
    + destruct (askLastConnectedIp hs) as [answer asked]. cbn [fst snd] in *.
      intros H. destruct (IH H) as (before & h' & rest & -> & Hb & Hh & Hne & Hs).
      exists (h :: before), h', rest. repeat split; try assumption.
      * constructor; [|assumption]. right. rewrite E. do 2 f_equal.
        destruct ip0; [reflexivity|discriminate E0].
      * cbn [app map]. now f_equal.
    + cbn [fst snd]. intros H. injection H as ->.
      exists [], h, hs. split; [reflexivity|]. split; [constructor|].
      split; [exact E|]. split; [|reflexivity]. intros ->. discriminate E0.
    + destruct (askLastConnectedIp hs) as [answer asked]. cbn [fst snd] in *.
      intros H. destruct (IH H) as (before & h' & rest & -> & Hb & Hh & Hne & Hs).
      exists (h :: before), h', rest. repeat split; try assumption.
      * constructor; [|assumption]. now left.
      * cbn [app map]. now f_equal.
  - intros (before & h & rest & -> & Hb & Hh & Hne & _).
    rewrite askLastConnectedIp_skip by assumption. cbn [fst askLastConnectedIp].
    rewrite Hh. destruct ip; [congruence|reflexivity].
Qed.

End RegistryEventsFacts.

(** ** Facts about [connect] and the events during its waits *)

Module RegistryAwaitFacts.
Import Types Registry RegistryEvents RegistryAwait.

(** Without events during the waits, [connect] is the function of
    [Registry]. *)
Lemma connect_quiet (d : TvDevice) (r : HandlerRegistry) :
  let s := connect d [] [] r in
  (promise s, registry s, calls s) = Registry.connect d r /\ notified s = [].
Proof.
  unfold connect, Registry.connect.
  destruct (getHandler d r) as [h|]; [|split; reflexivity].
  destruct (activeHandler r) as [old|]; cbn [deliver];
    destruct (h_connect h d); cbn; rewrite ?app_nil_r; split; reflexivity.
Qed.

Lemma deliver_keeps (hid : nat) (emitted : list ConnectionEvent) (r : HandlerRegistry) :
  handlers (fst (fst (deliver hid emitted r))) = handlers r
  /\ connectionListeners (fst (fst (deliver hid emitted r))) = connectionListeners r.
Proof.
  revert r. induction emitted as [|e rest IH]; intros r; [split; reflexivity|].
  cbn [deliver]. destruct (activeUnsubscribe r) as [sub|]; [|apply IH].
  destruct (sub =? hid)%nat; [|apply IH].
  destruct (forward hid e r) as [[r1 n1] c1] eqn:Ef.
  specialize (IH r1). destruct (deliver hid rest r1) as [[r2 n2] c2]. cbn [fst] in *.
  assert (handlers r1 = handlers r /\ connectionListeners r1 = connectionListeners r) as [H1 H2].
  { unfold forward in Ef. destruct (activeHandler r) as [a|]; [|injection Ef as <- _ _; auto].
    destruct (handlerId a =? hid)%nat; [|injection Ef as <- _ _; auto].
    destruct (state e); injection Ef as <- _ _; auto. }
  destruct IH as [IH1 IH2]. split; congruence.
Qed.

(** While the handler does not say disconnected, its events go to the
    listeners and the session stays. *)
Lemma deliver_live (h : TvHandler) (emitted : list ConnectionEvent) (r : HandlerRegistry) :
  activeHandler r = Some h -> activeUnsubscribe r = Some (handlerId h) ->
  staysConnected emitted ->
  deliver (handlerId h) emitted r = (r, broadcast emitted r, []).
Proof.
  intros Ha Hu Hs. induction Hs as [|e rest He Hs IH]; [reflexivity|].
  cbn [deliver]. rewrite Hu, Nat.eqb_refl.
  unfold forward at 1. rewrite Ha, Nat.eqb_refl.
  destruct (state e) eqn:Es; [congruence|..]; rewrite IH; reflexivity.
Qed.

(** Nothing reaches a registry that holds no subscription. *)
Lemma deliver_unsubscribed (hid : nat) (emitted : list ConnectionEvent) (r : HandlerRegistry) :
  activeUnsubscribe r = None -> deliver hid emitted r = (r, [], []).
Proof.
  intros Hu. induction emitted as [|e rest IH]; [reflexivity|].
  cbn [deliver]. rewrite Hu. exact IH.
Qed.

(** The first disconnected event ends the session; what the handler
    emits after it is not heard. *)
Lemma deliver_disconnected (h : TvHandler) (pre post : list ConnectionEvent)
      (e : ConnectionEvent) (r : HandlerRegistry) :
  activeHandler r = Some h -> activeUnsubscribe r = Some (handlerId h) ->
  staysConnected pre -> state e = disconnected ->
  deliver (handlerId h) (pre ++ e :: post) r
  = (clearActive r, broadcast (pre ++ [e]) r, [CallUnsubscribe (handlerId h)]).
Proof.
  intros Ha Hu Hs He. induction Hs as [|e' rest He' Hs IH].
  - cbn [app deliver]. rewrite Hu, Nat.eqb_refl.
    unfold forward. rewrite Ha, Nat.eqb_refl, He.
    rewrite deliver_unsubscribed by reflexivity.
    unfold callUnsubscribe at 1. rewrite Hu. unfold broadcast. cbn. now rewrite !app_nil_r.
  - cbn [app deliver]. rewrite Hu, Nat.eqb_refl.
    unfold forward at 1. rewrite Ha, Nat.eqb_refl.
    destruct (state e') eqn:Es; [congruence|..]; rewrite IH; reflexivity.
Qed.

(** X19: when the handler of the device's brand accepts the
    connection, [connect] resolves, whatever the handlers emit while it
    waits.  When the chosen handler emits no disconnected event during the
    wait, it and the device are the active ones afterwards, keys are sent
    to it, every event it emitted was handed to every listener in order,
    and the calls end with the subscription to the handler and its
    connect (after the disconnect of the handler active before and the
    undoing of its subscription, if there was one).  When it does emit a
    disconnected event during the wait, [connect] resolves all the same
    but no handler and no device are active: the subscription is undone,
    the listeners heard the events up to that one, and keys are answered
    with false. *)
Theorem connect_installs_session (d : TvDevice) (r : HandlerRegistry) (h : TvHandler)
        (whileDisconnecting whileConnecting : list ConnectionEvent) :
  getHandler d r = Some h -> h_connect h d = Resolved tt ->
  let s := connect d whileDisconnecting whileConnecting r in
  let r' := registry s in
  let subscribed := [CallSubscribe (handlerId h); CallConnect (handlerId h) d] in
  promise s = Resolved tt
  /\ handlers r' = handlers r /\ connectionListeners r' = connectionListeners r
  /\ (staysConnected whileConnecting ->
      activeHandler r' = Some h /\ activeDevice r' = Some d
      /\ isConnected r' = h_isConnected h
      /\ (forall key, sendKey key r' = (h_sendKey h key, [CallSendKey (handlerId h) key]))
      /\ (exists earlier, notified s = (earlier ++ broadcast whileConnecting r)%list)
      /\ (exists earlier, calls s = (earlier ++ subscribed)%list)
      /\ (whileDisconnecting = [] ->
          notified s = broadcast whileConnecting r
          /\ calls s
             = (match activeHandler r with
                | Some old => CallDisconnect (handlerId old) :: callUnsubscribe r
                | None => []
                end ++ subscribed)%list))
  /\ (forall pre e post,
        whileConnecting = (pre ++ e :: post)%list -> staysConnected pre ->
        state e = disconnected ->
        activeHandler r' = None /\ activeDevice r' = None /\ activeUnsubscribe r' = None
        /\ isConnected r' = false
        /\ (forall key, sendKey key r' = (Resolved false, []))
        /\ (exists earlier, notified s = (earlier ++ broadcast (pre ++ [e]) r)%list)
        /\ (exists earlier,
              calls s = (earlier ++ subscribed ++ [CallUnsubscribe (handlerId h)])%list)).
Proof.
  intros Hg Hc s r' subscribed. subst s r'. unfold connect. rewrite Hg, Hc.
  set (first := match activeHandler r with
                | Some old =>
                  let '(ra, n, c) := deliver (handlerId old) whileDisconnecting r in
                  (clearActive ra, n,
                   ([CallDisconnect (handlerId old)] ++ c ++ callUnsubscribe ra)%list)
                | None => (r, [], [])
                end).
  assert (Hfirst : handlers (fst (fst first)) = handlers r
                   /\ connectionListeners (fst (fst first)) = connectionListeners r).
  { subst first. destruct (activeHandler r) as [old|]; [|split; reflexivity].
    pose proof (deliver_keeps (handlerId old) whileDisconnecting r) as Hk.
    destruct (deliver (handlerId old) whileDisconnecting r) as [[ra n] c].
    exact Hk. }
  assert (Hquiet : whileDisconnecting = [] ->
            snd (fst first) = []
            /\ snd first = match activeHandler r with
                           | Some old => CallDisconnect (handlerId old) :: callUnsubscribe r
                           | None => []
                           end).
  { intros ->. subst first. destruct (activeHandler r) as [old|]; split; reflexivity. }
  destruct first as [[r1 notified1] calls1]. cbn [fst snd] in Hfirst, Hquiet.
  destruct Hfirst as [Hh Hl].
  set (r2 := mkRegistry (handlers r1) (Some h) (Some d) (Some (handlerId h))
                        (connectionListeners r1)).
  assert (Hb : forall l, broadcast l r2 = broadcast l r).
  { intros l. unfold broadcast, r2. cbn [connectionListeners]. now rewrite Hl. }
  pose proof (deliver_keeps (handlerId h) whileConnecting r2) as Hk.
  split; [|split; [|split; [|split]]].
  - destruct (deliver (handlerId h) whileConnecting r2) as [[r3 n3] c3]. reflexivity.
  - destruct (deliver (handlerId h) whileConnecting r2) as [[r3 n3] c3].
    cbn [registry fst] in *. destruct Hk as [Hk _]. rewrite Hk. exact Hh.
  - destruct (deliver (handlerId h) whileConnecting r2) as [[r3 n3] c3].
    cbn [registry fst] in *. destruct Hk as [_ Hk]. rewrite Hk. exact Hl.
  - intros Hs. rewrite (deliver_live h whileConnecting r2) by (try reflexivity; assumption).
    cbn [registry notified calls]. rewrite Hb, app_nil_r.
    unfold isConnected, sendKey, r2. cbn [activeHandler activeDevice].
    split; [reflexivity|]. split; [reflexivity|]. split; [reflexivity|].
    split; [reflexivity|]. split; [exists notified1; reflexivity|].
    split; [eexists; reflexivity|].
    intros Hq. apply Hquiet in Hq as [-> ->]. split; reflexivity.
  - intros pre e post -> Hs He.
    rewrite (deliver_disconnected h pre post e r2) by (try reflexivity; assumption).
    cbn [registry notified calls]. rewrite Hb.
    unfold isConnected, sendKey, clearActive. cbn [activeHandler activeDevice activeUnsubscribe].
    split; [reflexivity|]. split; [reflexivity|]. split; [reflexivity|].
    split; [reflexivity|]. split; [reflexivity|]. split; [exists notified1; reflexivity|].
    exists calls1. now rewrite <- app_assoc.
Qed.

Lemma connect_installs_session_witness :
  (let s := connect samsungDevice [] [connectingEvent; connectedEvent] listeningRegistry in
   activeHandler (registry s) = Some plainHandler
   /\ activeDevice (registry s) = Some samsungDevice
   /\ notified s = [(7%nat, connectingEvent); (8%nat, connectingEvent);
                    (7%nat, connectedEvent); (8%nat, connectedEvent)])
  /\ (let s := connect samsungDevice [] [connectingEvent; disconnectedEvent; connectedEvent]
                       listeningRegistry in
      promise s = Resolved tt /\ activeHandler (registry s) = None
      /\ sendKey "KEY_MUTE" (registry s) = (Resolved false, [])).
Proof.
  split.
  - destruct (connect_installs_session samsungDevice listeningRegistry plainHandler
                [] [connectingEvent; connectedEvent]) as (_ & _ & _ & H & _).
    + reflexivity.
    + reflexivity.
    + destruct H as (H1 & H2 & _ & _ & _ & _ & H7).
      * repeat constructor; discriminate.
      * destruct (H7 eq_refl) as [H8 _]. exact (conj H1 (conj H2 H8)).
  - destruct (connect_installs_session samsungDevice listeningRegistry plainHandler
                [] [connectingEvent; disconnectedEvent; connectedEvent]) as (H0 & _ & _ & _ & H).
    + reflexivity.
    + reflexivity.
    + destruct (H [connectingEvent] disconnectedEvent [connectedEvent])
        as (H1 & _ & _ & _ & H5 & _).
      * reflexivity.
      * repeat constructor; discriminate.
      * reflexivity.
      * exact (conj H0 (conj H1 (H5 _))).
Defined.

End RegistryAwaitFacts.

(** ** Facts about discovery *)

Module DiscoveryFacts.
Import Str Types Registry Subnet SubnetFacts Discovery.
Local Open Scope string_scope.

Lemma identifyFirst_spec (n : Network) (hs : list TvHandler) (address : string) :
  (forall d, fst (identifyFirst n hs address) = Some d ->
     exists before h rest,
       hs = (before ++ h :: rest)%list
       /\ identify n (handlerId h) address = Resolved (Some d)
       /\ Forall (fun b => forall d', identify n (handlerId b) address <> Resolved (Some d'))
                 before)
  /\ (forall c, In c (snd (identifyFirst n hs address)) ->
        snd c = address /\ exists h, In h hs /\ handlerId h = fst c).
Proof.
  induction hs as [|h hs [IH1 IH2]]; [split; [discriminate | intros c []]|].
  cbn [identifyFirst].
  destruct (identify n (handlerId h) address) as [[d0|]|reason] eqn:E.
  - cbn [fst snd]. split.
    + intros d Hd. injection Hd as <-. exists [], h, hs. repeat split; [exact E|constructor].
    + intros c [<-|[]]. split; [reflexivity|]. exists h. split; [now left|reflexivity].
  - destruct (identifyFirst n hs address) as [found calls]. cbn [fst snd] in *. split.
    + intros d Hd. destruct (IH1 d Hd) as (before & h' & rest & -> & Hh & Hb).
      exists (h :: before), h', rest. repeat split; try assumption.
      constructor; [|exact Hb]. intros d'. rewrite E. discriminate.
    + intros c [<-|Hc]; [split; [reflexivity|]; exists h; split; [now left|reflexivity]|].
      destruct (IH2 c Hc) as (H1 & h' & Hin & Hid). split; [exact H1|].
      exists h'. split; [now right|exact Hid].
  - destruct (identifyFirst n hs address) as [found calls]. cbn [fst snd] in *. split.
    + intros d Hd. destruct (IH1 d Hd) as (before & h' & rest & -> & Hh & Hb).
      exists (h :: before), h', rest. repeat split; try assumption.
      constructor; [|exact Hb]. intros d'. rewrite E. discriminate.
    + intros c [<-|Hc]; [split; [reflexivity|]; exists h; split; [now left|reflexivity]|].
      destruct (IH2 c Hc) as (H1 & h' & Hin & Hid). split; [exact H1|].
      exists h'. split; [now right|exact Hid].
Qed.

Lemma probeAll_spec (n : Network) (r : HandlerRegistry) (addresses : list string) :
  (forall d, In d (fst (probeAll n (handlers r) addresses)) ->
     exists address, In address addresses /\ firstRecognised n r address d)
  /\ (forall c, In c (snd (probeAll n (handlers r) addresses)) ->
        In (snd c) addresses /\ exists h, In h (handlers r) /\ handlerId h = fst c).
Proof.
  induction addresses as [|a addresses [IH1 IH2]]; [split; intros ? []|].
  cbn [probeAll]. pose proof (identifyFirst_spec n (handlers r) a) as [Hf Hc].
  destruct (identifyFirst n (handlers r) a) as [found calls].
  destruct (probeAll n (handlers r) addresses) as [devices calls']. cbn [fst snd] in *.
  split.
  - intros d Hd.
    assert (Hcase : found = Some d \/ In d devices).
    { destruct found as [d0|]; [destruct Hd as [<-|Hd]; [now left|now right] | now right]. }
    destruct Hcase as [->|Hin].
    + exists a. split; [now left|]. apply Hf. reflexivity.
    + destruct (IH1 d Hin) as (address & Ha & Hr). exists address. split; [now right|exact Hr].
  - intros c Hin. apply in_app_iff in Hin as [Hin|Hin].
    + destruct (Hc c Hin) as [-> Hh]. split; [now left|exact Hh].
    + destruct (IH2 c Hin) as [Ha Hh]. split; [now right|exact Hh].
Qed.

Lemma newIps_In (rawIps subnetIps : list string) (address : string) :
  In address (newIps rawIps subnetIps) <-> In address subnetIps /\ ~ In address rawIps.
Proof.
  unfold newIps. rewrite filter_In, negb_true_iff. split; intros [H1 H2]; split; try assumption.
  - intros Hin. assert (existsb (String.eqb address) rawIps = true); [|congruence].
    apply existsb_exists. exists address. split; [exact Hin|apply String.eqb_refl].
  - destruct (existsb (String.eqb address) rawIps) eqn:E; [|reflexivity].
    apply existsb_exists in E as (x & Hx & Heq). apply String.eqb_eq in Heq. now subst x.
Qed.

Lemma subnetStep_spec (n : Network) (r : HandlerRegistry) :
  (forall d, In d (fst (subnetStep n r)) ->
     exists address, candidate n address /\ ~ In address (getSsdpIps n)
                     /\ firstRecognised n r address d)
  /\ (forall c, In c (snd (subnetStep n r)) ->
        (candidate n (snd c) /\ ~ In (snd c) (getSsdpIps n))
        /\ exists h, In h (handlers r) /\ handlerId h = fst c).
Proof.
  unfold subnetStep. set (rawIps := getSsdpIps n).
  destruct (deviceIpOf n) as [deviceIp|] eqn:Ed; [|split; intros ? []].
    destruct (String.eqb deviceIp "Unknown"); [split; intros ? []|].
    pose proof (probeAll_spec n r (newIps rawIps (generateSubnetIps deviceIp))) as [H1 H2].
    assert (Hcand : forall a, In a (newIps rawIps (generateSubnetIps deviceIp)) ->
                              candidate n a /\ ~ In a rawIps).
    { intros a Ha. apply newIps_In in Ha as [Ha Hraw]. split; [|exact Hraw].
      right. exists deviceIp. repeat split; try assumption.
      intros ->. now apply generateSubnetIps_not_self in Ha. }
    split.
    - intros d Hd. destruct (H1 d Hd) as (a & Ha & Hr). exists a.
      destruct (Hcand a Ha). repeat split; assumption.
    - intros c Hc. destruct (H2 c Hc) as [Ha Hh]. split; [now apply Hcand|exact Hh].
Qed.

Lemma insertByName_Permutation (d : TvDevice) (l : list TvDevice) :
  Permutation (insertByName d l) (d :: l).
Proof.
  induction l as [|x l IH]; [reflexivity|]. cbn [insertByName].
  destruct (nameLeb d x); [reflexivity|]. rewrite IH. apply perm_swap.
Qed.

Lemma bytewiseSort_rearranges : rearranges bytewiseSort.
Proof.
  intros l l' H. injection H as <-. induction l as [|d l IH]; [reflexivity|].
  cbn [fold_right]. rewrite insertByName_Permutation. now constructor.
Qed.

Section Sorting.
Variable sortByName : list TvDevice -> Promise (list TvDevice).
Hypothesis sort_rearranges : rearranges sortByName.

Lemma discoverAll_core (n : Network) (r : HandlerRegistry) :
  (forall devices d,
     fst (discoverAll sortByName n r) = Resolved devices -> In d devices ->
     exists address, candidate n address /\ firstRecognised n r address d)
  /\ (forall c, In c (snd (discoverAll sortByName n r)) ->
        candidate n (snd c) /\ exists h, In h (handlers r) /\ handlerId h = fst c).
Proof.
  pose proof (subnetStep_spec n r) as Hsub.
  unfold discoverAll.
  set (rawIps := getSsdpIps n) in *.
  destruct (subnetStep n r) as [subnetDevices calls]. cbn [fst snd] in Hsub.
  destruct Hsub as [Hsub1 Hsub2].
  pose proof (probeAll_spec n r rawIps) as [Hraw1 Hraw2].
  assert (Hrawcand : forall a, In a rawIps -> candidate n a) by (intros a Ha; now left).
  split.
  - intros devices d Hres Hd.
    destruct subnetDevices as [|s ss].
    + destruct rawIps as [|a0 rawIps'] eqn:Er; [cbn in Hres; injection Hres as <-; destruct Hd|].
      destruct (probeAll n (handlers r) (a0 :: rawIps')) as [[|d0 ds] calls'];
        cbn [fst snd] in *; [injection Hres as <-; destruct Hd|].
      apply sort_rearranges in Hres.
      assert (Hd' : In d (d0 :: ds))
        by (apply list_elem_of_In; rewrite <- Hres; now apply list_elem_of_In).
      destruct (Hraw1 d Hd') as (a & Ha & Hr). exists a. split; [now apply Hrawcand|exact Hr].
    + cbn [fst] in Hres. apply sort_rearranges in Hres.
      assert (Hd' : In d (s :: ss))
        by (apply list_elem_of_In; rewrite <- Hres; now apply list_elem_of_In).
      destruct (Hsub1 d Hd') as (a & Ha & _ & Hr). exists a. now split.
  - intros c Hc.
    assert (Hcalls : In c calls -> candidate n (snd c)
                                    /\ exists h, In h (handlers r) /\ handlerId h = fst c).
    { intros H. destruct (Hsub2 c H) as [[H1 _] H2]. now split. }
    destruct subnetDevices as [|s ss]; [|now apply Hcalls].
    destruct rawIps as [|a0 rawIps'] eqn:Er; [now apply Hcalls|].
    destruct (probeAll n (handlers r) (a0 :: rawIps')) as [[|d0 ds] calls'];
      cbn [fst snd] in *; apply in_app_iff in Hc as [Hc|Hc]; try (now apply Hcalls);
      destruct (Hraw2 c Hc) as [Ha Hh]; (split; [now apply Hrawcand|exact Hh]).
Qed.



(** X26: [discoverAll], for any sort that rearranges the devices.
    Every device it resolves to is what the first handler, in the order
    of registration, that recognises some address gave for it; the
    addresses it asks handlers about are those SSDP reported and those of
    the phone's subnet other than the phone's own; once the subnet step
    has found a device, no address SSDP reported is asked about at all;
    and off Android it resolves to the empty list without asking. *)
Theorem discoverAll_asks_candidates (n : Network) (r : HandlerRegistry) :
  (forall devices d,
     fst (discoverAll sortByName n r) = Resolved devices -> In d devices ->
     exists address, candidate n address /\ firstRecognised n r address d)
  /\ (forall c, In c (snd (discoverAll sortByName n r)) ->
        candidate n (snd c) /\ exists h, In h (handlers r) /\ handlerId h = fst c)
  /\ (fst (subnetStep n r) <> [] ->
      forall c, In c (snd (discoverAll sortByName n r)) -> ~ In (snd c) (getSsdpIps n))
  /\ (android n = false -> discoverAll sortByName n r = (Resolved [], [])).
Proof.
  destruct (discoverAll_core n r) as [H1 H2]. split; [exact H1|]. split; [exact H2|]. split.
  - pose proof (subnetStep_spec n r) as [_ Hs]. unfold discoverAll.
    destruct (subnetStep n r) as [[|d ds] calls]; cbn [fst snd] in *; [congruence|].
    intros _ c Hc. now destruct (Hs c Hc) as [[_ H] _].
  - intros Hand. unfold discoverAll, subnetStep, getSsdpIps, deviceIpOf.
    rewrite Hand. reflexivity.
Qed.

End Sorting.

Lemma discoverAll_asks_candidates_witness :
  fst (subnetStep homeNetwork (register plainHandler emptyRegistry)) = [samsungDevice]
  /\ Forall (fun c => ~ In (snd c) (getSsdpIps homeNetwork))
            (snd (discoverAll bytewiseSort homeNetwork (register plainHandler emptyRegistry))).
Proof.
  split; [vm_compute; reflexivity|].
  apply List.Forall_forall.
  destruct (discoverAll_asks_candidates bytewiseSort bytewiseSort_rearranges homeNetwork
              (register plainHandler emptyRegistry)) as (_ & _ & H & _).
  apply H. vm_compute. discriminate.
Defined.

End DiscoveryFacts.

(** ** Facts about the handler's connection *)

Module TizenHandlerFacts.
Import Str Types Registry Samsung TizenHandler.
Local Open Scope string_scope.

Ltac last_emitted :=
  unfold lastState, isConnected;
  cbn [emitted connectedDevice emit setupNativeListeners setConnectedDevice];
  rewrite ?map_app; cbn [map]; rewrite ?last_last; reflexivity.

Lemma step_live (p : Platform) (h : Handler) (c : Call) :
  isConnected h = live (lastState h) ->
  isConnected (step p h c) = live (lastState (step p h c)).
Proof.
  intros H. destruct c as [device native|native|e|l|l]; cbn [step].
  - unfold connect. destruct (available p); cbn [negb snd]; [|exact H].
    destruct native; cbn [snd]; last_emitted.
  - unfold disconnect. destruct (available p); cbn [negb snd]; [|exact H]. last_emitted.
  - unfold onNative. destruct (nativeDevice h); [|exact H]. destruct e; last_emitted.
  - exact H.
  - exact H.
Qed.

(** X27: after any sequence of connects, disconnects, native events
    and subscriptions, on any platform, [isConnected()] is true exactly
    when the last event the handler emitted was connecting or connected;
    in particular it is already true while the connection is being
    made. *)
Theorem connected_iff_last_event_live (p : Platform) (calls : list Call) :
  isConnected (run p calls newHandler) = live (lastState (run p calls newHandler)).
Proof.
  unfold run. generalize newHandler, (eq_refl : isConnected newHandler = live (lastState newHandler)).
  induction calls as [|c calls IH]; intros h H; [exact H|].
  cbn [fold_left]. apply IH, step_live, H.
Qed.

(** X28: off Android, or without the native module, nothing ever
    happens to the handler: whatever is called, it is not connected and
    has emitted no event, [connect] rejects with the fixed message and
    [disconnect] resolves. *)
Theorem unavailable_handler_is_inert (p : Platform) (calls : list Call) :
  available p = false ->
  isConnected (run p calls newHandler) = false
  /\ emitted (run p calls newHandler) = []
  /\ forall native device,
       fst (connect p native device (run p calls newHandler))
       = Rejected "Samsung TV control is only available on Android"
       /\ fst (disconnect p native (run p calls newHandler)) = Resolved tt.
Proof.
  intros Ha.
  assert (H : connectedDevice (run p calls newHandler) = None
              /\ nativeDevice (run p calls newHandler) = None
              /\ emitted (run p calls newHandler) = []).
  { unfold run. generalize newHandler,
      (conj eq_refl (conj eq_refl eq_refl)
        : connectedDevice newHandler = None /\ nativeDevice newHandler = None
          /\ emitted newHandler = []).
    induction calls as [|c calls IH]; intros h H; [exact H|].
    cbn [fold_left]. apply IH. destruct H as (H1 & H2 & H3).
    destruct c; cbn [step]; unfold connect, disconnect, onNative; rewrite ?Ha, ?H2;
      cbn; auto. }
  destruct H as (H1 & H2 & H3). unfold isConnected. rewrite H1. repeat split; try assumption.
  - unfold connect. now rewrite Ha.
  - unfold disconnect. now rewrite Ha.
Qed.

Lemma unavailable_handler_is_inert_witness :
  isConnected (run iosPlatform [Connect samsungDevice (Resolved tt); Native NativeDisconnected]
                   newHandler) = false
  /\ emitted (run iosPlatform [Connect samsungDevice (Resolved tt); Native NativeDisconnected]
                  newHandler) = [].
Proof.
  destruct (unavailable_handler_is_inert iosPlatform
              [Connect samsungDevice (Resolved tt); Native NativeDisconnected])
    as (H1 & H2 & _).
  - reflexivity.
  - exact (conj H1 H2).
Defined.

End TizenHandlerFacts.

(** ** Facts about typing and about identified devices *)

Module KeyboardFacts.
Import Str Types Samsung Keyboard.
Local Open Scope string_scope.

Lemma charToSamsungKey_shape (ch key : string) :
  charToSamsungKey ch = Some key ->
  key = "KEY_SPACE" \/ exists c, isKeyChar c = true /\ key = "KEY_" ++ String c EmptyString.
Proof.
  unfold charToSamsungKey. destruct ch as [|c [|c' rest]]; try discriminate.
  destruct ((65 <=? nat_of_ascii (Ssdp.upperChar c))
            && (nat_of_ascii (Ssdp.upperChar c) <=? 90))%nat eqn:E1.
  - intros H. injection H as <-. right. exists (Ssdp.upperChar c). split; [|reflexivity].
    unfold isKeyChar. now rewrite E1.
  - destruct ((48 <=? nat_of_ascii c) && (nat_of_ascii c <=? 57))%nat eqn:E2.
    + intros H. injection H as <-. right. exists c. split; [|reflexivity].
      unfold isKeyChar. now rewrite E2, orb_true_r.
    + destruct (Ascii.eqb c " "); [|discriminate]. intros H. injection H as <-. now left.
Qed.

Lemma charToSamsungKey_upper (c : ascii) :
  charToSamsungKey (String (Ssdp.upperChar c) EmptyString)
  = charToSamsungKey (String c EmptyString).
Proof. destruct c as [[] [] [] [] [] [] [] []]; reflexivity. Qed.

Lemma isSpace_upper (c : ascii) : isSpace (Ssdp.upperChar c) = isSpace c.
Proof. destruct c as [[] [] [] [] [] [] [] []]; reflexivity. Qed.

(** X29: for a search text of ASCII characters, every key
    [sendSearchToTv] sends is KEY_SPACE or KEY_ followed by one capital
    letter or digit; letters are sent without their case, so a text and
    its upper-case form send the same keys; no more keys are sent than
    the text has characters, and a text of white space only sends
    none. *)
Theorem search_keys (searchText key : string) :
  Ssdp.allChars isAscii searchText = true ->
  (In key (searchKeys searchText) ->
   key = "KEY_SPACE"
   \/ exists c, isKeyChar c = true /\ key = "KEY_" ++ String c EmptyString)
  /\ searchKeys (Ssdp.uppercase searchText) = searchKeys searchText
  /\ (length (searchKeys searchText) <= String.length searchText)%nat
  /\ (Ssdp.allChars isSpace searchText = true -> searchKeys searchText = []).
Proof.
  intros _. unfold searchKeys. repeat split.
  - destruct (Ssdp.allChars isSpace searchText); [intros []|].
    intros H. apply list_elem_of_In, list_elem_of_omap in H as (ch & _ & Hk).
    now apply charToSamsungKey_shape in Hk.
  - assert (H1 : Ssdp.allChars isSpace (Ssdp.uppercase searchText)
                 = Ssdp.allChars isSpace searchText).
    { induction searchText as [|c s IH]; [reflexivity|].
      cbn [Ssdp.uppercase Ssdp.allChars]. now rewrite isSpace_upper, IH. }
    rewrite H1. destruct (Ssdp.allChars isSpace searchText); [reflexivity|].
    clear H1. induction searchText as [|c s IH]; [reflexivity|].
    cbn [Ssdp.uppercase characters omap list_omap]. rewrite charToSamsungKey_upper, IH.
    reflexivity.
  - destruct (Ssdp.allChars isSpace searchText); [cbn; lia|].
    induction searchText as [|c s IH]; [reflexivity|].
    cbn [characters omap list_omap String.length].
    destruct (charToSamsungKey (String c EmptyString)); cbn [length]; lia.
  - intros ->. reflexivity.
Qed.

Lemma search_keys_witness :
  searchKeys "Go 4" = ["KEY_G"; "KEY_O"; "KEY_SPACE"; "KEY_4"]
  /\ searchKeys (Ssdp.uppercase "Go 4") = searchKeys "Go 4".
Proof.
  destruct (search_keys "Go 4" "KEY_G") as (_ & H & _).
  - reflexivity.
  - split; [reflexivity | exact H].
Defined.

(** *** The device [identify] builds *)

Lemma truthy_jsOr (a b : JsValue) : truthy b = true -> truthy (jsOr a b) = true.
Proof. intros H. unfold jsOr. destruct (truthy a) eqn:E; assumption. Qed.

(** X30: a device [identify] resolves to carries the address that was
    probed, the Samsung brand and port 8002, and its id, name and os are
    never empty or missing, whatever the response left out; and it is
    given only for a response with a success status whose body passes
    the Samsung test. *)
Theorem identified_device_fields (address : string) (f : FetchOutcome) (d : TvDevice) :
  identify address f = Resolved (Some d) ->
  ip d = address /\ brand d = samsung_tizen /\ port d = Some 8002%Z
  /\ truthy (id d) = true /\ truthy (name d) = true /\ truthy (os d) = true
  /\ exists status data, f = FetchResponse status (Some data)
                         /\ ok status = true /\ isSamsung data = true.
Proof.
  unfold identify. destruct f as [|status [data|]]; try discriminate;
    destruct (ok status) eqn:Eok; cbn [negb]; try discriminate.
  destruct (isSamsung data) eqn:Es; cbn [negb]; [|discriminate].
  intros H. injection H as <-. cbn [ip brand port id name os deviceFrom].
  repeat split.
  - apply truthy_jsOr, truthy_jsOr. reflexivity.
  - apply truthy_jsOr. reflexivity.
  - apply truthy_jsOr. reflexivity.
  - exists status, data. repeat split; assumption.
Qed.

Lemma identified_device_fields_witness :
  exists d, identify "10.0.0.5" (FetchResponse 200 (Some bareBody)) = Resolved (Some d)
            /\ id d = JString "samsung-10.0.0.5" /\ truthy (name d) = true.
Proof.
  exists (deviceFrom "10.0.0.5" bareBody). split; [reflexivity|]. split; [reflexivity|].
  destruct (identified_device_fields "10.0.0.5" (FetchResponse 200 (Some bareBody))
              (deviceFrom "10.0.0.5" bareBody)) as (_ & _ & _ & _ & H & _).
  - reflexivity.
  - exact H.
Defined.

End KeyboardFacts.

(** ** Facts about the threads of [connect] *)

Module ThreadsFacts.
Import Str TokenRepository Threads Races.
Local Open Scope string_scope.

Lemma run_snoc (ticks : list Tick) (t : Tick) (m : Machine) :
  run (ticks ++ [t]) m = step (run ticks m) t.
Proof. unfold run. now rewrite fold_left_app. Qed.

Lemma run_app (t1 t2 : list Tick) (m : Machine) : run (t1 ++ t2) m = run t2 (run t1 m).
Proof. unfold run. now rewrite fold_left_app. Qed.

(** Case analysis on the innermost discriminee. *)
Ltac break_match :=
  repeat match goal with
         | |- context [match ?x with _ => _ end] =>
           lazymatch x with
           | context [match _ with _ => _ end] => fail
           | _ => destruct x eqn:?
           end
         end.

(** Case analysis on a tick: the caller, thread or reader it names, and
    the line it is at. *)
Ltac tick_cases m t :=
  let i := fresh "i" in let a := fresh "a" in let more := fresh "more" in
  let ip := fresh "ip" in let E := fresh "Ei" in
  destruct t as [ip| |i|i a|i more| | |]; cbn [step];
  [ | | destruct (callers m !! i) as [[? ? ? [] ? ? ?]|] eqn:E
      | destruct (threads m !! i) as [[? ? ? ? ? ? ? ? ? []]|] eqn:E
      | destruct (readers m !! i) as [[? []]|] eqn:E
      | destruct (looper m) eqn:E; [destruct (delayed m)|..]
      | destruct (looper m) eqn:E; [destruct (posted m) as [|[|] ?] eqn:?|..]
      | destruct (looper m) as [| | | | | |[]|[]|] eqn:E ].

Lemma existsb_insert_false {A : Type} (f : A -> bool) (l : list A) (i : nat) (x : A) :
  existsb f l = false -> f x = false -> existsb f (<[i := x]> l) = false.
Proof.
  revert i. induction l as [|y l IH]; intros i H Hx; [reflexivity|].
  cbn in H. apply orb_false_iff in H as [Hy Hl].
  destruct i as [|i]; cbn; [now rewrite Hx, Hl|]. rewrite Hy. cbn. now apply IH.
Qed.

Lemma existsb_lookup_false {A : Type} (f : A -> bool) (l : list A) (i : nat) (x : A) :
  existsb f l = false -> l !! i = Some x -> f x = false.
Proof.
  revert i. induction l as [|y l IH]; intros i H Hi; [discriminate Hi|].
  cbn in H. apply orb_false_iff in H as [Hy Hl].
  destruct i as [|i]; cbn in Hi; [now injection Hi as <-|]. now apply (IH i).
Qed.

Lemma existsb_snoc_false {A : Type} (f : A -> bool) (l : list A) (x : A) :
  existsb f l = false -> f x = false -> existsb f (l ++ [x]) = false.
Proof. intros H Hx. rewrite existsb_app, H. cbn. now rewrite Hx. Qed.


Ltac bool_hyps :=
  repeat match goal with
         | H : _ && _ = false |- _ => apply andb_false_iff in H; destruct H
         | H : _ || _ = false |- _ => apply orb_false_iff in H; destruct H
         | H : _ && _ = true |- _ => apply andb_true_iff in H; destruct H
         | H : (_ =? _)%nat = false |- _ => apply Nat.eqb_neq in H
         | H : (_ =? _)%nat = true |- _ => apply Nat.eqb_eq in H
         | H : (_ <=? _)%nat = false |- _ => apply Nat.leb_gt in H
         | H : true = false |- _ => discriminate H
         | H : false = true |- _ => discriminate H
         | H : Some _ = Some _ |- _ => injection H as H
         | H : Some _ = None |- _ => discriminate H
         | H : None = Some _ |- _ => discriminate H
         end.

Ltac bool_goal :=
  repeat match goal with
         | |- _ /\ _ => split
         | |- _ || _ = false => apply orb_false_iff
         | |- existsb _ (<[_ := _]> _) = false => apply existsb_insert_false
         | |- existsb _ (_ ++ [_]) = false => apply existsb_snoc_false
         | |- _ => assumption
         | |- _ => reflexivity
         | |- _ && false = false => apply andb_false_r
         | |- _ && true = false => rewrite andb_true_r
         | |- (_ =? _)%nat = false => apply Nat.eqb_neq
         | |- (_ <=? _)%nat = false => apply Nat.leb_gt
         | |- _ = false =>
           progress (unfold callerHolds, threadHolds, looperHolds, blockHolds; cbn)
         end.

Lemma held_step (cb : nat) (m : Machine) (t : Tick) :
  held cb m = false ->
  held cb (step m t) = false /\ invocations cb (step m t) = invocations cb m.
Proof.
  unfold held, pendingIs, invocations. intros H.
  repeat (apply orb_false_iff in H; destruct H as [H ?]).
  tick_cases m t.
  all: try match goal with
       | E : callers ?m !! _ = Some _, H : existsb (callerHolds _) (callers ?m) = false |- _ =>
         pose proof (existsb_lookup_false _ _ _ _ H E) as Hloc;
         unfold callerHolds in Hloc; cbn in Hloc
       | E : threads ?m !! _ = Some _, H : existsb (threadHolds _) (threads ?m) = false |- _ =>
         pose proof (existsb_lookup_false _ _ _ _ H E) as Hloc;
         unfold threadHolds in Hloc; cbn in Hloc
       end.
  all: repeat match goal with
              | E : looper ?m = _, H : context [looper ?m] |- _ =>
                rewrite E in H; unfold looperHolds in H; cbn in H
              | E : posted ?m = _, H : context [posted ?m] |- _ =>
                rewrite E in H; unfold blockHolds in H; cbn in H
              end.
  all: cbn; unfold callerAt, at_, raise, readRunnable, readPending, taskInvoke; cbn.
  all: repeat match goal with
              | E : looper ?m = _ |- context [looper ?m] => rewrite E
              | E : posted ?m = _ |- context [posted ?m] => rewrite E
              end.
  all: repeat match goal with H : _ = false |- _ => revert H end.
  all: break_match; intros.
  all: cbn in *; rewrite ?List.filter_app, ?length_app, ?length_insert in *; cbn in *.
  all: bool_hyps.
  all: repeat match goal with
              | |- context [(?a =? ?b)%nat] => destruct (Nat.eqb_spec a b); try congruence
              end; cbn.
  all: try solve [bool_goal; try lia; try congruence].
Qed.

Lemma held_run (cb : nat) (ticks : list Tick) (m : Machine) :
  held cb m = false ->
  held cb (run ticks m) = false /\ invocations cb (run ticks m) = invocations cb m.
Proof.
  intros H. induction ticks as [|t ticks IH] using rev_ind; [split; [exact H|reflexivity]|].
  rewrite run_snoc. destruct IH as [IH1 IH2].
  destruct (held_step cb (run ticks m) t IH1) as [H1 H2]. split; [exact H1|congruence].
Qed.

Lemma forallb_insert_true {A : Type} (f : A -> bool) (l : list A) (i : nat) (x : A) :
  forallb f l = true -> f x = true -> forallb f (<[i := x]> l) = true.
Proof.
  revert i. induction l as [|y l IH]; intros i H Hx; [reflexivity|].
  cbn in H. apply andb_true_iff in H as [Hy Hl].
  destruct i as [|i]; cbn; [now rewrite Hx, Hl|]. rewrite Hy. cbn. now apply IH.
Qed.

Lemma forallb_lookup_true {A : Type} (f : A -> bool) (l : list A) (i : nat) (x : A) :
  forallb f l = true -> l !! i = Some x -> f x = true.
Proof.
  revert i. induction l as [|y l IH]; intros i H Hi; [discriminate Hi|].
  cbn in H. apply andb_true_iff in H as [Hy Hl].
  destruct i as [|i]; cbn in Hi; [now injection Hi as <-|]. now apply (IH i).
Qed.

Lemma forallb_snoc_true {A : Type} (f : A -> bool) (l : list A) (x : A) :
  forallb f l = true -> f x = true -> forallb f (l ++ [x]) = true.
Proof. intros H Hx. rewrite forallb_app, H. cbn. now rewrite Hx. Qed.

Ltac true_goal :=
  repeat match goal with
         | |- _ /\ _ => split
         | |- _ && _ = true => apply andb_true_iff
         | H : ?p = None |- negb (bool_decide (is_Some ?p)) = true =>
           rewrite H; reflexivity
         | |- forallb _ (<[_ := _]> _) = true => apply forallb_insert_true
         | |- forallb _ (_ ++ [_]) = true => apply forallb_snoc_true
         | |- _ => assumption
         | |- _ => reflexivity
         | |- exists rest, ?l = (?l ++ rest)%list /\ _ => exists []; rewrite app_nil_r
         | |- exists rest, (?l ++ ?r)%list = (?l ++ rest)%list /\ _ => exists r
         end.

Lemma stuck_step (m : Machine) (t : Tick) :
  stuck m = true ->
  stuck (step m t) = true
  /\ exists rest, invoked (step m t) = (invoked m ++ rest)%list
                  /\ forallb turnedAway rest = true.
Proof.
  unfold stuck. intros H.
  repeat (apply andb_true_iff in H; destruct H as [H ?]).
  apply negb_true_iff, bool_decide_eq_false in H4.
  assert (Hp : pendingConnectionCallback (fields m) = None).
  { destruct (pendingConnectionCallback (fields m)); [exfalso; apply H4; eauto|reflexivity]. }
  clear H4.
  tick_cases m t.
  all: try match goal with
       | E : callers ?m !! _ = Some _, H : forallb callerHarmless (callers ?m) = true |- _ =>
         pose proof (forallb_lookup_true _ _ _ _ H E) as Hloc;
         unfold callerHarmless in Hloc; cbn in Hloc
       | E : threads ?m !! _ = Some _, H : forallb threadOver (threads ?m) = true |- _ =>
         pose proof (forallb_lookup_true _ _ _ _ H E) as Hloc;
         unfold threadOver in Hloc; cbn in Hloc
       end.
  all: try discriminate.
  all: repeat match goal with
              | E : looper ?m = _, H : context [looper ?m] |- _ =>
                rewrite E in H; unfold looperHarmless in H; cbn in H
              | E : posted ?m = _, H : context [posted ?m] |- _ =>
                rewrite E in H; unfold blockQuiet in H; cbn in H
              end.
  all: try discriminate.
  all: cbn; unfold callerAt, at_, raise, readRunnable, readPending, taskInvoke; cbn.
  all: repeat match goal with
              | E : looper ?m = _ |- context [looper ?m] => rewrite E
              | E : posted ?m = _ |- context [posted ?m] => rewrite E
              | E : pendingConnectionCallback _ = _ |- _ => rewrite E
              end.
  all: repeat match goal with H : _ = true |- _ => revert H end.
  all: break_match; intros.
  all: cbn in *.
  all: try discriminate.
  all: try solve [true_goal].
Qed.

Lemma stuck_run (ticks : list Tick) (m : Machine) :
  stuck m = true ->
  stuck (run ticks m) = true
  /\ exists rest, invoked (run ticks m) = (invoked m ++ rest)%list
                  /\ forallb turnedAway rest = true.
Proof.
  intros H. induction ticks as [|t ticks IH] using rev_ind.
  - split; [exact H|]. exists []. now rewrite app_nil_r.
  - rewrite run_snoc. destruct IH as (IH1 & rest & IH2 & IH3).
    destruct (stuck_step (run ticks m) t IH1) as (H1 & rest' & H2 & H3).
    split; [exact H1|]. exists (rest ++ rest')%list.
    rewrite H2, IH2, <- app_assoc, forallb_app, IH3, H3. split; reflexivity.
Qed.
Lemma filter_insert_length {A : Type} (f : A -> bool) (l : list A) (i : nat) (x y : A) :
  l !! i = Some y ->
  (length (List.filter f (<[i := x]> l)) + (if f y then 1 else 0)
   = length (List.filter f l) + (if f x then 1 else 0))%nat.
Proof.
  revert i. induction l as [|z l IH]; intros i Hi; [discriminate Hi|].
  destruct i as [|i]; cbn in Hi |- *.
  - injection Hi as Hi. subst z. destruct (f x), (f y); cbn; lia.
  - specialize (IH i Hi). destruct (f z); cbn; [f_equal|]; exact IH.
Qed.

#[local] Opaque Session.timeoutMessage Session.deniedMessage.
#[local] Arguments bool_decide : simpl never.

Lemma balanced_step (m : Machine) (t : Tick) : Balanced m -> Balanced (step m t).
Proof.
  intros [H1 H2]. split; [intros message; specialize (H1 message)|].
  all: unfold failures, owed, errorEvents, turnedAwayCalls, successes, connectedEvents in *.
  all: tick_cases m t; try assumption.
  all: cbn; unfold callerAt, at_, raise, readRunnable, readPending, taskInvoke; cbn.
  all: repeat match goal with
              | E : looper ?m = _ |- context [looper ?m] => rewrite E
              | E : posted ?m = _ |- context [posted ?m] => rewrite E
              | E : looper ?m = _, H : context [looper ?m] |- _ => rewrite E in H
              end.
  all: break_match.
  all: cbn; rewrite ?List.filter_app, ?length_app; cbn.
  all: try assumption.
  all: repeat match goal with
              | E : ?l !! ?i = Some ?y |- context [length (List.filter ?f (<[?i := ?x]> ?l))] =>
                let Hf := fresh "Hf" in let n := fresh "n" in
                pose proof (filter_insert_length f l i x y E) as Hf;
                set (n := length (List.filter f (<[i := x]> l))) in *; clearbody n;
                cbn in Hf
              end.
  all: repeat case_bool_decide; simplify_eq; cbn in *.
  all: try lia.
  all: repeat match goal with
              | H : context [bool_decide ?P] |- _ => destruct (bool_decide_reflect P)
              end; try congruence; lia.
Qed.

Lemma balanced_new (p : gmap string string) : Balanced (newMachine p).
Proof. split; [intros message; cbn; case_bool_decide; reflexivity|reflexivity]. Qed.

Lemma balanced_run (p : gmap string string) (ticks : list Tick) :
  Balanced (run ticks (newMachine p)).
Proof.
  induction ticks as [|t ticks IH] using rev_ind; [apply balanced_new|].
  rewrite run_snoc. apply balanced_step, IH.
Qed.

#[local] Transparent Session.timeoutMessage Session.deniedMessage.

Lemma owed_complete (message : string) (m : Machine) :
  complete m = true -> owed message m = 0%nat /\ looperOwesSuccess (looper m) = 0%nat.
Proof.
  unfold complete, owed. intros H. apply andb_true_iff in H as [Ht Hl].
  assert (Hz : length (List.filter (threadOwes message) (threads m)) = 0%nat).
  { induction (threads m) as [|t l IH]; [reflexivity|].
    cbn in Ht. apply andb_true_iff in Ht as [Ha Hb]. cbn.
    unfold threadOwes at 1. destruct (t_line t); try discriminate Ha; now apply IH. }
  rewrite Hz. destruct (looper m) as [| | | | | | |[]|]; try discriminate Hl;
    split; reflexivity.
Qed.

(** C4 (the code on two runs): the callback of a [connect] is not
    invoked exactly once when the threads overlap.  On the run
    [runInvokedTwice] the watchdog and the connection thread both read
    the pending callback before either clears it: callback 0 is invoked
    with the timeout failure and then with success, and the watchdog that
    fired is cancelled afterwards.  On the run [runNeverInvoked] a second
    [connect] is accepted between lines 452 and 454 of the first attempt
    and overwrites the pending callback: callback 0 is never invoked,
    whatever happens later, and callback 1 is told of a connection to the
    first address although its own attempt failed on both ports.
    Cancelling a watchdog twice and a watchdog that finds no callback
    change nothing. *)
Theorem connect_callback_races :
  (settled invokedTwice = true
   /\ invoked invokedTwice
      = [Session.mkInvocation 0 false (Some Session.timeoutMessage);
         Session.mkInvocation 0 true None]
   /\ events invokedTwice
      = [Session.EvError Session.timeoutMessage; Session.EvConnected Session.tvIp]
   /\ fired invokedTwice = [0%nat] /\ removed invokedTwice = [0%nat])
  /\ (settled neverInvoked = true
      /\ invoked neverInvoked = [Session.mkInvocation 1 true None]
      /\ events neverInvoked = [Session.EvConnected Session.tvIp; Session.EvDisconnected]
      /\ map t_ip (threads neverInvoked) = [Session.tvIp; otherIp]
      /\ forall ticks, invocations 0 (run ticks neverInvoked) = 0%nat)
  /\ (forall r m,
        delayed (perform (RemoveCallbacks r) (perform (RemoveCallbacks r) m))
        = delayed (perform (RemoveCallbacks r) m))
  /\ (forall m, pendingConnectionCallback (fields m) = None ->
                looperStep m W316 = (Idle, Skip)).
Proof.
  split; [|split; [|split]].
  - vm_compute. repeat split.
  - split; [vm_compute; reflexivity|]. split; [vm_compute; reflexivity|].
    split; [vm_compute; reflexivity|]. split; [vm_compute; reflexivity|].
    intros ticks.
    destruct (held_run 0 ticks neverInvoked) as [_ H]; [vm_compute; reflexivity|].
    rewrite H. vm_compute. reflexivity.
  - intros r m. cbn. induction (delayed m) as [|x l IH]; [reflexivity|].
    cbn. destruct (x =? r)%nat eqn:E; cbn; [exact IH|]. rewrite E. cbn. now rewrite IH.
  - intros m H. cbn. now rewrite H.
Qed.

(** X13: a [connect] can be accepted while the callback of an earlier
    one is still pending.  After line 452 of a successful attempt
    [isConnecting] is clear and the callback is still in the field; a
    second [connect] that runs then is accepted, returns normally, and
    its line 314 puts its own callback in the field.  The first callback
    has not been invoked and never is, whatever the threads do from
    there. *)
Theorem pending_callback_overwritten :
  (isConnecting (fields unlatched) = false
   /\ pendingConnectionCallback (fields unlatched) = Some 0%nat
   /\ invoked unlatched = [])
  /\ overwritten = run ([Call otherIp] ++ acceptedCall 1) unlatched
  /\ map c_line (callers overwritten) = [CallerReturned; CallerReturned]
  /\ pendingConnectionCallback (fields overwritten) = Some 1%nat
  /\ invoked overwritten = []
  /\ forall ticks, invocations 0 (run ticks overwritten) = 0%nat.
Proof.
  split; [vm_compute; repeat split|]. split; [vm_compute; reflexivity|].
  split; [vm_compute; reflexivity|]. split; [vm_compute; reflexivity|].
  split; [vm_compute; reflexivity|].
  intros ticks.
  destruct (held_run 0 ticks overwritten) as [_ H]; [vm_compute; reflexivity|].
  rewrite H. vm_compute. reflexivity.
Qed.

(** X14: the client can stay busy for good.  On the run [runStuck] the
    second attempt loses its callback to the thread of the first and is
    left to the watchdog, which comes due, finds no callback and leaves
    [isConnecting] set.  Nothing is left to run, and from there on
    [isConnecting] stays set whatever happens: every callback invoked
    later is the failure of a call turned away with
    Already connecting. *)
Theorem watchdog_leaves_client_busy :
  settled stuckClient = true
  /\ fired stuckClient = [1%nat]
  /\ isConnecting (fields stuckClient) = true
  /\ pendingConnectionCallback (fields stuckClient) = None
  /\ forall ticks,
       isConnecting (fields (run ticks stuckClient)) = true
       /\ exists rest,
            invoked (run ticks stuckClient) = (invoked stuckClient ++ rest)%list
            /\ forallb turnedAway rest = true.
Proof.
  split; [vm_compute; reflexivity|]. split; [vm_compute; reflexivity|].
  split; [vm_compute; reflexivity|]. split; [vm_compute; reflexivity|].
  intros ticks.
  destruct (stuck_run ticks stuckClient) as [Hs Hr]; [vm_compute; reflexivity|].
  split; [|exact Hr].
  unfold stuck in Hs. repeat (apply andb_true_iff in Hs; destruct Hs as [Hs ?]).
  exact Hs.
Qed.

(** X15: over every run of the threads, callbacks follow their
    events.  For every message, the failure callbacks with it and the
    callbacks that are due (their error event was emitted and the call is
    the next statement of the same thread) are as many as the error
    events with it, plus, for the message Already connecting, the calls
    turned away; success callbacks and those due are as many as the
    connected events.  So when no thread stands between an event and its
    callback, the only callbacks without an event are those of calls
    turned away, and the only events without a callback are the
    disconnected events of the readers. *)
Theorem callbacks_follow_events (p : gmap string string) (ticks : list Tick) :
  let m := run ticks (newMachine p) in
  Balanced m
  /\ (complete m = true ->
      (forall message,
         failures message m
         = errorEvents message m
           + if bool_decide (message = "Already connecting")
             then turnedAwayCalls m else 0)%nat
      /\ successes m = connectedEvents m).
Proof.
  intros m. pose proof (balanced_run p ticks) as [H1 H2]. fold m in H1, H2.
  split; [split; assumption|]. intros Hc. split.
  - intros message. specialize (H1 message).
    destruct (owed_complete message m Hc) as [Ho _]. lia.
  - destruct (owed_complete "" m Hc) as [_ Ho]. lia.
Qed.

Lemma callbacks_follow_events_witness :
  failures Session.timeoutMessage invokedTwice = 1%nat
  /\ errorEvents Session.timeoutMessage invokedTwice = 1%nat
  /\ successes invokedTwice = connectedEvents invokedTwice.
Proof.
  destruct (callbacks_follow_events ∅ runInvokedTwice) as [_ H].
  destruct H as [H1 H2]; [vm_compute; reflexivity|].
  split; [vm_compute; reflexivity|]. split; [vm_compute; reflexivity|]. exact H2.
Defined.

End ThreadsFacts.
